(** * Gym membership system: calendar, store, renewal and persistence

    A shallow embedding of [final.c].  The global linked list
    ([head]/[tail]/[member_count]/[next_card_id]) becomes a [Store] record that
    every operation takes and returns; the data file becomes an entry of a
    small file system; the host clock becomes the string that
    [getSystemDate] writes into its buffer.

    Conventions.
    - C strings are lists of bytes ([ascii]) without the terminating NUL.
    - [int] is 32 bits and [long] is 64 bits (LP64).  Arithmetic is done in
      [Z] and brought back into range by [sint] / [slong] at each operation
      of the source, so that the model is total.  Signed overflow is
      undefined in C; the statements below that depend on a sum say in a
      hypothesis that it stays in range.
    - [/] and [%] of C truncate towards zero: [Z.quot] and [Z.rem].
    - [malloc] is taken to succeed, and so are [fprintf] and [fclose] on a
      file that could be opened: the source tests neither. *)

From Stdlib Require Import String Ascii ZArith List Bool Lia Arith.
From Equations Require Import Equations.
Import ListNotations.
Open Scope Z_scope.

Ltac Zify.zify_post_hook ::= Z.to_euclidean_division_equations.

(** Case analysis on a month number known to lie between 1 and 12. *)
Ltac month_cases m :=
  let H := fresh "Hm" in
  assert (H : m = 1 \/ m = 2 \/ m = 3 \/ m = 4 \/ m = 5 \/ m = 6 \/ m = 7
              \/ m = 8 \/ m = 9 \/ m = 10 \/ m = 11 \/ m = 12) by lia;
  destruct H as [->|[->|[->|[->|[->|[->|[->|[->|[->|[->|[->| ->]]]]]]]]]]].

(* ------------------------------------------------------------------ *)
(** ** Machine integers *)

Definition wrap (bits z : Z) : Z :=
  (z + 2 ^ (bits - 1)) mod 2 ^ bits - 2 ^ (bits - 1).

Definition sint (z : Z) : Z := wrap 32 z.
Definition slong (z : Z) : Z := wrap 64 z.

Definition INT_MAX : Z := 2147483647.
Definition LONG_MAX : Z := 9223372036854775807.

Definition int_range (z : Z) : Prop := - INT_MAX - 1 <= z <= INT_MAX.
Definition long_range (z : Z) : Prop := - LONG_MAX - 1 <= z <= LONG_MAX.

(* ------------------------------------------------------------------ *)
(** ** C strings and the libc functions the program calls *)

Definition cstring : Type := list ascii.

Definition cs (s : string) : cstring := list_ascii_of_string s.

Definition code (c : ascii) : Z := Z.of_N (N_of_ascii c).

Definition chr (z : Z) : ascii := ascii_of_N (Z.to_N z).

(** [strcmp(a, b) == 0] *)
Fixpoint strcmp_eq (a b : cstring) : bool :=
  match a, b with
  | [], [] => true
  | x :: a', y :: b' => Ascii.eqb x y && strcmp_eq a' b'
  | _, _ => false
  end.

(** [(int)strlen(s)] *)
Definition strlen (s : cstring) : Z := Z.of_nat (length s).

Definition isspace (c : ascii) : bool :=
  (code c =? 32) || ((9 <=? code c) && (code c <=? 13)).

Definition isdigit (c : ascii) : bool :=
  (48 <=? code c) && (code c <=? 57).

Definition digit_val (c : ascii) : Z := code c - 48.

Fixpoint skip_space (s : cstring) : cstring :=
  match s with
  | c :: r => if isspace c then skip_space r else s
  | [] => []
  end.

(** The longest prefix of decimal digits, accumulated most significant
    digit first, and what follows it. *)
Fixpoint read_digits (s : cstring) (acc : Z) : Z * cstring :=
  match s with
  | c :: r => if isdigit c then read_digits r (acc * 10 + digit_val c)
              else (acc, s)
  | [] => (acc, [])
  end.

(** The conversion shared by [%d] of [sscanf] and by [strtol]: blanks, an
    optional sign, at least one digit.  [None] is a matching failure. *)
Definition scan_int (s : cstring) : option (Z * cstring) :=
  let s1 := skip_space s in
  let '(neg, s2) :=
    match s1 with
    | c :: r => if Ascii.eqb c "-" then (true, r)
                else if Ascii.eqb c "+" then (false, r)
                else (false, s1)
    | [] => (false, [])
    end in
  match s2 with
  | c :: _ =>
      if isdigit c then
        let '(v, rest) := read_digits s2 0 in
        Some (if neg then - v else v, rest)
      else None
  | [] => None
  end.

(** [atoi] and [atol]: 0 when no number can be read.  A value that does not
    fit is undefined in C and is wrapped here. *)
Definition atoi (s : cstring) : Z :=
  match scan_int s with Some (v, _) => sint v | None => 0 end.

Definition atol (s : cstring) : Z :=
  match scan_int s with Some (v, _) => slong v | None => 0 end.

(** [strncpy(dst, src, n); dst[n-1] = '\0'] with [n = sizeof dst]. *)
Definition strncpy_buf (size : nat) (src : cstring) : cstring :=
  firstn (size - 1) src.

(* ------------------------------------------------------------------ *)
(** ** Input validation *)

Definition isValidAge (age : Z) : bool := (18 <=? age) && (age <=? 80).

Definition isValidPhone (phone : cstring) : bool :=
  if negb (strlen phone =? 11) then false else forallb isdigit phone.

(* ------------------------------------------------------------------ *)
(** ** Calendar engine *)

Definition isLeapYear (y : Z) : bool :=
  ((Z.rem y 4 =? 0) && negb (Z.rem y 100 =? 0)) || (Z.rem y 400 =? 0).

Definition mdays : list Z := [0; 31; 28; 31; 30; 31; 30; 31; 31; 30; 31; 30; 31].

Definition daysInMonth (y m : Z) : Z :=
  if m =? 2 then nth (Z.to_nat m) mdays 0 + (if isLeapYear y then 1 else 0)
  else nth (Z.to_nat m) mdays 0.

(** [sscanf(date, "%d-%d-%d", &y, &m, &d)]: [Some] when all three
    conversions succeed (the call returns 3). *)
Definition sscanf_date (date : cstring) : option (Z * Z * Z) :=
  match scan_int date with
  | Some (y, c1 :: r1) =>
      if Ascii.eqb c1 "-" then
        match scan_int r1 with
        | Some (m, c2 :: r2) =>
            if Ascii.eqb c2 "-" then
              match scan_int r2 with
              | Some (d, _) => Some (sint y, sint m, sint d)
              | None => None
              end
            else None
        | _ => None
        end
      else None
  | _ => None
  end.

(** [for (int i = 1; i < m; i++) days += daysInMonth(y, i);] *)
Definition add_months (y m days : Z) : Z :=
  fold_left (fun acc i => slong (acc + daysInMonth y (Z.of_nat i)))
            (seq 1 (Z.to_nat m - 1)) days.

(** The body of [dateToDays] once the three numbers are read. *)
Definition date_days (y m d : Z) : Z :=
  if (m <? 1) || (m >? 12) then 0
  else if (d <? 1) || (d >? daysInMonth y m) then 0
  else
    let y1 := sint (y - 1) in
    let leapCount :=
      slong (slong (Z.quot y1 4 - Z.quot y1 100) + Z.quot y1 400) in
    let days := slong (0 + slong (slong (y * 365) + leapCount)) in
    let days := add_months y m days in
    slong (days + d).

Definition dateToDays (date : cstring) : Z :=
  match sscanf_date date with
  | Some (y, m, d) => date_days y m d
  | None => 0
  end.

Definition getDurationDays (type : cstring) : Z :=
  if strcmp_eq type (cs "月卡") then 30
  else if strcmp_eq type (cs "季卡") then 90
  else if strcmp_eq type (cs "年卡") then 365
  else 0.

(* ------------------------------------------------------------------ *)
(** ** Records and the store *)

Record Member : Type := mkMember {
  card_id : Z;
  name : cstring;
  gender : cstring;
  age : Z;
  phone : cstring;
  join_date : cstring;
  membership_type : cstring;
  is_active : Z
}.

Record Node : Type := mkNode {
  data : Member;
  bonus_days : Z
}.

(** The linked list from [head], with the two global counters.  [tail] is
    the last element of [head]. *)
Record Store : Type := mkStore {
  head : list Node;
  member_count : Z;
  next_card_id : Z
}.

Definition MAX_MEMBERS : Z := 100.

(** The globals as the program starts. *)
Definition empty_store : Store :=
  {| head := []; member_count := 0; next_card_id := 1001 |}.

Definition set_is_active (v : Z) (p : Node) : Node :=
  let m := data p in
  {| data := {| card_id := card_id m; name := name m; gender := gender m;
                age := age m; phone := phone m; join_date := join_date m;
                membership_type := membership_type m; is_active := v |};
     bonus_days := bonus_days p |}.

Definition set_phone (v : cstring) (p : Node) : Node :=
  let m := data p in
  {| data := {| card_id := card_id m; name := name m; gender := gender m;
                age := age m; phone := v; join_date := join_date m;
                membership_type := membership_type m;
                is_active := is_active m |};
     bonus_days := bonus_days p |}.

Definition set_head (l : list Node) (st : Store) : Store :=
  {| head := l; member_count := member_count st;
     next_card_id := next_card_id st |}.

Definition createNode (m : Member) : Node := {| data := m; bonus_days := 0 |}.

Definition appendNode (node : Node) (st : Store) : Store :=
  {| head := head st ++ [node];
     member_count := sint (member_count st + 1);
     next_card_id := next_card_id st |}.

Definition has_id (id : Z) (p : Node) : bool := card_id (data p) =? id.

Arguments has_id : simpl never.

Definition findByCardID (st : Store) (id : Z) : option Node :=
  find (has_id id) (head st).

Definition freeAllMembers (st : Store) : Store :=
  {| head := []; member_count := 0; next_card_id := next_card_id st |}.

(** A write through the pointer that the search returned: the first node
    with that card number is replaced. *)
Fixpoint update_first (id : Z) (f : Node -> Node) (l : list Node) : list Node :=
  match l with
  | [] => []
  | p :: r => if has_id id p then f p :: r else p :: update_first id f r
  end.

(** Unlinking the first node with that card number. *)
Fixpoint unlink_first (id : Z) (l : list Node) : list Node :=
  match l with
  | [] => []
  | p :: r => if has_id id p then r else p :: unlink_first id r
  end.

Definition calcExpireDays (p : Node) : Z :=
  let join_days := dateToDays (join_date (data p)) in
  let duration := getDurationDays (membership_type (data p)) in
  slong (slong (join_days + duration) + bonus_days p).

(* ------------------------------------------------------------------ *)
(** ** Expiration synchronizer *)

Definition expire_node (current_days : Z) (p : Node) : Node :=
  if is_active (data p) =? 1 then
    let expire_days := calcExpireDays p in
    if slong (expire_days - current_days) <? 0 then set_is_active 0 p else p
  else p.

(** [current_date_str] is what [getSystemDate] returns at the call. *)
Definition syncAutoExpire (current_date_str : cstring) (st : Store) : Store :=
  match head st with
  | [] => st
  | _ =>
      let current_days := dateToDays current_date_str in
      set_head (map (expire_node current_days) (head st)) st
  end.

(* ------------------------------------------------------------------ *)
(** ** Renewal *)

(** The menu loop of [renewMember] and [addMember] ends only on 1, 2 or 3. *)
Inductive type_choice : Type := Monthly | Quarterly | Yearly.

Definition newType (c : type_choice) : cstring :=
  match c with
  | Monthly => cs "月卡"
  | Quarterly => cs "季卡"
  | Yearly => cs "年卡"
  end.

Definition newDuration (c : type_choice) : Z :=
  match c with Monthly => 30 | Quarterly => 90 | Yearly => 365 end.

Inductive renew_outcome : Type :=
| RenewNotFound | RenewRestarted | RenewRejected | RenewExtended.

(** What [renewMember] does to the node it found, once the type is chosen
    and the clock is read. *)
Definition renew_node (current_date_str : cstring) (c : type_choice) (p : Node)
  : Node * renew_outcome :=
  let current_days := dateToDays current_date_str in
  let expire_days := calcExpireDays p in
  if (is_active (data p) =? 0) || (expire_days <? current_days) then
    let m := data p in
    ({| data := {| card_id := card_id m; name := name m; gender := gender m;
                   age := age m; phone := phone m;
                   join_date := current_date_str;
                   membership_type := newType c; is_active := 1 |};
        bonus_days := 0 |}, RenewRestarted)
  else if negb (strcmp_eq (newType c) (membership_type (data p))) then
    (p, RenewRejected)
  else
    (set_is_active 1 {| data := data p;
                        bonus_days := slong (bonus_days p + newDuration c) |},
     RenewExtended).

(** The renewal proper: lookup, choice of type, clock, policy. *)
Definition renew_found (current_date_str : cstring) (id : Z) (c : type_choice)
                       (st : Store) : Store * renew_outcome :=
  match findByCardID st id with
  | None => (st, RenewNotFound)
  | Some p =>
      let '(p', r) := renew_node current_date_str c p in
      (set_head (update_first id (fun _ => p') (head st)) st, r)
  end.

(** [sync_date] is the clock as the synchronizer reads it on entry,
    [current_date_str] the clock as read after the type is chosen. *)
Definition renewMember (sync_date current_date_str : cstring) (id : Z)
                       (c : type_choice) (st : Store) : Store * renew_outcome :=
  renew_found current_date_str id c (syncAutoExpire sync_date st).

(* ------------------------------------------------------------------ *)
(** ** Insertion, phone update, deactivation, deletion *)

Record AddInput : Type := mkAddInput {
  in_name : cstring;
  in_gender : cstring;
  in_age : Z;
  in_phone : cstring;
  in_type : type_choice
}.

Inductive add_outcome : Type := AddFull | AddDone.

Definition addMember (current_date_str : cstring) (i : AddInput) (st : Store)
  : Store * add_outcome :=
  if member_count st >=? MAX_MEMBERS then (st, AddFull)
  else
    let m := {| card_id := next_card_id st; name := in_name i;
                gender := in_gender i; age := in_age i; phone := in_phone i;
                join_date := current_date_str;
                membership_type := newType (in_type i); is_active := 1 |} in
    let st1 := {| head := head st; member_count := member_count st;
                  next_card_id := sint (next_card_id st + 1) |} in
    (appendNode (createNode m) st1, AddDone).

Inductive phone_outcome : Type := PhoneNotFound | PhoneDone.

Definition updateMemberPhone (id : Z) (newPhone : cstring) (st : Store)
  : Store * phone_outcome :=
  match findByCardID st id with
  | None => (st, PhoneNotFound)
  | Some _ => (set_head (update_first id (set_phone newPhone) (head st)) st,
               PhoneDone)
  end.

Inductive status_outcome : Type :=
| StatusNotFound | StatusAlreadyInactive | StatusDone.

Definition updateMemberStatus (id : Z) (st : Store) : Store * status_outcome :=
  match findByCardID st id with
  | None => (st, StatusNotFound)
  | Some p =>
      if is_active (data p) =? 0 then (st, StatusAlreadyInactive)
      else (set_head (update_first id (set_is_active 0) (head st)) st,
            StatusDone)
  end.

Inductive delete_outcome : Type :=
| DeleteNotFound | DeleteStillActive | DeleteDone.

Definition deleteExpiredMember (sync_date : cstring) (id : Z) (st : Store)
  : Store * delete_outcome :=
  let st1 := syncAutoExpire sync_date st in
  match findByCardID st1 id with
  | None => (st1, DeleteNotFound)
  | Some cur =>
      if is_active (data cur) =? 1 then (st1, DeleteStillActive)
      else
        ({| head := unlink_first id (head st1);
            member_count := sint (member_count st1 - 1);
            next_card_id := next_card_id st1 |}, DeleteDone)
  end.

(* ------------------------------------------------------------------ *)
(** ** Files *)

(** The directory of the program: the contents of each file that exists. *)
Definition FileSystem : Type := string -> option (list ascii).

Definition DATA_FILE : string := "members.txt".
Definition TEMP_FILE : string := "members.tmp".

Definition fs_put (f : string) (content : list ascii) (fs : FileSystem)
  : FileSystem :=
  fun g => if String.eqb g f then Some content else fs g.

Definition fs_del (f : string) (fs : FileSystem) : FileSystem :=
  fun g => if String.eqb g f then None else fs g.

(** [remove(f)]; the flag is whether the host lets the call succeed.  The
    program ignores the result. *)
Definition c_remove (ok : bool) (f : string) (fs : FileSystem) : FileSystem :=
  if ok then fs_del f fs else fs.

(** [rename(src, dst)]: [None] when the call returns non-zero, and then
    nothing has moved. *)
Definition c_rename (ok : bool) (src dst : string) (fs : FileSystem)
  : option FileSystem :=
  if ok then
    match fs src with
    | Some content => Some (fs_put dst content (fs_del src fs))
    | None => None
    end
  else None.

(** What the host answers to the four calls of one [saveToFile]. *)
Record SaveEnv : Type := mkSaveEnv {
  fopen_ok : bool;
  remove_dest_ok : bool;
  rename_ok : bool;
  remove_temp_ok : bool
}.

(* ------------------------------------------------------------------ *)
(** ** Writing the data file *)

Definition digit_chr (n : Z) : ascii := chr (48 + n).

(** Decimal digits of a non-negative number, most significant first. *)
Fixpoint dec_digits (fuel : nat) (n : Z) : cstring :=
  match fuel with
  | O => []
  | S f => if n <? 10 then [digit_chr n]
           else dec_digits f (n / 10) ++ [digit_chr (n mod 10)]
  end.

(** [%d] and [%ld] of [fprintf]; twenty digits cover a 64-bit value. *)
Definition fmt_d (v : Z) : cstring :=
  if v <? 0 then "-"%char :: dec_digits 20 (- v) else dec_digits 20 v.

Definition bar : ascii := "|"%char.
Definition LF : ascii := chr 10.
Definition CR : ascii := chr 13.
Definition NUL : ascii := chr 0.

(** The text of a record: ["%d|%s|%s|%d|%s|%s|%s|%d|%ld"]. *)
Definition fmt_line (p : Node) : list ascii :=
  let m := data p in
  fmt_d (card_id m) ++ bar :: name m ++ bar :: gender m ++ bar ::
  fmt_d (age m) ++ bar :: phone m ++ bar :: join_date m ++ bar ::
  membership_type m ++ bar :: fmt_d (is_active m) ++ bar ::
  fmt_d (bonus_days p).

(** [fprintf(fp, "%d|%s|%s|%d|%s|%s|%s|%d|%ld\n", ...)] *)
Definition fmt_node (p : Node) : list ascii := fmt_line p ++ [LF].

Definition file_image (st : Store) : list ascii :=
  concat (map fmt_node (head st)).

(** The result is the file system after the call and the value returned. *)
Definition saveToFile (env : SaveEnv) (filename : string) (st : Store)
                      (fs : FileSystem) : FileSystem * Z :=
  if negb (fopen_ok env) then (fs, 0)
  else
    let fs1 := fs_put TEMP_FILE (file_image st) fs in
    let fs2 := c_remove (remove_dest_ok env) filename fs1 in
    match c_rename (rename_ok env) TEMP_FILE filename fs2 with
    | None => (c_remove (remove_temp_ok env) TEMP_FILE fs2, 0)
    | Some fs3 => (fs3, 1)
    end.

(* ------------------------------------------------------------------ *)
(** ** Reading the data file *)

(** [fgets(line, n + 1, fp)]: at most [n] bytes, up to and including the
    first line feed; the bytes read and the rest of the stream. *)
Fixpoint fgets (n : nat) (fp : list ascii) : list ascii * list ascii :=
  match n, fp with
  | S k, c :: r =>
      if Ascii.eqb c LF then ([c], r)
      else let '(l, r') := fgets k r in (c :: l, r')
  | _, _ => ([], fp)
  end.

(** A buffer read as a C string ends at its first NUL. *)
Fixpoint c_str (buf : list ascii) : cstring :=
  match buf with
  | [] => []
  | c :: r => if Ascii.eqb c NUL then [] else c :: c_str r
  end.

(** [s[strcspn(s, "\r\n")] = '\0'] *)
Fixpoint trim_newline (s : cstring) : cstring :=
  match s with
  | [] => []
  | c :: r => if Ascii.eqb c CR || Ascii.eqb c LF then [] else c :: trim_newline r
  end.

Fixpoint skip_bars (s : cstring) : cstring :=
  match s with
  | c :: r => if Ascii.eqb c bar then skip_bars r else s
  | [] => []
  end.

(** The token up to the next delimiter, and the position after it. *)
Fixpoint cut_token (s : cstring) : cstring * cstring :=
  match s with
  | [] => ([], [])
  | c :: r => if Ascii.eqb c bar then ([], r)
              else let '(t, r') := cut_token r in (c :: t, r')
  end.

(** [strtok(_, "|")] on the text from the saved position: [None] is NULL,
    otherwise the token and the new saved position. *)
Definition strtok (s : cstring) : option (cstring * cstring) :=
  match skip_bars s with
  | [] => None
  | s' => Some (cut_token s')
  end.

(** The nine variables filled from one line. *)
Record Fields : Type := mkFields {
  f_card_id : Z;
  f_name : cstring;
  f_gender : cstring;
  f_age : Z;
  f_phone : cstring;
  f_join_date : cstring;
  f_mtype : cstring;
  f_is_active : Z;
  f_bonus_days : Z
}.

Notation "'tok!' ( t , r ) <- e ; k" :=
  (match e with Some (t, r) => k | None => None end)
  (at level 10, t name, r name, e at level 100, k at level 200).

(** The nine [strtok] calls; [None] when one of them returns NULL. *)
Definition split_fields (line : cstring) : option Fields :=
  tok! (t1, r1) <- strtok line;
  tok! (t2, r2) <- strtok r1;
  tok! (t3, r3) <- strtok r2;
  tok! (t4, r4) <- strtok r3;
  tok! (t5, r5) <- strtok r4;
  tok! (t6, r6) <- strtok r5;
  tok! (t7, r7) <- strtok r6;
  tok! (t8, r8) <- strtok r7;
  tok! (t9, r9) <- strtok r8;
  Some {| f_card_id := atoi t1;
          f_name := strncpy_buf 30 t2;
          f_gender := strncpy_buf 10 t3;
          f_age := atoi t4;
          f_phone := strncpy_buf 15 t5;
          f_join_date := strncpy_buf 12 t6;
          f_mtype := strncpy_buf 10 t7;
          f_is_active := atoi t8;
          f_bonus_days := atol t9 |}.

(** The seven checks, in the order of the source. *)
Definition fields_ok (f : Fields) : bool :=
  if f_card_id f <=? 0 then false
  else if negb (isValidAge (f_age f)) then false
  else if negb (isValidPhone (f_phone f)) then false
  else if negb (strcmp_eq (f_gender f) (cs "男") || strcmp_eq (f_gender f) (cs "女"))
       then false
  else if getDurationDays (f_mtype f) =? 0 then false
  else if negb ((f_is_active f =? 0) || (f_is_active f =? 1)) then false
  else if dateToDays (f_join_date f) =? 0 then false
  else true.

Definition node_of_fields (f : Fields) : Node :=
  {| data := {| card_id := f_card_id f; name := f_name f;
                gender := f_gender f; age := f_age f; phone := f_phone f;
                join_date := f_join_date f; membership_type := f_mtype f;
                is_active := f_is_active f |};
     bonus_days := f_bonus_days f |}.

(** The variables of the reading loop. *)
Record LoadAcc : Type := mkLoadAcc {
  l_store : Store;
  l_loaded : Z;
  l_max_id : Z
}.

Inductive loop_ctl : Type := Continue | Break.

(** One turn of the loop on the bytes [fgets] delivered. *)
Definition load_line (buf : list ascii) (a : LoadAcc) : loop_ctl * LoadAcc :=
  match trim_newline (c_str buf) with
  | [] => (Continue, a)
  | line =>
      match split_fields line with
      | None => (Continue, a)
      | Some f =>
          if negb (fields_ok f) then (Continue, a)
          else if member_count (l_store a) >=? MAX_MEMBERS then (Break, a)
          else
            (Continue,
             {| l_store := appendNode (node_of_fields f) (l_store a);
                l_loaded := sint (l_loaded a + 1);
                l_max_id := if f_card_id f >? l_max_id a then f_card_id f
                            else l_max_id a |})
      end
  end.

Definition LINE_MAX : nat := 511.

Arguments fgets : simpl never.

(** [while (fgets(line, sizeof(line), fp)) { ... }] *)
Equations? load_loop (fp : list ascii) (a : LoadAcc) : LoadAcc
  by wf (length fp) lt :=
load_loop [] a := a;
load_loop (c :: r) a with load_line (fst (fgets LINE_MAX (c :: r))) a := {
  | (Break, a') := a';
  | (Continue, a') := load_loop (snd (fgets LINE_MAX (c :: r))) a' }.
Proof.
  (* every successful fgets takes at least one byte off the stream *)
  assert (step : forall k x fp,
             fgets (S k) (x :: fp)
             = if Ascii.eqb x LF then ([x], fp)
               else let '(l, r') := fgets k fp in (x :: l, r'))
    by reflexivity.
  assert (shrink : forall n fp,
             (length (snd (fgets n fp)) <= length fp)%nat).
  { induction n as [|k IH]; intros [|x fp]; try (unfold fgets; cbn; lia).
    rewrite step. destruct (Ascii.eqb x LF); cbn; [lia|].
    specialize (IH fp). destruct (fgets k fp); cbn in *; lia. }
  change LINE_MAX with (S 510). rewrite (step 510%nat c r).
  destruct (Ascii.eqb c LF); cbn; [lia|].
  specialize (shrink 510%nat r). destruct (fgets 510 r); cbn in *; lia.
Qed.



(** [None] for the file is a failed [fopen].  The result is the store after
    the call and the value returned. *)
Definition loadFromFile (current_date_str : cstring) (file : option (list ascii))
                        (st : Store) : Store * Z :=
  match file with
  | None => (st, 0)
  | Some fp =>
      let a := load_loop fp {| l_store := freeAllMembers st;
                               l_loaded := 0; l_max_id := 1000 |} in
      let st1 := {| head := head (l_store a);
                    member_count := member_count (l_store a);
                    next_card_id := sint (l_max_id a + 1) |} in
      (syncAutoExpire current_date_str st1, l_loaded a)
  end.

(* ------------------------------------------------------------------ *)
(** ** Start of the program and the menu *)

Definition demo_member (id : Z) (n g : string) (a : Z) (ph d t : string)
                       (act : Z) : Member :=
  {| card_id := id; name := cs n; gender := cs g; age := a; phone := cs ph;
     join_date := cs d; membership_type := cs t; is_active := act |}.

(** The store part of [initTestData]; the function then saves it. *)
Definition initTestData (current_date_str : cstring) (st : Store) : Store :=
  let st0 := freeAllMembers st in
  let n1 := createNode (demo_member 1001 "张三" "男" 25 "13800138000" "2025-12-01" "年卡" 1) in
  let n2 := createNode (demo_member 1002 "李四" "女" 30 "13912345678" "2024-06-15" "月卡" 0) in
  let n3 := createNode (demo_member 1003 "王五" "男" 45 "13666666666" "2026-01-01" "月卡" 1) in
  let n4 := createNode (demo_member 1004 "赵六" "女" 22 "13777777777" "2025-11-01" "季卡" 1) in
  let st4 := appendNode n4 (appendNode n3 (appendNode n2 (appendNode n1 st0))) in
  syncAutoExpire current_date_str
    {| head := head st4; member_count := member_count st4;
       next_card_id := 1005 |}.

(** The first lines of [main]: load, and fall back on the demo data. *)
Definition startup (load_date init_date : cstring) (file : option (list ascii))
  : Store :=
  let '(st, loaded) := loadFromFile load_date file empty_store in
  if loaded <=? 0 then initTestData init_date st else st.

(** One choice in the menus, with what the operator types and what the
    clock says during the call. *)
Inductive command : Type :=
| CShow (sync_date : cstring)
    (* showAllMembers, searchByCardID, searchByName, showStatistics *)
| CAdd (current_date_str : cstring) (i : AddInput)
| CUpdatePhone (id : Z) (newPhone : cstring)
| CDelete (sync_date : cstring) (id : Z)
| CRenew (sync_date current_date_str : cstring) (id : Z) (c : type_choice)
| CUpdateStatus (id : Z).

Definition run (c : command) (st : Store) : Store :=
  match c with
  | CShow d => syncAutoExpire d st
  | CAdd d i => fst (addMember d i st)
  | CUpdatePhone id ph => fst (updateMemberPhone id ph st)
  | CDelete d id => fst (deleteExpiredMember d id st)
  | CRenew d1 d2 id c => fst (renewMember d1 d2 id c st)
  | CUpdateStatus id => fst (updateMemberStatus id st)
  end.

(** [scanf("%29s", ...)] delivers a non-empty word of at most 29 bytes
    without blanks. *)
Definition scanf_word (w : cstring) : bool :=
  negb (length w =? 0)%nat && (length w <=? 29)%nat
  && forallb (fun c => negb (isspace c) && negb (Ascii.eqb c NUL)) w.

(** What the prompting loops let through. *)
Definition input_ok (c : command) : bool :=
  match c with
  | CAdd _ i =>
      scanf_word (in_name i)
      && (strcmp_eq (in_gender i) (cs "男") || strcmp_eq (in_gender i) (cs "女"))
      && isValidAge (in_age i) && isValidPhone (in_phone i)
  | CUpdatePhone _ ph => isValidPhone ph
  | _ => true
  end.

(** The stores the program can hold: the one [main] starts with, and what
    the menu makes of it. *)
Inductive reachable : Store -> Prop :=
| reach_start : forall load_date init_date file,
    reachable (startup load_date init_date file)
| reach_step : forall c st,
    reachable st -> input_ok c = true -> reachable (run c st).

(* ------------------------------------------------------------------ *)
(** ** The quantities of the specification *)

(** Expire day: join ordinal + plan duration + bonus days, in [Z]. *)
Definition expire_day (p : Node) : Z :=
  dateToDays (join_date (data p))
  + getDurationDays (membership_type (data p)) + bonus_days p.

(** The sums [calcExpireDays] and the comparison with today form stay in
    the range of [long]. *)
Definition expiry_in_range (today : Z) (p : Node) : Prop :=
  long_range (expire_day p) /\ long_range (expire_day p - today).

(** The synchronizer as the specification words it. *)
Definition expire_spec (today : Z) (p : Node) : Node :=
  if (is_active (data p) =? 1) && (expire_day p <? today)
  then set_is_active 0 p else p.

(** The Gregorian rule: divisible by 4, not by 100 unless also by 400. *)
Definition gregorian_leap (y : Z) : bool :=
  ((y mod 4 =? 0) && negb (y mod 100 =? 0)) || (y mod 400 =? 0).

Definition month_length (y m : Z) : Z :=
  if m =? 2 then (if gregorian_leap y then 29 else 28)
  else if (m =? 4) || (m =? 6) || (m =? 9) || (m =? 11) then 30
  else 31.

(** A date of the calendar, from year 1 on. *)
Definition calendar_date (y m d : Z) : Prop :=
  1 <= y /\ 1 <= m <= 12 /\ 1 <= d <= month_length y m.

(** The day after. *)
Definition next_day (t : Z * Z * Z) : Z * Z * Z :=
  let '(y, m, d) := t in
  if d <? month_length y m then (y, m, d + 1)
  else if m <? 12 then (y, m + 1, 1)
  else (y + 1, 1, 1).

(** Calendar order. *)
Definition date_lt (a b : Z * Z * Z) : Prop :=
  let '(y1, m1, d1) := a in
  let '(y2, m2, d2) := b in
  y1 < y2 \/ (y1 = y2 /\ (m1 < m2 \/ (m1 = m2 /\ d1 < d2))).

(** Leap years among the years 1 .. y-1. *)
Definition leaps_before (y : Z) : Z :=
  (y - 1) / 4 - (y - 1) / 100 + (y - 1) / 400.

(** Days of the year [y] before its month [m]. *)
Definition days_before_month (y m : Z) : Z :=
  fold_right Z.add 0
    (map (fun i => month_length y (Z.of_nat i)) (seq 1 (Z.to_nat m - 1))).

(** The ordinal of the specification: whole years, leap days, whole months,
    day of the month. *)
Definition ordinal (t : Z * Z * Z) : Z :=
  let '(y, m, d) := t in
  365 * y + leaps_before y + days_before_month y m + d.

(** The ordinal of the day before January 1st. *)
Definition year_start (y : Z) : Z := 365 * y + leaps_before y.

Definition calendar_triple (t : Z * Z * Z) : Prop :=
  let '(y, m, d) := t in calendar_date y m d.

(** Month and day as [dateToDays] checks them, whatever the year. *)
Definition month_day_ok (y m d : Z) : Prop :=
  1 <= m <= 12 /\ 1 <= d <= daysInMonth y m.

(** The largest card number of a list, not below 1000. *)
Definition max_card_id (l : list Node) : Z :=
  fold_right Z.max 1000 (map (fun p => card_id (data p)) l).

(** Text that a field of the data file can carry. *)
Definition field_char (c : ascii) : bool :=
  negb (Ascii.eqb c bar || Ascii.eqb c CR || Ascii.eqb c LF || Ascii.eqb c NUL).

Definition is_field (t : cstring) : Prop :=
  Forall (fun c => field_char c = true) t.

(** No carriage return, line feed or NUL. *)
Definition in_line (t : list ascii) : Prop :=
  Forall (fun c => Ascii.eqb c CR = false /\ Ascii.eqb c LF = false
                   /\ Ascii.eqb c NUL = false) t.

(** A record that meets the constraints of the file format. *)
Definition storable (p : Node) : bool :=
  let m := data p in
  (0 <? card_id m) && (card_id m <=? INT_MAX)
  && negb (length (name m) =? 0)%nat && (length (name m) <=? 29)%nat
  && forallb field_char (name m)
  && (strcmp_eq (gender m) (cs "男") || strcmp_eq (gender m) (cs "女"))
  && isValidAge (age m)
  && isValidPhone (phone m)
  && (length (join_date m) <=? 11)%nat && forallb field_char (join_date m)
  && negb (dateToDays (join_date m) =? 0)
  && negb (getDurationDays (membership_type m) =? 0)
  && ((is_active m =? 0) || (is_active m =? 1))
  && (- LONG_MAX - 1 <=? bonus_days p) && (bonus_days p <=? LONG_MAX).

(** [q], after an operation, is the record [p] from before it with the
    same plan, and is not brought back to life. *)
Definition carried_over (p q : Node) : Prop :=
  card_id (data q) = card_id (data p)
  /\ membership_type (data q) = membership_type (data p)
  /\ (is_active (data p) = 0 -> is_active (data q) = 0).

(** The record that the first branch of the renewal writes. *)
Definition restarted (current_date_str : cstring) (c : type_choice) (p : Node)
  : Node :=
  {| data := {| card_id := card_id (data p); name := name (data p);
                gender := gender (data p); age := age (data p);
                phone := phone (data p); join_date := current_date_str;
                membership_type := newType c; is_active := 1 |};
     bonus_days := 0 |}.

(** The record that an insertion creates. *)
Definition added (current_date_str : cstring) (i : AddInput) (st : Store)
  : Node :=
  {| data := {| card_id := next_card_id st; name := in_name i;
                gender := in_gender i; age := in_age i; phone := in_phone i;
                join_date := current_date_str;
                membership_type := newType (in_type i); is_active := 1 |};
     bonus_days := 0 |}.

(** Record by record, in their places, the second list carries over the
    first: no plan has changed and no record is brought back to life. *)
Definition same_plans (l l' : list Node) : Prop := Forall2 carried_over l l'.

(** The four records that [initTestData] declares. *)
Definition demo_records : list Node :=
  [ {| data := {| card_id := 1001; name := cs "张三"; gender := cs "男";
                  age := 25; phone := cs "13800138000";
                  join_date := cs "2025-12-01";
                  membership_type := cs "年卡"; is_active := 1 |};
       bonus_days := 0 |};
    {| data := {| card_id := 1002; name := cs "李四"; gender := cs "女";
                  age := 30; phone := cs "13912345678";
                  join_date := cs "2024-06-15";
                  membership_type := cs "月卡"; is_active := 0 |};
       bonus_days := 0 |};
    {| data := {| card_id := 1003; name := cs "王五"; gender := cs "男";
                  age := 45; phone := cs "13666666666";
                  join_date := cs "2026-01-01";
                  membership_type := cs "月卡"; is_active := 1 |};
       bonus_days := 0 |};
    {| data := {| card_id := 1004; name := cs "赵六"; gender := cs "女";
                  age := 22; phone := cs "13777777777";
                  join_date := cs "2025-11-01";
                  membership_type := cs "季卡"; is_active := 1 |};
       bonus_days := 0 |} ].

(** A line that fails one of the per-field checks, in the words of the
    file format. *)
Definition rejected_fields (f : Fields) : Prop :=
  f_card_id f <= 0
  \/ f_age f < 18 \/ 80 < f_age f
  \/ ~ (length (f_phone f) = 11%nat /\ Forall (fun c => isdigit c = true) (f_phone f))
  \/ (f_gender f <> cs "男" /\ f_gender f <> cs "女")
  \/ (f_mtype f <> cs "月卡" /\ f_mtype f <> cs "季卡" /\ f_mtype f <> cs "年卡")
  \/ (f_is_active f <> 0 /\ f_is_active f <> 1)
  \/ dateToDays (f_join_date f) = 0.

(** The text of a line as the loop sees it. *)
Definition line_text (buf : list ascii) : cstring := trim_newline (c_str buf).

(** The variables of the loop as [loadFromFile] sets them. *)
Definition load_start (st : Store) : LoadAcc :=
  {| l_store := freeAllMembers st; l_loaded := 0; l_max_id := 1000 |}.

(** What the loop keeps true of its variables. *)
Definition load_inv (a : LoadAcc) : Prop :=
  l_loaded a = Z.of_nat (length (head (l_store a)))
  /\ member_count (l_store a) = Z.of_nat (length (head (l_store a)))
  /\ (length (head (l_store a)) <= 100)%nat
  /\ l_max_id a = max_card_id (head (l_store a)).

(** The count is the length of the list, and the list is within capacity. *)
Definition store_inv (st : Store) : Prop :=
  member_count st = Z.of_nat (length (head st))
  /\ (length (head st) <= 100)%nat.

(** A date as the clock gives it: it fits the buffer, is plain text and
    is accepted by [dateToDays]. *)
Definition clock_ok (d : cstring) : bool :=
  (length d <=? 11)%nat && forallb field_char d && negb (dateToDays d =? 0).

(** The command keeps to the file format: the clock is sound, the name
    typed for a new member holds no delimiter, and the card counter is
    within [int]. *)
Definition clean_command (c : command) (st : Store) : bool :=
  match c with
  | CAdd d i =>
      clock_ok d && forallb field_char (in_name i)
      && (0 <? next_card_id st) && (next_card_id st <=? INT_MAX)
  | CRenew _ d _ _ => clock_ok d
  | _ => true
  end.

(** The stores reached through such commands. *)
Inductive reachable_clean : Store -> Prop :=
| clean_start : forall load_date init_date file,
    reachable_clean (startup load_date init_date file)
| clean_step : forall c st,
    reachable_clean st -> input_ok c = true -> clean_command c st = true ->
    reachable_clean (run c st).

(* ------------------------------------------------------------------ *)
(** ** Sample data *)

Definition scenario1_node : Node :=
  createNode (demo_member 1001 "Li" "男" 25 "13800138000" "2025-01-01" "月卡" 1).

Definition scenario1_store : Store := appendNode scenario1_node empty_store.

Definition scenario2_node : Node :=
  createNode (demo_member 1002 "Wu" "女" 31 "13912345678" "2025-01-10" "季卡" 1).

Definition scenario2_store : Store := appendNode scenario2_node scenario1_store.

Definition scenario4_node : Node :=
  createNode (demo_member 1001 "Li" "男" 25 "13800138000" "2025-01-01" "月卡" 0).

Definition scenario4_store : Store := appendNode scenario4_node empty_store.

(** A member joins on 2024-01-01 with a monthly card; the program is left
    running. *)
Definition lapsed_input : AddInput :=
  {| in_name := cs "Li"; in_gender := cs "男"; in_age := 25;
     in_phone := cs "13800138000"; in_type := Monthly |}.

Definition lapsed_store : Store :=
  run (CAdd (cs "2024-01-01") lapsed_input)
      (startup (cs "2024-01-01") (cs "2024-01-01") None).

Definition lapsed_node : Node :=
  createNode (demo_member 1005 "Li" "男" 25 "13800138000" "2024-01-01" "月卡" 1).

(** A directory that holds an earlier data file. *)
Definition old_disk : FileSystem :=
  fs_put DATA_FILE (fmt_node scenario4_node) (fun _ => None).

(** The host lets everything succeed but the rename. *)
Definition rename_fails : SaveEnv :=
  {| fopen_ok := true; remove_dest_ok := true; rename_ok := false;
     remove_temp_ok := true |}.

Definition all_ok : SaveEnv :=
  {| fopen_ok := true; remove_dest_ok := true; rename_ok := true;
     remove_temp_ok := true |}.

(** A data file with one record, numbered 5. *)
Definition low_id_file : list ascii :=
  cs "5|Li|男|20|13800138000|2025-01-01|月卡|1|0".

(** A data file with an under-age record between two good ones. *)
Definition under_age_file : list ascii :=
  fmt_node scenario1_node
  ++ cs "1003|Zhao|男|15|13666666666|2025-01-05|月卡|1|0" ++ [LF]
  ++ fmt_node scenario2_node.

(** A store that is full. *)
Definition full_store : Store :=
  {| head := repeat scenario1_node 100; member_count := 100;
     next_card_id := 1101 |}.

(** The operator types a name with the delimiter in it. *)
Definition barred_input : AddInput :=
  {| in_name := cs "a|b"; in_gender := cs "女"; in_age := 40;
     in_phone := cs "13555555555"; in_type := Monthly |}.

Definition barred_store : Store :=
  run (CAdd (cs "2025-12-15") barred_input)
      (startup (cs "2025-12-15") (cs "2025-12-15") None).

Definition empty_disk : FileSystem := fun _ => None.

(** The program started without a data file on 2025-12-15. *)
Definition demo_store : Store :=
  startup (cs "2025-12-15") (cs "2025-12-15") None.

(** The demo data and one more member. *)
Definition clean_store : Store :=
  run (CAdd (cs "2025-12-15") lapsed_input)
      (startup (cs "2025-12-15") (cs "2025-12-15") None).

(* ------------------------------------------------------------------ *)
(** ** The clock, the listings and the statistics *)

(** The fields of [struct tm] that [getSystemDate] reads. *)
Record tm : Type := mkTm {
  tm_year : Z;
  tm_mon : Z;
  tm_mday : Z
}.

(** [%0Nd] of [sprintf]: the sign, then zeros up to [width] bytes, then the
    digits. *)
Definition fmt_0d (width : nat) (v : Z) : cstring :=
  if v <? 0 then
    "-"%char :: repeat "0"%char (width - 1 - length (dec_digits 20 (- v)))
    ++ dec_digits 20 (- v)
  else repeat "0"%char (width - length (dec_digits 20 v)) ++ dec_digits 20 v.

(** [sprintf(buffer, "%04d-%02d-%02d", tm_year + 1900, tm_mon + 1, tm_mday)]
    on the value [localtime] gives. *)
Definition getSystemDate (t : tm) : cstring :=
  fmt_0d 4 (sint (tm_year t + 1900)) ++ "-"%char ::
  fmt_0d 2 (sint (tm_mon t + 1)) ++ "-"%char :: fmt_0d 2 (tm_mday t).

(** [calcExpireDays(p) - current_days], the days left that the listings
    print. *)
Definition days_left (current_days : Z) (p : Node) : Z :=
  slong (calcExpireDays p - current_days).

(** The last column of a row: the days left of an active member, and
    ["---"] ([None]) for the others. *)
Definition remain_column (current_days : Z) (p : Node) : option Z :=
  if is_active (data p) =? 1 then Some (days_left current_days p) else None.

(** What [showAllMembers] lists: nothing for an empty store, otherwise a
    row for each record, in order.  The layout of the row is left out. *)
Definition showAllMembers (sync_date current_date_str : cstring) (st : Store)
  : Store * list (Node * option Z) :=
  let st1 := syncAutoExpire sync_date st in
  if member_count st1 =? 0 then (st1, [])
  else
    let current_days := dateToDays current_date_str in
    (st1, map (fun p => (p, remain_column current_days p)) (head st1)).

(** What [searchByCardID] shows: the record found and its days left. *)
Definition searchByCardID (sync_date current_date_str : cstring) (id : Z)
                          (st : Store) : Store * option (Node * option Z) :=
  let st1 := syncAutoExpire sync_date st in
  match findByCardID st1 id with
  | None => (st1, None)
  | Some p => (st1, Some (p, remain_column (dateToDays current_date_str) p))
  end.

(** [k] starts [s]. *)
Fixpoint starts_with (k s : cstring) : bool :=
  match k, s with
  | [], _ => true
  | x :: k', y :: s' => Ascii.eqb x y && starts_with k' s'
  | _ :: _, [] => false
  end.

(** [strstr(s, k) != NULL] *)
Fixpoint strstr_found (s k : cstring) : bool :=
  starts_with k s
  || match s with
     | [] => false
     | _ :: s' => strstr_found s' k
     end.

(** What [searchByName] lists, and its [found] flag. *)
Definition searchByName (sync_date : cstring) (key : cstring) (st : Store)
  : Store * list Node * bool :=
  let st1 := syncAutoExpire sync_date st in
  let rows := filter (fun p => strstr_found (name (data p)) key) (head st1) in
  (st1, rows, match rows with [] => false | _ => true end).

(** The counters of [showStatistics]. *)
Record Stats : Type := mkStats {
  active_count : Z;
  type_month : Z;
  type_season : Z;
  type_year : Z;
  warnings : list (Node * Z);
  warning_count : Z
}.

(** The first loop of [showStatistics]. *)
Definition count_types (l : list Node) : Z * Z * Z * Z :=
  fold_left
    (fun '(a, m, s, y) p =>
       if is_active (data p) =? 1 then
         let a' := sint (a + 1) in
         if strcmp_eq (membership_type (data p)) (cs "月卡") then (a', sint (m + 1), s, y)
         else if strcmp_eq (membership_type (data p)) (cs "季卡") then (a', m, sint (s + 1), y)
         else if strcmp_eq (membership_type (data p)) (cs "年卡") then (a', m, s, sint (y + 1))
         else (a', m, s, y)
       else (a, m, s, y))
    l (0, 0, 0, 0).

(** The second loop: the active members with 0 to 30 days left. *)
Definition expiring_soon (current_days : Z) (l : list Node) : list (Node * Z) :=
  fold_left
    (fun w p =>
       if is_active (data p) =? 1 then
         let d := days_left current_days p in
         if (d >=? 0) && (d <=? 30) then w ++ [(p, d)] else w
       else w)
    l [].

Definition showStatistics (sync_date current_date_str : cstring) (st : Store)
  : Store * option Stats :=
  let st1 := syncAutoExpire sync_date st in
  if member_count st1 =? 0 then (st1, None)
  else
    let current_days := dateToDays current_date_str in
    let '(a, m, s, y) := count_types (head st1) in
    let w := expiring_soon current_days (head st1) in
    (st1, Some {| active_count := a; type_month := m; type_season := s;
                  type_year := y; warnings := w;
                  warning_count :=
                    fold_left (fun n _ => sint (n + 1)) w 0 |}).

(** The card numbers are distinct and below the counter. *)
Definition ids_fresh (st : Store) : Prop :=
  NoDup (map (fun p => card_id (data p)) (head st))
  /\ Forall (fun id => id < next_card_id st)
            (map (fun p => card_id (data p)) (head st)).

(** An insertion does not push the counter over [INT_MAX]. *)
Definition counter_safe (c : command) (st : Store) : Prop :=
  match c with
  | CAdd _ _ => - INT_MAX - 1 <= next_card_id st < INT_MAX
  | _ => True
  end.

Definition ids (l : list Node) : list Z := map (fun p => card_id (data p)) l.

(** [k] occurs in [s]. *)
Definition occurs_in (k s : cstring) : Prop :=
  exists pre post, s = pre ++ k ++ post.

(** The data file with each line ended by carriage return and line feed,
    as an editor on Windows leaves it. *)
Definition crlf_image (st : Store) : list ascii :=
  concat (map (fun p => fmt_line p ++ [CR; LF]) (head st)).

(** The store after a restart on a file of two good records. *)
Definition restart_store : Store :=
  fst (loadFromFile (cs "2025-01-15") (Some under_age_file) empty_store).

(** Small enough for the sums of the program to stay within [long]. *)
Definition small (z : Z) : Prop := Z.abs z <= 2 ^ 60.

(** An active member of the type [t]. *)
Definition active_of_type (t : cstring) (p : Node) : bool :=
  (is_active (data p) =? 1) && strcmp_eq (membership_type (data p)) t.

(** How many records of [l] pass [f]. *)
Definition count_if (f : Node -> bool) (l : list Node) : Z :=
  Z.of_nat (length (filter f l)).

(* ------------------------------------------------------------------ *)
(** ** Aligned output of UTF-8 text *)

Definition uint32 (z : Z) : Z := z mod 2 ^ 32.

(** [utf8_decode(s, &bytes)]: the code point and the number of bytes.  [s]
    is the memory from the pointer on; [None] when a byte that the function
    reads lies outside of it. *)
Definition utf8_decode (s : list ascii) : option (Z * Z) :=
  match s with
  | [] => None
  | c0 :: r =>
      let c := code c0 in
      if c <? 0x80 then Some (c, 1)
      else if Z.land c 0xE0 =? 0xC0 then
        match r with
        | c1 :: _ =>
            Some (Z.lor (uint32 (Z.shiftl (uint32 (Z.land c 0x1F)) 6))
                        (uint32 (Z.land (code c1) 0x3F)), 2)
        | _ => None
        end
      else if Z.land c 0xF0 =? 0xE0 then
        match r with
        | c1 :: c2 :: _ =>
            Some (Z.lor (Z.lor (uint32 (Z.shiftl (uint32 (Z.land c 0x0F)) 12))
                               (uint32 (Z.shiftl (uint32 (Z.land (code c1) 0x3F)) 6)))
                        (uint32 (Z.land (code c2) 0x3F)), 3)
        | _ => None
        end
      else if Z.land c 0xF8 =? 0xF0 then
        match r with
        | c1 :: c2 :: c3 :: _ =>
            Some (Z.lor (Z.lor (Z.lor
                    (uint32 (Z.shiftl (uint32 (Z.land c 0x07)) 18))
                    (uint32 (Z.shiftl (uint32 (Z.land (code c1) 0x3F)) 12)))
                    (uint32 (Z.shiftl (uint32 (Z.land (code c2) 0x3F)) 6)))
                    (uint32 (Z.land (code c3) 0x3F)), 4)
        | _ => None
        end
      else Some (c, 1)
  end.

Definition is_cjk_wide (u : Z) : bool :=
  ((u >=? 0x1100) && (u <=? 0x115F))
  || ((u >=? 0x2E80) && (u <=? 0xA4CF))
  || ((u >=? 0xAC00) && (u <=? 0xD7A3))
  || ((u >=? 0xF900) && (u <=? 0xFAFF))
  || ((u >=? 0xFE10) && (u <=? 0xFE19))
  || ((u >=? 0xFE30) && (u <=? 0xFE6F))
  || ((u >=? 0xFF00) && (u <=? 0xFF60))
  || ((u >=? 0xFFE0) && (u <=? 0xFFE6))
  || ((u >=? 0x20000) && (u <=? 0x3FFFD)).

Definition char_width (u : Z) : Z :=
  if u =? 0 then 0 else if is_cjk_wide u then 2 else 1.

(** [fwrite(str + i, 1, b, stdout)]: the [b] bytes from the pointer on. *)
Definition fwrite_bytes (b : nat) (mem : list ascii) : option (list ascii) :=
  if (b <=? length mem)%nat then Some (firstn b mem) else None.

(** The first loop of [printWithPad], from [str + i] on: the bytes written
    and the final value of [used].  [None] when the loop reads outside of
    the memory given. *)
Equations? pad_loop (mem : list ascii) (used target_width : Z)
  : option (list ascii * Z) by wf (length mem) lt :=
pad_loop [] used target_width := None;
pad_loop (c :: r) used target_width :=
  if Ascii.eqb c NUL then Some ([], used)
  else
    match utf8_decode (c :: r) with
    | None => None
    | Some (u, b0) =>
        let b := if b0 <=? 0 then 1 else b0 in
        let cw := char_width u in
        if sint (used + cw) >? target_width then Some ([], used)
        else
          match fwrite_bytes (Z.to_nat b) (c :: r) with
          | None => None
          | Some bytes =>
              match pad_loop (skipn (Z.to_nat b) (c :: r))
                             (sint (used + cw)) target_width with
              | None => None
              | Some (out, used') => Some (bytes ++ out, used')
              end
          end
    end.
Proof.
  (* [b] is at least 1: the index moves on *)
  rewrite length_skipn. cbn [length]. destruct (b0 <=? 0) eqn:E; lia.
Qed.

(** [for (int k = used; k < target_width; k++) putchar(' ');] *)
Definition pad_spaces (used target_width : Z) : list ascii :=
  repeat " "%char (Z.to_nat (target_width - used)).

Definition printWithPad (mem : list ascii) (target_width : Z)
  : option (list ascii) :=
  match pad_loop mem 0 target_width with
  | None => None
  | Some (out, used) => Some (out ++ pad_spaces used target_width)
  end.

(** The bytes of one character: none is the terminator, and the decoder
    takes exactly these bytes. *)
Definition utf8_char (ch : cstring) : bool :=
  forallb (fun c => negb (Ascii.eqb c NUL)) ch
  && match utf8_decode ch with
     | Some (_, b) => b =? Z.of_nat (length ch)
     | None => false
     end.

(** The columns that a character takes on the screen. *)
Definition width_of (ch : cstring) : Z :=
  match utf8_decode ch with
  | Some (u, _) => char_width u
  | None => 0
  end.

Definition text_width (chars : list cstring) : Z :=
  fold_right Z.add 0 (map width_of chars).

(* ================================================================== *)
(** * Properties *)

(* ------------------------------------------------------------------ *)
(** ** Machine arithmetic *)

Lemma slong_id z : long_range z -> slong z = z.
Proof.
  unfold long_range, LONG_MAX, slong, wrap. intros H.
  change (2 ^ (64 - 1)) with 9223372036854775808.
  change (2 ^ 64) with 18446744073709551616.
  rewrite Z.mod_small; lia.
Qed.

Lemma sint_id z : int_range z -> sint z = z.
Proof.
  unfold int_range, INT_MAX, sint, wrap. intros H.
  change (2 ^ (32 - 1)) with 2147483648.
  change (2 ^ 32) with 4294967296.
  rewrite Z.mod_small; lia.
Qed.

Lemma sint_range z : int_range (sint z).
Proof.
  unfold int_range, INT_MAX, sint, wrap.
  change (2 ^ (32 - 1)) with 2147483648.
  change (2 ^ 32) with 4294967296.
  pose proof (Z.mod_pos_bound (z + 2147483648) 4294967296 eq_refl). lia.
Qed.

Lemma slong_range z : long_range (slong z).
Proof.
  unfold long_range, LONG_MAX, slong, wrap.
  change (2 ^ (64 - 1)) with 9223372036854775808.
  change (2 ^ 64) with 18446744073709551616.
  pose proof (Z.mod_pos_bound (z + 9223372036854775808)
                              18446744073709551616 eq_refl). lia.
Qed.

Lemma slong_add_l a b : slong (slong a + b) = slong (a + b).
Proof.
  unfold slong, wrap.
  change (2 ^ (64 - 1)) with 9223372036854775808.
  change (2 ^ 64) with 18446744073709551616.
  f_equal.
  replace ((a + 9223372036854775808) mod 18446744073709551616
           - 9223372036854775808 + b + 9223372036854775808)
    with ((a + 9223372036854775808) mod 18446744073709551616 + b) by lia.
  rewrite Zplus_mod_idemp_l. f_equal. lia.
Qed.

(* ------------------------------------------------------------------ *)
(** ** Expiration synchronizer *)

Lemma calcExpireDays_exact p :
  long_range (expire_day p) -> calcExpireDays p = expire_day p.
Proof.
  intros H. unfold calcExpireDays. rewrite slong_add_l. now apply slong_id.
Qed.

Lemma expire_node_spec today p :
  expiry_in_range today p -> expire_node today p = expire_spec today p.
Proof.
  intros [H1 H2]. unfold expire_node, expire_spec.
  rewrite (calcExpireDays_exact p H1), (slong_id _ H2).
  destruct (is_active (data p) =? 1); cbn [andb]; [|reflexivity].
  destruct (Z.ltb_spec (expire_day p - today) 0),
           (Z.ltb_spec (expire_day p) today); try reflexivity; lia.
Qed.

Lemma expire_node_idem today p :
  expire_node today (expire_node today p) = expire_node today p.
Proof.
  destruct (is_active (data p) =? 1) eqn:Ha;
    [destruct (slong (calcExpireDays p - today) <? 0) eqn:Hb|].
  - assert (E : expire_node today p = set_is_active 0 p)
      by (unfold expire_node; now rewrite Ha, Hb).
    rewrite E. reflexivity.
  - assert (E : expire_node today p = p)
      by (unfold expire_node; now rewrite Ha, Hb).
    now rewrite !E.
  - assert (E : expire_node today p = p)
      by (unfold expire_node; now rewrite Ha).
    now rewrite !E.
Qed.

Lemma syncAutoExpire_head d st :
  head (syncAutoExpire d st) = map (expire_node (dateToDays d)) (head st).
Proof.
  unfold syncAutoExpire. destruct (head st) eqn:E; [now rewrite E|reflexivity].
Qed.

Lemma syncAutoExpire_counters d st :
  member_count (syncAutoExpire d st) = member_count st
  /\ next_card_id (syncAutoExpire d st) = next_card_id st.
Proof.
  unfold syncAutoExpire. destruct (head st); split; reflexivity.
Qed.

Lemma store_ext (a b : Store) :
  head a = head b -> member_count a = member_count b ->
  next_card_id a = next_card_id b -> a = b.
Proof. destruct a, b; cbn; intros; subst; reflexivity. Qed.

Lemma syncAutoExpire_idem d st :
  syncAutoExpire d (syncAutoExpire d st) = syncAutoExpire d st.
Proof.
  apply store_ext.
  - rewrite !syncAutoExpire_head, map_map.
    apply map_ext. intros p. apply expire_node_idem.
  - now rewrite !(proj1 (syncAutoExpire_counters _ _)).
  - now rewrite !(proj2 (syncAutoExpire_counters _ _)).
Qed.

(** C2. With [today] the ordinal of the date the clock gives, one pass of
    the synchronizer turns into inactive exactly the records that are active
    and whose expire day is strictly before [today], and changes nothing
    else: a record that expires today stays active, an inactive record is
    untouched, the other fields and the counters are kept.  A second pass on
    the same date changes no record. *)
Theorem sync_pass_exact (current_date_str : cstring) (st : Store) :
  Forall (expiry_in_range (dateToDays current_date_str)) (head st) ->
  let today := dateToDays current_date_str in
  let st' := syncAutoExpire current_date_str st in
  head st' = map (expire_spec today) (head st)
  /\ (forall p, expire_spec today p = set_is_active 0 p \/ expire_spec today p = p)
  /\ (forall p, is_active (data p) = 1 -> expire_day p = today ->
                expire_spec today p = p)
  /\ (forall p, is_active (data p) <> 1 -> expire_spec today p = p)
  /\ (forall p, is_active (data p) = 1 -> expire_day p < today ->
                is_active (data (expire_spec today p)) = 0)
  /\ member_count st' = member_count st
  /\ next_card_id st' = next_card_id st
  /\ syncAutoExpire current_date_str st' = st'.
Proof.
  intros Hr today st'. subst st'.
  repeat split.
  - rewrite syncAutoExpire_head. apply map_ext_in. intros p Hp.
    apply expire_node_spec. rewrite Forall_forall in Hr. now apply Hr.
  - intros p. unfold expire_spec.
    destruct ((is_active (data p) =? 1) && (expire_day p <? today)); auto.
  - intros p Ha He. unfold expire_spec.
    rewrite He, Z.ltb_irrefl, andb_false_r. reflexivity.
  - intros p Ha. unfold expire_spec.
    destruct (Z.eqb_spec (is_active (data p)) 1); [contradiction|reflexivity].
  - intros p Ha He. unfold expire_spec.
    rewrite Ha. cbn [Z.eqb Pos.eqb andb].
    destruct (Z.ltb_spec (expire_day p) today); [reflexivity|lia].
  - apply syncAutoExpire_counters.
  - apply syncAutoExpire_counters.
  - apply syncAutoExpire_idem.
Qed.

Example scenario1_last_day :
  map (fun p => is_active (data p))
      (head (syncAutoExpire (cs "2025-01-31") scenario1_store)) = [1].
Proof. vm_compute. reflexivity. Qed.

Example scenario1_day_after :
  map (fun p => is_active (data p))
      (head (syncAutoExpire (cs "2025-02-01") scenario1_store)) = [0].
Proof. vm_compute. reflexivity. Qed.

Lemma sync_pass_exact_witness :
  head (syncAutoExpire (cs "2025-02-01") scenario1_store)
  = map (expire_spec (dateToDays (cs "2025-02-01"))) (head scenario1_store).
Proof.
  refine (proj1 (sync_pass_exact (cs "2025-02-01") scenario1_store _)).
  repeat constructor; vm_compute; discriminate.
Defined.

(* ------------------------------------------------------------------ *)
(** ** Lookup and in-place update *)

Lemma strcmp_eq_iff a b : strcmp_eq a b = true <-> a = b.
Proof.
  revert b; induction a as [|x a IH]; intros [|y b]; cbn; split;
    try congruence; try discriminate.
  - rewrite andb_true_iff, Ascii.eqb_eq, IH. intros [-> ->]. reflexivity.
  - intros E. injection E as -> ->.
    rewrite andb_true_iff, Ascii.eqb_eq, IH. auto.
Qed.

Lemma node_eta p : {| data := data p; bonus_days := bonus_days p |} = p.
Proof. destruct p. reflexivity. Qed.

Lemma set_is_active_same v p : is_active (data p) = v -> set_is_active v p = p.
Proof. destruct p as [[] ?]. cbn. intros ->. reflexivity. Qed.

Lemma set_head_same st : set_head (head st) st = st.
Proof. destruct st. reflexivity. Qed.

(** The node a search returns splits the list, and the in-place update and
    the unlinking act at that place only. *)
Lemma find_first_split id l p :
  find (has_id id) l = Some p ->
  exists l1 l2,
    l = l1 ++ p :: l2
    /\ Forall (fun q => card_id (data q) <> id) l1
    /\ card_id (data p) = id
    /\ (forall f, update_first id f l = l1 ++ f p :: l2)
    /\ unlink_first id l = l1 ++ l2.
Proof.
  induction l as [|q l IH]; cbn; [discriminate|].
  destruct (has_id id q) eqn:E.
  - intros [= ->]. exists [], l. repeat split; cbn; auto.
    unfold has_id in E. now apply Z.eqb_eq.
  - intros H. destruct (IH H) as (l1 & l2 & -> & Hl1 & Hid & Hu & Hd).
    exists (q :: l1), l2. repeat split; cbn; auto.
    + constructor; [|assumption]. unfold has_id in E. now apply Z.eqb_neq.
    + intros f. now rewrite Hu.
    + now rewrite Hd.
Qed.

Lemma update_first_same id l p :
  find (has_id id) l = Some p -> update_first id (fun _ => p) l = l.
Proof.
  intros H. destruct (find_first_split id l p H) as (l1 & l2 & -> & _ & _ & Hu & _).
  apply Hu.
Qed.

Lemma find_none_update id f l :
  find (has_id id) l = None -> update_first id f l = l /\ unlink_first id l = l.
Proof.
  induction l as [|q l IH]; cbn; [auto|].
  destruct (has_id id q); [discriminate|].
  intros H. destruct (IH H) as [-> ->]. auto.
Qed.

Lemma expire_node_card_id t p : card_id (data (expire_node t p)) = card_id (data p).
Proof.
  unfold expire_node.
  destruct (is_active (data p) =? 1); [|reflexivity].
  destruct (slong (calcExpireDays p - t) <? 0); reflexivity.
Qed.

Lemma find_map_expire id t l :
  find (has_id id) (map (expire_node t) l)
  = option_map (expire_node t) (find (has_id id) l).
Proof.
  induction l as [|q l IH]; cbn [map find option_map]; [reflexivity|].
  assert (E : has_id id (expire_node t q) = has_id id q)
    by (unfold has_id; now rewrite expire_node_card_id).
  rewrite E. destruct (has_id id q); [reflexivity|exact IH].
Qed.

Lemma findByCardID_sync d st id :
  findByCardID (syncAutoExpire d st) id
  = option_map (expire_node (dateToDays d)) (findByCardID st id).
Proof.
  unfold findByCardID. rewrite syncAutoExpire_head. apply find_map_expire.
Qed.

(* ------------------------------------------------------------------ *)
(** ** Renewal *)

Lemma unlink_map_expire id t l :
  unlink_first id (map (expire_node t) l)
  = map (expire_node t) (unlink_first id l).
Proof.
  induction l as [|x l IH]; cbn [map unlink_first]; [reflexivity|].
  assert (E : has_id id (expire_node t x) = has_id id x)
    by (unfold has_id; now rewrite expire_node_card_id).
  rewrite E. destruct (has_id id x); [reflexivity|]. cbn [map]. now rewrite IH.
Qed.

Lemma update_first_split id f l1 x l2 :
  Forall (fun q => card_id (data q) <> id) l1 ->
  card_id (data x) = id ->
  update_first id f (l1 ++ x :: l2) = l1 ++ f x :: l2.
Proof.
  intros Hl Hx. induction l1 as [|q l1 IH]; cbn [app update_first].
  - unfold has_id. now rewrite Hx, Z.eqb_refl.
  - apply Forall_cons_iff in Hl. destruct Hl as [Hq Hl].
    unfold has_id at 1. rewrite (proj2 (Z.eqb_neq _ _) Hq). now rewrite IH.
Qed.

Lemma set_head_sync l d st : set_head l (syncAutoExpire d st) = set_head l st.
Proof.
  unfold set_head.
  now rewrite (proj1 (syncAutoExpire_counters d st)),
              (proj2 (syncAutoExpire_counters d st)).
Qed.

(** The record that a search finds, across the pass of the synchronizer. *)
Lemma sync_found_split d st id p :
  findByCardID st id = Some p ->
  exists l1 l2,
    head st = l1 ++ p :: l2
    /\ head (syncAutoExpire d st)
       = map (expire_node (dateToDays d)) l1
         ++ expire_node (dateToDays d) p
         :: map (expire_node (dateToDays d)) l2
    /\ findByCardID (syncAutoExpire d st) id
       = Some (expire_node (dateToDays d) p)
    /\ (forall f,
          update_first id f (head (syncAutoExpire d st))
          = map (expire_node (dateToDays d)) l1
            ++ f (expire_node (dateToDays d) p)
            :: map (expire_node (dateToDays d)) l2)
    /\ unlink_first id (head (syncAutoExpire d st))
       = map (expire_node (dateToDays d)) l1
         ++ map (expire_node (dateToDays d)) l2.
Proof.
  intros Hf.
  destruct (find_first_split id (head st) p Hf)
    as (l1 & l2 & Hsplit & Hne & Hid & _ & Hd).
  exists l1, l2. rewrite syncAutoExpire_head.
  split; [exact Hsplit|]. split; [now rewrite Hsplit, map_app|].
  split; [now rewrite findByCardID_sync, Hf|]. split.
  - intros f. rewrite Hsplit, map_app. cbn [map]. apply update_first_split.
    + rewrite Forall_map. eapply Forall_impl; [|exact Hne].
      intros q Hq. now rewrite expire_node_card_id.
    + now rewrite expire_node_card_id.
  - now rewrite unlink_map_expire, Hd, map_app.
Qed.

Lemma calcExpireDays_expire t p :
  calcExpireDays (expire_node t p) = calcExpireDays p.
Proof.
  unfold expire_node. destruct (is_active (data p) =? 1); [|reflexivity].
  destruct (slong (calcExpireDays p - t) <? 0); reflexivity.
Qed.

Lemma newDuration_duration c : getDurationDays (newType c) = newDuration c.
Proof. destruct c; vm_compute; reflexivity. Qed.

(** The demo store on 2026-02-15: card 1001, a yearly card, is active and
    has not run out, and its renewal as a monthly card is rejected; yet the
    store is not as it was, for the pass of the synchronizer that opens
    [renewMember] has cleared the flags of the cards 1003 and 1004, which
    have run out. *)
Lemma renew_rejected_sync_counterexample :
  reachable demo_store
  /\ (exists p, findByCardID demo_store 1001 = Some p
                /\ is_active (data p) = 1
                /\ dateToDays (cs "2026-02-15") <= expire_day p
                /\ newType Monthly <> membership_type (data p))
  /\ snd (renewMember (cs "2026-02-15") (cs "2026-02-15") 1001 Monthly
                      demo_store) = RenewRejected
  /\ map (fun p => (card_id (data p), is_active (data p))) (head demo_store)
     = [(1001, 1); (1002, 0); (1003, 1); (1004, 1)]
  /\ map (fun p => (card_id (data p), is_active (data p)))
         (head (fst (renewMember (cs "2026-02-15") (cs "2026-02-15") 1001
                                 Monthly demo_store)))
     = [(1001, 1); (1002, 0); (1003, 0); (1004, 0)].
Proof.
  split; [apply reach_start|].
  split; [|vm_compute; repeat split; reflexivity].
  eexists. split; [vm_compute; reflexivity|].
  split; [reflexivity|]. split; vm_compute; discriminate.
Qed.

(** C3 (amended). [renewMember] first runs the synchronizer; call [st1] the
    store it leaves.  A record that is active and whose expire day is
    today or later is left as it is by that pass.  A renewal of the same
    type then adds exactly the duration of that type to its bonus days and
    leaves the record otherwise as it was; a renewal of another type is
    rejected and leaves every field of the record as it was.  In both
    cases the other records are as the pass leaves them: the store after a
    rejected renewal is [st1]. *)
Theorem renew_active_current (sync_date current_date_str : cstring) (id : Z)
    (c : type_choice) (st : Store) (p : Node) :
  findByCardID st id = Some p ->
  is_active (data p) = 1 ->
  dateToDays sync_date <= expire_day p ->
  dateToDays current_date_str <= expire_day p ->
  expiry_in_range (dateToDays sync_date) p ->
  long_range (bonus_days p + newDuration c) ->
  let st1 := syncAutoExpire sync_date st in
  let E := expire_node (dateToDays sync_date) in
  exists l1 l2,
    head st = l1 ++ p :: l2
    /\ head st1 = map E l1 ++ p :: map E l2
    /\ findByCardID st1 id = Some p
    /\ (newType c = membership_type (data p) ->
        renewMember sync_date current_date_str id c st
        = (set_head
             (map E l1
              ++ {| data := data p;
                    bonus_days := bonus_days p
                      + getDurationDays (membership_type (data p)) |}
              :: map E l2)
             st,
           RenewExtended))
    /\ (newType c <> membership_type (data p) ->
        renewMember sync_date current_date_str id c st = (st1, RenewRejected)).
Proof.
  intros Hf Ha Hs He Hr Hb st1 E. subst st1 E.
  destruct (sync_found_split sync_date st id p Hf)
    as (l1 & l2 & Hsplit & Hs1 & Hf1 & Hu & _).
  assert (Ep : expire_node (dateToDays sync_date) p = p).
  { rewrite (expire_node_spec _ _ Hr). unfold expire_spec. rewrite Ha.
    cbn [Z.eqb Pos.eqb andb].
    destruct (Z.ltb_spec (expire_day p) (dateToDays sync_date));
      [lia|reflexivity]. }
  rewrite Ep in Hs1, Hf1, Hu.
  exists l1, l2. split; [exact Hsplit|]. split; [exact Hs1|].
  split; [exact Hf1|].
  unfold renewMember, renew_found. rewrite Hf1. unfold renew_node.
  rewrite (calcExpireDays_exact p (proj1 Hr)), Ha. cbn [Z.eqb orb].
  destruct (Z.ltb_spec (expire_day p) (dateToDays current_date_str)); [lia|].
  split; intros Ht.
  - rewrite (proj2 (strcmp_eq_iff _ _) Ht). cbn [negb].
    rewrite Hu, set_is_active_same by exact Ha.
    rewrite (slong_id _ Hb), <- Ht, newDuration_duration, set_head_sync.
    reflexivity.
  - destruct (strcmp_eq (newType c) (membership_type (data p))) eqn:E.
    + apply strcmp_eq_iff in E. contradiction.
    + cbn [negb]. rewrite Hu, <- Hs1, set_head_same. reflexivity.
Qed.

Lemma renew_active_current_witness :
  let st1 := syncAutoExpire (cs "2025-01-20") scenario2_store in
  let E := expire_node (dateToDays (cs "2025-01-20")) in
  exists l1 l2,
    head scenario2_store = l1 ++ scenario1_node :: l2
    /\ head st1 = map E l1 ++ scenario1_node :: map E l2
    /\ findByCardID st1 1001 = Some scenario1_node
    /\ (newType Monthly = membership_type (data scenario1_node) ->
        renewMember (cs "2025-01-20") (cs "2025-01-20") 1001 Monthly
                    scenario2_store
        = (set_head
             (map E l1
              ++ {| data := data scenario1_node;
                    bonus_days := bonus_days scenario1_node
                      + getDurationDays
                          (membership_type (data scenario1_node)) |}
              :: map E l2)
             scenario2_store,
           RenewExtended))
    /\ (newType Monthly <> membership_type (data scenario1_node) ->
        renewMember (cs "2025-01-20") (cs "2025-01-20") 1001 Monthly
                    scenario2_store
        = (st1, RenewRejected)).
Proof.
  apply (renew_active_current (cs "2025-01-20") (cs "2025-01-20") 1001 Monthly
           scenario2_store scenario1_node).
  - vm_compute. reflexivity.
  - reflexivity.
  - vm_compute. discriminate.
  - vm_compute. discriminate.
  - vm_compute. repeat split; discriminate.
  - vm_compute. split; discriminate.
Defined.

Example scenario2_same_type :
  map (fun p => (membership_type (data p), bonus_days p, is_active (data p)))
      (head (fst (renew_found (cs "2025-01-20") 1001 Monthly scenario2_store)))
  = [(cs "月卡", 30, 1); (cs "季卡", 0, 1)].
Proof. vm_compute. reflexivity. Qed.

Example scenario3_other_type :
  renew_found (cs "2025-01-20") 1001 Yearly scenario2_store
  = (scenario2_store, RenewRejected).
Proof. vm_compute. reflexivity. Qed.

Lemma carried_over_refl p : carried_over p p.
Proof. unfold carried_over. auto. Qed.

Lemma carried_over_trans p q r :
  carried_over p q -> carried_over q r -> carried_over p r.
Proof.
  unfold carried_over. intros (A1 & A2 & A3) (B1 & B2 & B3).
  repeat split; try congruence. auto.
Qed.

Lemma carried_over_set_inactive p : carried_over p (set_is_active 0 p).
Proof. unfold carried_over. cbn. auto. Qed.

Lemma carried_over_expire t p : carried_over p (expire_node t p).
Proof.
  unfold expire_node.
  destruct (is_active (data p) =? 1); [|apply carried_over_refl].
  destruct (slong (calcExpireDays p - t) <? 0);
    [apply carried_over_set_inactive|apply carried_over_refl].
Qed.

Lemma carried_over_renew_node d c p :
  snd (renew_node d c p) <> RenewRestarted ->
  carried_over p (fst (renew_node d c p)).
Proof.
  unfold renew_node.
  destruct (is_active (data p) =? 0) eqn:Ha; cbn [orb]; [cbn; congruence|].
  destruct (calcExpireDays p <? dateToDays d); [cbn; congruence|].
  destruct (negb (strcmp_eq (newType c) (membership_type (data p))));
    cbn [fst snd]; intros _; [apply carried_over_refl|].
  unfold carried_over. cbn. repeat split.
  intros H0. rewrite H0 in Ha. discriminate Ha.
Qed.

Lemma find_some_in id l p : find (has_id id) l = Some p -> In p l.
Proof. intros H. now apply find_some in H. Qed.

Lemma same_plans_refl l : same_plans l l.
Proof.
  unfold same_plans.
  induction l; constructor; [apply carried_over_refl|assumption].
Qed.

Lemma same_plans_sync t l : same_plans l (map (expire_node t) l).
Proof.
  unfold same_plans.
  induction l; cbn [map]; constructor; [apply carried_over_expire|assumption].
Qed.

Lemma same_plans_around l1 l1' l2 l2' p q :
  same_plans l1 l1' -> carried_over p q -> same_plans l2 l2' ->
  same_plans (l1 ++ p :: l2) (l1' ++ q :: l2').
Proof.
  intros H1 Hpq H2. apply Forall2_app; [exact H1|]. now constructor.
Qed.

Lemma restarted_expire t d c p :
  restarted d c (expire_node t p) = restarted d c p.
Proof.
  unfold expire_node. destruct (is_active (data p) =? 1); [|reflexivity].
  destruct (slong (calcExpireDays p - t) <? 0); reflexivity.
Qed.

Lemma renew_node_restart d c p :
  (is_active (data p) =? 0) || (calcExpireDays p <? dateToDays d) = true ->
  renew_node d c p = (restarted d c p, RenewRestarted).
Proof. intros H. unfold renew_node. cbv zeta. now rewrite H. Qed.

Lemma renew_node_kept d c p :
  (is_active (data p) =? 0) || (calcExpireDays p <? dateToDays d) = false ->
  carried_over p (fst (renew_node d c p)).
Proof.
  intros H. apply carried_over_renew_node. unfold renew_node. cbv zeta.
  rewrite H.
  destruct (negb (strcmp_eq (newType c) (membership_type (data p))));
    cbn [snd]; discriminate.
Qed.

(** What a command of the menu does to the plans and the flags: the
    records keep their places, their card numbers and their types, and none
    is brought back to life, but for the record appended by an insertion,
    the record unlinked by a deletion, and the record found by a renewal
    when it is inactive after the pass of the synchronizer or has run out,
    which the first branch of the renewal writes anew. *)
Lemma only_restart_changes_plan (cmd : command) (st0 : Store) :
  same_plans (head st0) (head (run cmd st0))
  \/ (exists d i,
        cmd = CAdd d i
        /\ head (run cmd st0) = head st0 ++ [added d i st0])
  \/ (exists d id0 l1 x l2 l1' l2',
        cmd = CDelete d id0
        /\ head st0 = l1 ++ x :: l2
        /\ head (run cmd st0) = l1' ++ l2'
        /\ same_plans l1 l1' /\ same_plans l2 l2')
  \/ (exists d1 d2 id0 ch l1 x l2 l1' l2',
        cmd = CRenew d1 d2 id0 ch
        /\ findByCardID st0 id0 = Some x
        /\ (is_active (data (expire_node (dateToDays d1) x)) = 0
            \/ calcExpireDays x < dateToDays d2)
        /\ head st0 = l1 ++ x :: l2
        /\ head (run cmd st0) = l1' ++ restarted d2 ch x :: l2'
        /\ same_plans l1 l1' /\ same_plans l2 l2').
Proof.
  destruct cmd as [d|d i|id ph|d id|d1 d2 id ch|id]; cbn [run].
  - left. rewrite syncAutoExpire_head. apply same_plans_sync.
  - unfold addMember. destruct (member_count st0 >=? MAX_MEMBERS).
    + left. apply same_plans_refl.
    + right. left. exists d, i. split; reflexivity.
  - left. unfold updateMemberPhone.
    destruct (findByCardID st0 id) as [p|] eqn:Hf; cbn [fst];
      [|apply same_plans_refl].
    destruct (find_first_split id (head st0) p Hf)
      as (l1 & l2 & Hsplit & _ & _ & Hu & _).
    unfold set_head. cbn [head]. rewrite Hu, Hsplit.
    apply same_plans_around; try apply same_plans_refl.
    unfold carried_over. cbn. auto.
  - unfold deleteExpiredMember.
    destruct (findByCardID st0 id) as [x|] eqn:Hf.
    + destruct (sync_found_split d st0 id x Hf)
        as (l1 & l2 & Hsplit & Hs1 & Hf1 & _ & Hd).
      rewrite Hf1.
      destruct (is_active (data (expire_node (dateToDays d) x)) =? 1);
        cbn [fst head].
      * left. rewrite syncAutoExpire_head. apply same_plans_sync.
      * right. right. left.
        exists d, id, l1, x, l2, (map (expire_node (dateToDays d)) l1),
               (map (expire_node (dateToDays d)) l2).
        repeat split; try assumption; apply same_plans_sync.
    + rewrite findByCardID_sync, Hf. cbn [option_map fst]. left.
      rewrite syncAutoExpire_head. apply same_plans_sync.
  - unfold renewMember, renew_found.
    destruct (findByCardID st0 id) as [x|] eqn:Hf.
    + destruct (sync_found_split d1 st0 id x Hf)
        as (l1 & l2 & Hsplit & Hs1 & Hf1 & Hu & _).
      rewrite Hf1.
      destruct ((is_active (data (expire_node (dateToDays d1) x)) =? 0)
                || (calcExpireDays (expire_node (dateToDays d1) x)
                    <? dateToDays d2)) eqn:Hc.
      * rewrite (renew_node_restart _ _ _ Hc). cbn [fst]. unfold set_head.
        cbn [head]. rewrite Hu, restarted_expire.
        right. right. right.
        exists d1, d2, id, ch, l1, x, l2,
               (map (expire_node (dateToDays d1)) l1),
               (map (expire_node (dateToDays d1)) l2).
        split; [reflexivity|]. split; [exact Hf|]. split.
        { apply orb_true_iff in Hc. destruct Hc as [Hc|Hc].
          - left. now apply Z.eqb_eq.
          - right. rewrite calcExpireDays_expire in Hc. now apply Z.ltb_lt. }
        split; [exact Hsplit|]. split; [reflexivity|].
        split; apply same_plans_sync.
      * left. pose proof (renew_node_kept d2 ch _ Hc) as Hk.
        destruct (renew_node d2 ch (expire_node (dateToDays d1) x))
          as [p' r]. cbn [fst] in *. unfold set_head. cbn [head].
        rewrite Hu, Hsplit.
        apply same_plans_around; try apply same_plans_sync.
        exact (carried_over_trans _ _ _ (carried_over_expire _ x) Hk).
    + rewrite findByCardID_sync, Hf. cbn [option_map fst]. left.
      rewrite syncAutoExpire_head. apply same_plans_sync.
  - left. unfold updateMemberStatus.
    destruct (findByCardID st0 id) as [p|] eqn:Hf; cbn [fst];
      [|apply same_plans_refl].
    destruct (is_active (data p) =? 0); cbn [fst]; [apply same_plans_refl|].
    destruct (find_first_split id (head st0) p Hf)
      as (l1 & l2 & Hsplit & _ & _ & Hu & _).
    unfold set_head. cbn [head]. rewrite Hu, Hsplit.
    apply same_plans_around; try apply same_plans_refl.
    apply carried_over_set_inactive.
Qed.

(** C4. A record that is inactive, or whose expire day is before today:
    [renewMember], with any of the three types, succeeds and writes today
    as join date, 0 bonus days, the requested type and the active flag; the
    other records are as the pass of the synchronizer that opens the
    function leaves them, with their types, and none of them revived.
    This is the only point where the type of a record changes or an
    inactive record turns active: whatever the command of the menu, the
    records keep their places, card numbers and types and none is brought
    back to life, but for the record that an insertion appends, the record
    that a deletion unlinks, and the record found by a renewal when that
    record is inactive after the pass or has run out, which is then written
    as above. *)
Theorem renew_restart_only_revival (sync_date current_date_str : cstring)
    (id : Z) (c : type_choice) (st : Store) (p : Node) :
  findByCardID st id = Some p ->
  is_active (data p) = 0
  \/ (long_range (expire_day p)
      /\ expire_day p < dateToDays current_date_str) ->
  let E := expire_node (dateToDays sync_date) in
  (exists l1 l2,
     head st = l1 ++ p :: l2
     /\ renewMember sync_date current_date_str id c st
        = (set_head (map E l1 ++ restarted current_date_str c p :: map E l2)
                    st,
           RenewRestarted)
     /\ same_plans l1 (map E l1) /\ same_plans l2 (map E l2))
  /\ (forall cmd st0,
        same_plans (head st0) (head (run cmd st0))
        \/ (exists d i,
              cmd = CAdd d i
              /\ head (run cmd st0) = head st0 ++ [added d i st0])
        \/ (exists d id0 l1 x l2 l1' l2',
              cmd = CDelete d id0
              /\ head st0 = l1 ++ x :: l2
              /\ head (run cmd st0) = l1' ++ l2'
              /\ same_plans l1 l1' /\ same_plans l2 l2')
        \/ (exists d1 d2 id0 ch l1 x l2 l1' l2',
              cmd = CRenew d1 d2 id0 ch
              /\ findByCardID st0 id0 = Some x
              /\ (is_active (data (expire_node (dateToDays d1) x)) = 0
                  \/ calcExpireDays x < dateToDays d2)
              /\ head st0 = l1 ++ x :: l2
              /\ head (run cmd st0) = l1' ++ restarted d2 ch x :: l2'
              /\ same_plans l1 l1' /\ same_plans l2 l2')).
Proof.
  intros Hf Hp E. subst E. split; [|exact only_restart_changes_plan].
  destruct (sync_found_split sync_date st id p Hf)
    as (l1 & l2 & Hsplit & _ & Hf1 & Hu & _).
  exists l1, l2. split; [exact Hsplit|].
  split; [|split; apply same_plans_sync].
  unfold renewMember, renew_found. rewrite Hf1.
  rewrite renew_node_restart.
  - rewrite Hu, restarted_expire, set_head_sync. reflexivity.
  - rewrite calcExpireDays_expire. destruct Hp as [H0|[Hr Hlt]].
    + assert (Ep : expire_node (dateToDays sync_date) p = p)
        by (unfold expire_node; now rewrite H0).
      rewrite Ep, H0. reflexivity.
    + rewrite (calcExpireDays_exact p Hr).
      apply orb_true_iff. right. now apply Z.ltb_lt.
Qed.

Lemma renew_restart_only_revival_witness :
  let E := expire_node (dateToDays (cs "2025-03-01")) in
  exists l1 l2,
    head scenario4_store = l1 ++ scenario4_node :: l2
    /\ renewMember (cs "2025-03-01") (cs "2025-03-01") 1001 Yearly
                   scenario4_store
       = (set_head (map E l1
                    ++ restarted (cs "2025-03-01") Yearly scenario4_node
                    :: map E l2)
                   scenario4_store,
          RenewRestarted)
    /\ same_plans l1 (map E l1) /\ same_plans l2 (map E l2).
Proof.
  apply (renew_restart_only_revival (cs "2025-03-01") (cs "2025-03-01") 1001
           Yearly scenario4_store scenario4_node).
  - vm_compute. reflexivity.
  - left. reflexivity.
Defined.

Example scenario4_reactivation :
  map (fun p => (join_date (data p), bonus_days p,
                 membership_type (data p), is_active (data p)))
      (head (fst (renewMember (cs "2025-03-01") (cs "2025-03-01") 1001 Yearly
                              scenario4_store)))
  = [(cs "2025-03-01", 0, cs "年卡", 1)].
Proof. vm_compute. reflexivity. Qed.

(* ------------------------------------------------------------------ *)
(** ** Deletion *)

(** The record added on 2024-01-01 is marked active; on 2025-06-01
    [deleteExpiredMember] removes it: the pass of the synchronizer that opens
    the function finds it expired and clears the flag before the check. *)
Lemma delete_active_flag_counterexample :
  reachable lapsed_store
  /\ findByCardID lapsed_store 1005 = Some lapsed_node
  /\ is_active (data lapsed_node) = 1
  /\ snd (deleteExpiredMember (cs "2025-06-01") 1005 lapsed_store) = DeleteDone
  /\ findByCardID (fst (deleteExpiredMember (cs "2025-06-01") 1005 lapsed_store))
                  1005 = None
  /\ member_count (fst (deleteExpiredMember (cs "2025-06-01") 1005 lapsed_store))
     = 4.
Proof.
  split; [|vm_compute; repeat split; reflexivity].
  unfold lapsed_store. apply reach_step; [apply reach_start|reflexivity].
Qed.

(** C9 (amended). [deleteExpiredMember] first runs the synchronizer; call
    [st1] the store it leaves.  A record that is active in [st1] - active
    before, and not expired - is refused and the store is [st1]; when the
    sums stay in range, a record marked active whose expire day is before
    today is inactive in [st1].  A record that is inactive in [st1] is
    unlinked and the count goes down by one.  An unknown card number is
    reported, and the store is [st1]. *)
Theorem delete_after_sync (sync_date : cstring) (id : Z) (st : Store) :
  int_range (member_count st - 1) ->
  let today := dateToDays sync_date in
  let st1 := syncAutoExpire sync_date st in
  (forall p, findByCardID st1 id = Some p -> is_active (data p) = 1 ->
     deleteExpiredMember sync_date id st = (st1, DeleteStillActive))
  /\ (forall p, findByCardID st1 id = Some p -> is_active (data p) <> 1 ->
        exists l1 l2,
          head st1 = l1 ++ p :: l2
          /\ deleteExpiredMember sync_date id st
             = ({| head := l1 ++ l2;
                   member_count := member_count st - 1;
                   next_card_id := next_card_id st |}, DeleteDone))
  /\ (findByCardID st1 id = None ->
        deleteExpiredMember sync_date id st = (st1, DeleteNotFound))
  /\ (forall p0, findByCardID st id = Some p0 -> expiry_in_range today p0 ->
        findByCardID st1 id = Some (expire_spec today p0)
        /\ (is_active (data p0) = 1 -> today <= expire_day p0 ->
            is_active (data (expire_spec today p0)) = 1)
        /\ (is_active (data p0) = 1 -> expire_day p0 < today ->
            is_active (data (expire_spec today p0)) = 0)
        /\ (is_active (data p0) = 0 ->
            is_active (data (expire_spec today p0)) = 0)).
Proof.
  intros Hc today st1. split; [|split; [|split]].
  - intros p Hf Ha. unfold deleteExpiredMember. fold st1. rewrite Hf, Ha.
    reflexivity.
  - intros p Hf Ha. unfold deleteExpiredMember. fold st1. rewrite Hf.
    destruct (Z.eqb_spec (is_active (data p)) 1) as [E|_]; [contradiction|].
    unfold findByCardID in Hf.
    destruct (find_first_split id (head st1) p Hf)
      as (l1 & l2 & Hsplit & _ & _ & _ & Hd).
    exists l1, l2. split; [exact Hsplit|].
    rewrite Hd. subst st1.
    rewrite (proj1 (syncAutoExpire_counters _ _)),
            (proj2 (syncAutoExpire_counters _ _)), (sint_id _ Hc).
    reflexivity.
  - intros Hf. unfold deleteExpiredMember. fold st1. rewrite Hf. reflexivity.
  - intros p0 Hf Hr. split; [|split; [|split]].
    + subst st1. rewrite findByCardID_sync, Hf. cbn [option_map].
      f_equal. exact (expire_node_spec today p0 Hr).
    + intros Ha He. unfold expire_spec. rewrite Ha. cbn [Z.eqb Pos.eqb andb].
      destruct (Z.ltb_spec (expire_day p0) today); [lia|exact Ha].
    + intros Ha He. unfold expire_spec. rewrite Ha. cbn [Z.eqb Pos.eqb andb].
      destruct (Z.ltb_spec (expire_day p0) today); [reflexivity|lia].
    + intros Ha. unfold expire_spec. rewrite Ha. cbn [Z.eqb andb]. exact Ha.
Qed.

Lemma delete_after_sync_witness :
  deleteExpiredMember (cs "2025-01-20") 1001 scenario2_store
  = (syncAutoExpire (cs "2025-01-20") scenario2_store, DeleteStillActive).
Proof.
  refine (proj1 (delete_after_sync (cs "2025-01-20") 1001 scenario2_store _)
                scenario1_node _ _).
  - vm_compute. split; discriminate.
  - vm_compute. reflexivity.
  - reflexivity.
Defined.

Example delete_inactive_record :
  deleteExpiredMember (cs "2025-03-01") 1001 scenario4_store
  = ({| head := []; member_count := 0; next_card_id := 1001 |}, DeleteDone).
Proof. vm_compute. reflexivity. Qed.

(* ------------------------------------------------------------------ *)
(** ** Saving *)

(** The data file exists before the call; the rename fails; after the call
    the data file is gone, with the staging file. *)
Lemma save_rename_failure_counterexample :
  old_disk DATA_FILE = Some (fmt_node scenario4_node)
  /\ snd (saveToFile rename_fails DATA_FILE scenario2_store old_disk) = 0
  /\ fst (saveToFile rename_fails DATA_FILE scenario2_store old_disk) DATA_FILE
     = None
  /\ fst (saveToFile rename_fails DATA_FILE scenario2_store old_disk) TEMP_FILE
     = None.
Proof. vm_compute. repeat split; reflexivity. Qed.

Lemma fs_put_same f c fs : fs_put f c fs f = Some c.
Proof. unfold fs_put. now rewrite String.eqb_refl. Qed.

Lemma fs_put_other f g c fs : g <> f -> fs_put f c fs g = fs g.
Proof.
  unfold fs_put. intros H. destruct (String.eqb_spec g f); [contradiction|reflexivity].
Qed.

Lemma fs_del_same f fs : fs_del f fs f = None.
Proof. unfold fs_del. now rewrite String.eqb_refl. Qed.

Lemma fs_del_other f g fs : g <> f -> fs_del f fs g = fs g.
Proof.
  unfold fs_del. intros H. destruct (String.eqb_spec g f); [contradiction|reflexivity].
Qed.

(** C1 (amended). When the staging file is written and the rename fails,
    [saveToFile] returns 0 and removes the staging file (it stays, with the
    new contents, only if the host refuses that removal).  The destination
    was removed before the rename was tried: it is absent, and keeps the
    contents it had only if the host refused that first removal.  No other
    file is touched.  When the staging file cannot be opened the call
    returns 0 and leaves every file as it was. *)
Theorem save_rename_failure (env : SaveEnv) (filename : string) (st : Store)
    (fs : FileSystem) :
  filename <> TEMP_FILE ->
  (fopen_ok env = true -> rename_ok env = false ->
   let fs' := fst (saveToFile env filename st fs) in
   snd (saveToFile env filename st fs) = 0
   /\ fs' TEMP_FILE
      = (if remove_temp_ok env then None else Some (file_image st))
   /\ fs' filename = (if remove_dest_ok env then None else fs filename)
   /\ (forall g, g <> filename -> g <> TEMP_FILE -> fs' g = fs g))
  /\ (fopen_ok env = false -> saveToFile env filename st fs = (fs, 0)).
Proof.
  intros Hne. split.
  - intros Ho Hr. unfold saveToFile, c_rename, c_remove. rewrite Ho, Hr.
    cbn [negb fst snd].
    destruct (remove_temp_ok env), (remove_dest_ok env);
      repeat split; intros;
      repeat first [ rewrite fs_del_same | rewrite fs_put_same
                   | rewrite fs_del_other by congruence
                   | rewrite fs_put_other by congruence ];
      reflexivity.
  - intros Ho. unfold saveToFile. rewrite Ho. reflexivity.
Qed.

Lemma save_rename_failure_witness :
  snd (saveToFile rename_fails DATA_FILE scenario2_store old_disk) = 0
  /\ fst (saveToFile rename_fails DATA_FILE scenario2_store old_disk) TEMP_FILE
     = None
  /\ fst (saveToFile rename_fails DATA_FILE scenario2_store old_disk) DATA_FILE
     = None
  /\ (forall g, g <> DATA_FILE -> g <> TEMP_FILE ->
        fst (saveToFile rename_fails DATA_FILE scenario2_store old_disk) g
        = old_disk g).
Proof.
  refine (proj1 (save_rename_failure rename_fails DATA_FILE scenario2_store
                   old_disk _) _ _).
  - vm_compute. discriminate.
  - reflexivity.
  - reflexivity.
Defined.

(* ------------------------------------------------------------------ *)
(** ** Calendar engine *)

Lemma isLeapYear_gregorian y : isLeapYear y = gregorian_leap y.
Proof.
  unfold isLeapYear, gregorian_leap.
  assert (E : forall k, 0 < k -> (Z.rem y k =? 0) = (y mod k =? 0)).
  { intros k Hk. destruct (Z.eqb_spec (Z.rem y k) 0) as [H|H];
      destruct (Z.eqb_spec (y mod k) 0) as [H'|H']; try reflexivity; exfalso.
    - apply H'. apply Z.rem_divide in H; [|lia].
      apply Z.mod_divide; [lia|exact H].
    - apply H. apply Z.rem_divide; [lia|]. apply Z.mod_divide in H'; [exact H'|lia]. }
  rewrite !E by lia. reflexivity.
Qed.

Lemma daysInMonth_month_length y m :
  1 <= m <= 12 -> daysInMonth y m = month_length y m.
Proof.
  intros H. unfold daysInMonth, month_length. rewrite isLeapYear_gregorian.
  month_cases m; cbn; try reflexivity. destruct (gregorian_leap y); reflexivity.
Qed.

Lemma month_length_bounds y m : 28 <= month_length y m <= 31.
Proof.
  unfold month_length.
  destruct (m =? 2); [destruct (gregorian_leap y); lia|].
  destruct ((m =? 4) || (m =? 6) || (m =? 9) || (m =? 11)); lia.
Qed.

Lemma days_before_month_next y m :
  1 <= m <= 11 ->
  days_before_month y (m + 1) = days_before_month y m + month_length y m.
Proof.
  intros H. unfold days_before_month.
  month_cases m; unfold month_length; destruct (gregorian_leap y);
    vm_compute; reflexivity.
Qed.

Lemma days_before_month_first y : days_before_month y 1 = 0.
Proof. reflexivity. Qed.

Lemma days_before_month_last y :
  days_before_month y 12 + 31 = 365 + (if gregorian_leap y then 1 else 0).
Proof.
  unfold days_before_month, month_length.
  destruct (gregorian_leap y); vm_compute; reflexivity.
Qed.

Lemma days_before_month_mono y m1 m2 :
  1 <= m1 -> m1 <= m2 -> m2 <= 12 ->
  0 <= days_before_month y m1 <= days_before_month y m2.
Proof.
  intros H1 H12 H2.
  assert (G : forall n : nat, forall m, 1 <= m -> m + Z.of_nat n <= 12 ->
              0 <= days_before_month y m
                <= days_before_month y (m + Z.of_nat n)).
  { induction n as [|n IH]; intros m Hm Hn.
    - change (Z.of_nat 0) with 0 in *. rewrite Z.add_0_r. split; [|lia].
      clear - Hm Hn. month_cases m; unfold days_before_month, month_length;
        destruct (gregorian_leap y); vm_compute; discriminate.
    - specialize (IH m Hm ltac:(lia)).
      replace (m + Z.of_nat (S n)) with (m + Z.of_nat n + 1) by lia.
      rewrite days_before_month_next by lia.
      pose proof (month_length_bounds y (m + Z.of_nat n)). lia. }
  specialize (G (Z.to_nat (m2 - m1)) m1 H1 ltac:(lia)).
  replace (m1 + Z.of_nat (Z.to_nat (m2 - m1))) with m2 in G by lia.
  exact G.
Qed.

(** A leap year adds one to the count of leap years before the next one. *)
Lemma leaps_before_next y :
  1 <= y ->
  leaps_before (y + 1) = leaps_before y + (if gregorian_leap y then 1 else 0).
Proof.
  intros Hy. unfold leaps_before, gregorian_leap.
  replace (y + 1 - 1) with y by lia.
  destruct (Z.eqb_spec (y mod 4) 0), (Z.eqb_spec (y mod 100) 0),
           (Z.eqb_spec (y mod 400) 0); cbn [andb orb negb]; lia.
Qed.

Lemma year_start_next y :
  1 <= y ->
  year_start (y + 1)
  = year_start y + 365 + (if gregorian_leap y then 1 else 0).
Proof. intros H. unfold year_start. rewrite leaps_before_next by exact H. lia. Qed.

Lemma year_start_mono y1 y2 :
  1 <= y1 -> y1 <= y2 -> year_start y1 + 365 * (y2 - y1) <= year_start y2.
Proof.
  intros H1 H12.
  assert (G : forall n : nat,
             year_start y1 + 365 * Z.of_nat n <= year_start (y1 + Z.of_nat n)).
  { induction n as [|n IH];
      [replace (y1 + Z.of_nat 0) with y1 by lia; lia|].
    replace (y1 + Z.of_nat (S n)) with (y1 + Z.of_nat n + 1) by lia.
    rewrite year_start_next by lia.
    destruct (gregorian_leap (y1 + Z.of_nat n)); lia. }
  specialize (G (Z.to_nat (y2 - y1))).
  replace (y1 + Z.of_nat (Z.to_nat (y2 - y1))) with y2 in G by lia. lia.
Qed.

Lemma ordinal_year_start y m d :
  ordinal (y, m, d) = year_start y + days_before_month y m + d.
Proof. reflexivity. Qed.

(** A date lies within its year. *)
Lemma ordinal_within_year y m d :
  calendar_date y m d ->
  year_start y + 1 <= ordinal (y, m, d) <= year_start (y + 1).
Proof.
  intros (Hy & Hm & Hd). rewrite ordinal_year_start, year_start_next by exact Hy.
  pose proof (days_before_month_mono y 1 m ltac:(lia) ltac:(lia) ltac:(lia)) as B1.
  pose proof (days_before_month_mono y m 12 ltac:(lia) ltac:(lia) ltac:(lia)) as B2.
  pose proof (days_before_month_last y) as L.
  destruct (Z.eq_dec m 12) as [->|Hne].
  - assert (E : month_length y 12 = 31) by reflexivity.
    destruct (gregorian_leap y); lia.
  - pose proof (days_before_month_next y m ltac:(lia)) as N.
    pose proof (days_before_month_mono y (m + 1) 12
                  ltac:(lia) ltac:(lia) ltac:(lia)).
    destruct (gregorian_leap y); lia.
Qed.

(** The ordinal follows the order of the calendar. *)
Lemma ordinal_mono a b :
  calendar_triple a -> calendar_triple b -> date_lt a b -> ordinal a < ordinal b.
Proof.
  destruct a as [[y1 m1] d1], b as [[y2 m2] d2]. unfold calendar_triple, date_lt.
  intros Ha Hb [Hy|[-> [Hm|[-> Hd]]]].
  - pose proof (ordinal_within_year _ _ _ Ha).
    pose proof (ordinal_within_year _ _ _ Hb).
    destruct Ha as (Hy1 & _).
    pose proof (year_start_mono (y1 + 1) y2 ltac:(lia) ltac:(lia)). lia.
  - destruct Ha as (Hy1 & Hm1 & Hd1), Hb as (_ & Hm2 & Hd2).
    rewrite !ordinal_year_start.
    pose proof (days_before_month_next y2 m1 ltac:(lia)).
    pose proof (days_before_month_mono y2 (m1 + 1) m2 ltac:(lia) ltac:(lia) ltac:(lia)).
    lia.
  - rewrite !ordinal_year_start. lia.
Qed.

Lemma date_trichotomy a b : date_lt a b \/ a = b \/ date_lt b a.
Proof.
  destruct a as [[y1 m1] d1], b as [[y2 m2] d2]. unfold date_lt.
  destruct (Z.lt_trichotomy y1 y2) as [H|[->|H]]; [auto| |auto].
  destruct (Z.lt_trichotomy m1 m2) as [H|[->|H]]; [auto| |auto 6].
  destruct (Z.lt_trichotomy d1 d2) as [H|[->|H]]; [auto 6|auto|auto 8].
Qed.

Lemma ordinal_inj a b :
  calendar_triple a -> calendar_triple b -> ordinal a = ordinal b -> a = b.
Proof.
  intros Ha Hb E. destruct (date_trichotomy a b) as [H|[H|H]]; [|exact H|].
  - pose proof (ordinal_mono a b Ha Hb H). lia.
  - pose proof (ordinal_mono b a Hb Ha H). lia.
Qed.

(** The day after is a date, one ordinal further. *)
Lemma ordinal_next_day t :
  calendar_triple t ->
  calendar_triple (next_day t) /\ ordinal (next_day t) = ordinal t + 1.
Proof.
  destruct t as [[y m] d]. unfold calendar_triple, next_day.
  intros (Hy & Hm & Hd).
  destruct (Z.ltb_spec d (month_length y m)) as [H|H].
  - split; [unfold calendar_date; lia|]. rewrite !ordinal_year_start. lia.
  - destruct (Z.ltb_spec m 12) as [H12|H12].
    + split.
      * unfold calendar_date. pose proof (month_length_bounds y (m + 1)). lia.
      * rewrite !ordinal_year_start, days_before_month_next by lia. lia.
    + assert (m = 12) by lia. subst m. split.
      * unfold calendar_date. pose proof (month_length_bounds (y + 1) 1). lia.
      * rewrite !ordinal_year_start, year_start_next by exact Hy.
        rewrite days_before_month_first.
        pose proof (days_before_month_last y).
        assert (month_length y 12 = 31) by reflexivity.
        destruct (gregorian_leap y); lia.
Qed.

Lemma ordinal_iter_next_day n t :
  calendar_triple t ->
  calendar_triple (Nat.iter n next_day t)
  /\ ordinal (Nat.iter n next_day t) = ordinal t + Z.of_nat n.
Proof.
  intros Ht. induction n as [|n [IHv IHo]]; [cbn; split; [exact Ht|lia]|].
  cbn [Nat.iter nat_rect]. change (nat_rect _ _ _ n) with (Nat.iter n next_day t).
  destruct (ordinal_next_day _ IHv) as [Hv Ho]. split; [exact Hv|lia].
Qed.

(** The difference of two ordinals is the number of days to step through. *)
Lemma ordinal_difference_counts_days a b :
  calendar_triple a -> calendar_triple b -> date_lt a b ->
  ordinal a < ordinal b
  /\ Nat.iter (Z.to_nat (ordinal b - ordinal a)) next_day a = b.
Proof.
  intros Ha Hb Hlt. pose proof (ordinal_mono a b Ha Hb Hlt) as Hm.
  split; [exact Hm|].
  destruct (ordinal_iter_next_day (Z.to_nat (ordinal b - ordinal a)) a Ha)
    as [Hv Ho].
  apply ordinal_inj; [exact Hv|exact Hb|]. lia.
Qed.

(** The loop over the months adds up their lengths. *)
Lemma fold_slong_sum (f : nat -> Z) l acc :
  Forall (fun i => 0 <= f i <= 31) l ->
  0 <= acc -> acc + 31 * Z.of_nat (length l) <= LONG_MAX ->
  fold_left (fun a i => slong (a + f i)) l acc
  = acc + fold_right Z.add 0 (map f l).
Proof.
  revert acc. induction l as [|i l IH]; intros acc Hf H0 Hb; cbn [fold_left map fold_right].
  - lia.
  - inversion Hf as [|? ? Hi Hl]; subst.
    cbn [length] in Hb.
    rewrite slong_id by (unfold long_range, LONG_MAX in *; lia).
    rewrite IH; [lia|exact Hl|lia|lia].
Qed.

Lemma add_months_sum y m days :
  1 <= m <= 12 -> 0 <= days <= 1000000000000 ->
  add_months y m days = days + days_before_month y m.
Proof.
  intros Hm Hd. unfold add_months, days_before_month.
  rewrite fold_slong_sum.
  - f_equal. f_equal. apply map_ext_in. intros i Hi. apply in_seq in Hi.
    apply daysInMonth_month_length. lia.
  - apply Forall_forall. intros i Hi. apply in_seq in Hi.
    rewrite daysInMonth_month_length by lia.
    pose proof (month_length_bounds y (Z.of_nat i)). lia.
  - lia.
  - rewrite length_seq. unfold LONG_MAX. lia.
Qed.

(** From year 1 on, the body of [dateToDays] computes the ordinal. *)
Lemma date_days_ordinal y m d :
  1 <= y <= INT_MAX -> calendar_date y m d -> date_days y m d = ordinal (y, m, d).
Proof.
  intros Hy (_ & Hm & Hd). unfold date_days.
  rewrite (daysInMonth_month_length y m Hm).
  destruct (Z.ltb_spec m 1); [lia|]. destruct (Z.gtb_spec m 12); [lia|].
  destruct (Z.ltb_spec d 1); [lia|].
  destruct (Z.gtb_spec d (month_length y m)); [lia|]. cbn [orb].
  unfold INT_MAX in Hy.
  rewrite (sint_id (y - 1)) by (unfold int_range, INT_MAX; lia).
  rewrite !Z.quot_div_nonneg by lia.
  pose proof (month_length_bounds y m) as Hb.
  assert (L : 0 <= leaps_before y <= y) by (unfold leaps_before; lia).
  unfold leaps_before in L.
  rewrite (slong_id ((y - 1) / 4 - (y - 1) / 100))
    by (unfold long_range, LONG_MAX; lia).
  rewrite (slong_id ((y - 1) / 4 - (y - 1) / 100 + (y - 1) / 400))
    by (unfold long_range, LONG_MAX; lia).
  rewrite (slong_id (y * 365)) by (unfold long_range, LONG_MAX; lia).
  rewrite (slong_id (y * 365 + _)) by (unfold long_range, LONG_MAX; lia).
  rewrite Z.add_0_l.
  rewrite (slong_id (y * 365 + _)) by (unfold long_range, LONG_MAX; lia).
  rewrite add_months_sum by lia.
  pose proof (days_before_month_mono y m 12 ltac:(lia) ltac:(lia) ltac:(lia)).
  pose proof (days_before_month_last y).
  rewrite slong_id
    by (unfold long_range, LONG_MAX; destruct (gregorian_leap y); lia).
  unfold ordinal, leaps_before. lia.
Qed.

Lemma date_days_rejects y m d : ~ month_day_ok y m d -> date_days y m d = 0.
Proof.
  unfold month_day_ok, date_days. intros H.
  destruct (Z.ltb_spec m 1); [reflexivity|].
  destruct (Z.gtb_spec m 12); [reflexivity|]. cbn [orb].
  destruct (Z.ltb_spec d 1); [reflexivity|].
  destruct (Z.gtb_spec d (daysInMonth y m)); [reflexivity|]. lia.
Qed.

Lemma ordinal_positive y m d : calendar_date y m d -> 0 < ordinal (y, m, d).
Proof.
  intros H. pose proof (ordinal_within_year y m d H) as B.
  destruct H as (Hy & _).
  assert (0 <= leaps_before y) by (unfold leaps_before; lia).
  unfold year_start in B. lia.
Qed.

Lemma sscanf_date_int s y m d :
  sscanf_date s = Some (y, m, d) -> int_range y /\ int_range m /\ int_range d.
Proof.
  unfold sscanf_date.
  destruct (scan_int s) as [[v [|c1 r1]]|]; try discriminate.
  destruct (Ascii.eqb c1 "-"); [|discriminate].
  destruct (scan_int r1) as [[v2 [|c2 r2]]|]; try discriminate.
  destruct (Ascii.eqb c2 "-"); [|discriminate].
  destruct (scan_int r2) as [[v3 r3]|]; [|discriminate].
  intros [= <- <- <-]. repeat split; apply sint_range.
Qed.

Lemma month_day_ok_calendar y m d :
  1 <= y -> (month_day_ok y m d <-> calendar_date y m d).
Proof.
  intros Hy. unfold month_day_ok, calendar_date. split.
  - intros [Hm Hd]. rewrite <- (daysInMonth_month_length y m Hm). auto.
  - intros (_ & Hm & Hd). rewrite (daysInMonth_month_length y m Hm). auto.
Qed.

Lemma dateToDays_ordinal s y m d :
  sscanf_date s = Some (y, m, d) -> calendar_date y m d ->
  dateToDays s = ordinal (y, m, d).
Proof.
  intros Hs Hc. unfold dateToDays. rewrite Hs.
  apply date_days_ordinal; [|exact Hc].
  destruct (sscanf_date_int s y m d Hs) as (Hy & _).
  destruct Hc as (H1 & _). unfold int_range in Hy. lia.
Qed.

(** The years 0 and 1 overlap: the last day of the one and the first day of
    the other, both accepted, get the same ordinal; and the last day of the
    year -1, accepted as well, gets the sentinel. *)
Lemma ordinal_year_zero_counterexample :
  sscanf_date (cs "0000-12-31") = Some (0, 12, 31)
  /\ sscanf_date (cs "0001-01-01") = Some (1, 1, 1)
  /\ month_day_ok 0 12 31 /\ month_day_ok 1 1 1
  /\ date_lt (0, 12, 31) (1, 1, 1)
  /\ dateToDays (cs "0000-12-31") = 366
  /\ dateToDays (cs "0001-01-01") = 366
  /\ sscanf_date (cs "-1-12-31") = Some (-1, 12, 31)
  /\ month_day_ok (-1) 12 31
  /\ dateToDays (cs "-1-12-31") = 0.
Proof.
  repeat split; try (vm_compute; reflexivity);
    try (vm_compute; discriminate).
  cbn. lia.
Qed.

(** C5 (amended). For dates from year 1 on, with month and day in range:
    the ordinal follows the calendar, the difference of two ordinals is the
    number of days to step from the earlier date to the later, leap days
    included, and the ordinal is never the sentinel.  The sentinel 0 is
    returned for a string that cannot be read, and for a month or a day out
    of range; with a year from 1 on, in these cases only.  2024-02-29 has
    an ordinal, 2023-02-29 gives the sentinel. *)
Theorem dateToDays_calendar (s1 s2 : cstring) (y1 m1 d1 y2 m2 d2 : Z) :
  sscanf_date s1 = Some (y1, m1, d1) ->
  sscanf_date s2 = Some (y2, m2, d2) ->
  calendar_date y1 m1 d1 -> calendar_date y2 m2 d2 ->
  date_lt (y1, m1, d1) (y2, m2, d2) ->
  dateToDays s1 < dateToDays s2
  /\ Nat.iter (Z.to_nat (dateToDays s2 - dateToDays s1)) next_day (y1, m1, d1)
     = (y2, m2, d2)
  /\ (forall s, sscanf_date s = None -> dateToDays s = 0)
  /\ (forall s y m d, sscanf_date s = Some (y, m, d) ->
        ~ month_day_ok y m d -> dateToDays s = 0)
  /\ (forall s y m d, sscanf_date s = Some (y, m, d) -> 1 <= y ->
        (dateToDays s = 0 <-> ~ month_day_ok y m d))
  /\ 0 < dateToDays (cs "2024-02-29")
  /\ dateToDays (cs "2023-02-29") = 0.
Proof.
  intros Hs1 Hs2 Hc1 Hc2 Hlt.
  rewrite (dateToDays_ordinal s1 _ _ _ Hs1 Hc1),
          (dateToDays_ordinal s2 _ _ _ Hs2 Hc2).
  destruct (ordinal_difference_counts_days (y1, m1, d1) (y2, m2, d2) Hc1 Hc2 Hlt)
    as [Hm Hi].
  split; [exact Hm|]. split; [exact Hi|].
  split; [|split; [|split; [|split]]].
  - intros s Hs. unfold dateToDays. now rewrite Hs.
  - intros s y m d Hs Hn. unfold dateToDays. rewrite Hs.
    now apply date_days_rejects.
  - intros s y m d Hs Hy. split.
    + intros E Hok. apply (month_day_ok_calendar y m d Hy) in Hok.
      rewrite (dateToDays_ordinal s y m d Hs Hok) in E.
      pose proof (ordinal_positive y m d Hok). lia.
    + intros Hn. unfold dateToDays. rewrite Hs. now apply date_days_rejects.
  - vm_compute. reflexivity.
  - vm_compute. reflexivity.
Qed.

Lemma dateToDays_calendar_witness :
  dateToDays (cs "2024-02-28") < dateToDays (cs "2025-03-01")
  /\ Nat.iter (Z.to_nat (dateToDays (cs "2025-03-01")
                         - dateToDays (cs "2024-02-28")))
              next_day (2024, 2, 28)
     = (2025, 3, 1).
Proof.
  refine (let H := dateToDays_calendar (cs "2024-02-28") (cs "2025-03-01")
                     2024 2 28 2025 3 1 _ _ _ _ _ in
          conj (proj1 H) (proj1 (proj2 H))).
  - vm_compute. reflexivity.
  - vm_compute. reflexivity.
  - vm_compute. repeat split; discriminate.
  - vm_compute. repeat split; discriminate.
  - cbn. lia.
Defined.

Example days_across_leap_february :
  dateToDays (cs "2024-03-01") - dateToDays (cs "2024-02-28") = 2
  /\ dateToDays (cs "2023-03-01") - dateToDays (cs "2023-02-28") = 1
  /\ dateToDays (cs "2025-01-01") - dateToDays (cs "2024-01-01") = 366.
Proof. vm_compute. repeat split; reflexivity. Qed.

(* ------------------------------------------------------------------ *)
(** ** Loading *)

Lemma fgets_cons k c r :
  fgets (S k) (c :: r)
  = if Ascii.eqb c LF then ([c], r)
    else let '(l, r') := fgets k r in (c :: l, r').
Proof. reflexivity. Qed.

Lemma fgets_rest_le n fp : (length (snd (fgets n fp)) <= length fp)%nat.
Proof.
  revert fp. induction n as [|k IH]; intros [|x fp];
    try (unfold fgets; cbn; lia).
  rewrite fgets_cons. destruct (Ascii.eqb x LF); cbn; [lia|].
  specialize (IH fp). destruct (fgets k fp); cbn in *; lia.
Qed.

Lemma fgets_rest_lt c r :
  (length (snd (fgets LINE_MAX (c :: r))) < length (c :: r))%nat.
Proof.
  change LINE_MAX with (S 510). rewrite fgets_cons.
  destruct (Ascii.eqb c LF); cbn; [lia|].
  pose proof (fgets_rest_le 510 r). destruct (fgets 510 r); cbn in *; lia.
Qed.

Lemma load_loop_cons c r a :
  load_loop (c :: r) a
  = match load_line (fst (fgets LINE_MAX (c :: r))) a with
    | (Break, a') => a'
    | (Continue, a') => load_loop (snd (fgets LINE_MAX (c :: r))) a'
    end.
Proof.
  simp load_loop. destruct (load_line _ a) as [[|] a']; reflexivity.
Qed.

(** What every turn of the loop keeps, the whole loop keeps. *)
Lemma load_loop_invariant (P : LoadAcc -> Prop) :
  (forall buf a, P a -> P (snd (load_line buf a))) ->
  forall fp a, P a -> P (load_loop fp a).
Proof.
  intros Hstep fp.
  induction fp as [fp IH] using (induction_ltof1 _ (@length ascii)).
  unfold ltof in IH. intros a Ha. destruct fp as [|c r]; [now simp load_loop|].
  rewrite load_loop_cons.
  pose proof (Hstep (fst (fgets LINE_MAX (c :: r))) a Ha) as Hs.
  destruct (load_line _ a) as [[|] a']; cbn in Hs; [|exact Hs].
  apply IH; [apply fgets_rest_lt|exact Hs].
Qed.

Lemma max_card_id_app l n :
  max_card_id (l ++ [n]) = Z.max (max_card_id l) (card_id (data n)).
Proof.
  unfold max_card_id. induction l as [|x l IH]; cbn in *; [lia|].
  rewrite IH. lia.
Qed.

Lemma max_card_id_bound l :
  1000 <= max_card_id l
  /\ Forall (fun p => card_id (data p) <= max_card_id l) l.
Proof.
  unfold max_card_id. induction l as [|x l [IH1 IH2]]; cbn; [split; [lia|constructor]|].
  split; [lia|]. constructor; [lia|].
  eapply Forall_impl; [|exact IH2]. cbn. intros; lia.
Qed.

Lemma max_card_id_sync t l :
  max_card_id (map (expire_node t) l) = max_card_id l.
Proof.
  unfold max_card_id. rewrite map_map. f_equal.
  apply map_ext. intros p. apply expire_node_card_id.
Qed.

Lemma load_line_inv buf a : load_inv a -> load_inv (snd (load_line buf a)).
Proof.
  intros (Hl & Hc & Hn & Hm). unfold load_line.
  destruct (trim_newline (c_str buf)) as [|c0 line]; [repeat split; assumption|].
  destruct (split_fields (c0 :: line)) as [f|]; [|repeat split; assumption].
  destruct (negb (fields_ok f)); [repeat split; assumption|].
  destruct (Z.geb_spec (member_count (l_store a)) MAX_MEMBERS) as [Hge|Hlt];
    [repeat split; assumption|].
  unfold MAX_MEMBERS in Hlt. cbn [snd l_store l_loaded l_max_id].
  unfold load_inv, appendNode. cbn [head member_count l_store l_loaded l_max_id].
  rewrite length_app, max_card_id_app. cbn [length node_of_fields data card_id].
  rewrite !sint_id by (unfold int_range, INT_MAX; lia).
  repeat split; try lia.
  destruct (Z.gtb_spec (f_card_id f) (l_max_id a)); lia.
Qed.

Lemma load_start_inv st : load_inv (load_start st).
Proof. repeat split. cbn. lia. Qed.

Lemma load_loop_inv fp st : load_inv (load_loop fp (load_start st)).
Proof.
  apply load_loop_invariant; [apply load_line_inv|apply load_start_inv].
Qed.

(** The card numbers of the loaded records, not below 1000, decide the
    next card number; the only record here is numbered 5 and the next card
    number is 1001, not 6. *)
Lemma load_low_ids_counterexample :
  map (fun p => card_id (data p))
      (head (fst (loadFromFile (cs "2025-01-15") (Some low_id_file) empty_store)))
  = [5]
  /\ next_card_id (fst (loadFromFile (cs "2025-01-15") (Some low_id_file)
                                     empty_store)) = 1001.
Proof. vm_compute. split; reflexivity. Qed.

(** C7 (amended). After a load that could open its file, the next card
    number is one more than the largest of 1000 and the card numbers of the
    loaded records; below the limit of [int] it is therefore greater than
    the card number of every loaded record. *)
Theorem load_next_card_id (current_date_str : cstring) (fp : list ascii)
    (st : Store) :
  let st' := fst (loadFromFile current_date_str (Some fp) st) in
  next_card_id st' = sint (max_card_id (head st') + 1)
  /\ (max_card_id (head st') < INT_MAX ->
      next_card_id st' = max_card_id (head st') + 1
      /\ 1001 <= next_card_id st'
      /\ Forall (fun p => card_id (data p) < next_card_id st') (head st')).
Proof.
  cbn zeta. unfold loadFromFile. fold (load_start st). cbn [fst].
  destruct (load_loop_inv fp st) as (_ & _ & _ & Hm).
  set (a := load_loop fp (load_start st)) in *.
  rewrite (proj2 (syncAutoExpire_counters _ _)), syncAutoExpire_head.
  cbn [head next_card_id]. rewrite max_card_id_sync, Hm.
  split; [reflexivity|]. intros Hlt.
  destruct (max_card_id_bound (head (l_store a))) as [Hb Hall].
  rewrite sint_id by (unfold int_range, INT_MAX in *; lia).
  split; [reflexivity|]. split; [lia|].
  apply Forall_map. eapply Forall_impl; [|exact Hall].
  cbn. intros p Hp. rewrite expire_node_card_id. lia.
Qed.

Lemma load_next_card_id_witness :
  next_card_id (fst (loadFromFile (cs "2025-01-15") (Some under_age_file)
                                  empty_store)) = 1003.
Proof.
  pose proof (load_next_card_id (cs "2025-01-15") under_age_file empty_store)
    as [_ H].
  destruct H as [H _]; [vm_compute; reflexivity|].
  rewrite H. vm_compute. reflexivity.
Defined.

Lemma isValidPhone_iff ph :
  isValidPhone ph = true
  <-> length ph = 11%nat /\ Forall (fun c => isdigit c = true) ph.
Proof.
  unfold isValidPhone, strlen.
  destruct (Z.eqb_spec (Z.of_nat (length ph)) 11) as [E|E]; cbn [negb].
  - rewrite forallb_forall, <- Forall_forall.
    split; [intros H; split; [lia|exact H]|tauto].
  - split; [discriminate|]. intros [H _]. lia.
Qed.

Lemma getDurationDays_zero t :
  t <> cs "月卡" -> t <> cs "季卡" -> t <> cs "年卡" -> getDurationDays t = 0.
Proof.
  intros H1 H2 H3. unfold getDurationDays.
  destruct (strcmp_eq t (cs "月卡")) eqn:E1; [apply strcmp_eq_iff in E1; contradiction|].
  destruct (strcmp_eq t (cs "季卡")) eqn:E2; [apply strcmp_eq_iff in E2; contradiction|].
  destruct (strcmp_eq t (cs "年卡")) eqn:E3; [apply strcmp_eq_iff in E3; contradiction|].
  reflexivity.
Qed.

Lemma rejected_fields_not_ok f : rejected_fields f -> fields_ok f = false.
Proof.
  unfold rejected_fields, fields_ok.
  intros H.
  destruct (Z.leb_spec (f_card_id f) 0) as [|Hid]; [reflexivity|].
  destruct (isValidAge (f_age f)) eqn:Hage; cbn [negb]; [|reflexivity].
  destruct (isValidPhone (f_phone f)) eqn:Hph; cbn [negb]; [|reflexivity].
  destruct (strcmp_eq (f_gender f) (cs "男") || strcmp_eq (f_gender f) (cs "女"))
    eqn:Hg; cbn [negb]; [|reflexivity].
  destruct (Z.eqb_spec (getDurationDays (f_mtype f)) 0) as [|Ht]; [reflexivity|].
  destruct ((f_is_active f =? 0) || (f_is_active f =? 1)) eqn:Ha; cbn [negb];
    [|reflexivity].
  destruct (Z.eqb_spec (dateToDays (f_join_date f)) 0) as [|Hd]; [reflexivity|].
  exfalso.
  unfold isValidAge in Hage. apply andb_true_iff in Hage.
  destruct Hage as [A1 A2]. apply Z.leb_le in A1, A2.
  apply isValidPhone_iff in Hph.
  apply orb_true_iff in Hg. rewrite !strcmp_eq_iff in Hg.
  apply orb_true_iff in Ha. rewrite !Z.eqb_eq in Ha.
  destruct H as [H|[H|[H|[H|[[H1 H2]|[(H1 & H2 & H3)|[[H1 H2]|H]]]]]]];
    try lia; try tauto.
  apply Ht. now apply getDurationDays_zero.
Qed.

Lemma load_line_skips buf a :
  (line_text buf = []
   \/ split_fields (line_text buf) = None
   \/ exists f, split_fields (line_text buf) = Some f /\ rejected_fields f) ->
  load_line buf a = (Continue, a).
Proof.
  unfold load_line, line_text.
  destruct (trim_newline (c_str buf)) as [|c0 line]; [reflexivity|].
  intros [H|[H|(f & H & Hr)]]; [discriminate H|now rewrite H|].
  rewrite H, (rejected_fields_not_ok f Hr). reflexivity.
Qed.

(** C8. A line that is empty, that has fewer than nine fields, or whose
    fields fail one of the checks is passed over: the loop goes on with the
    next line and its variables - the store, the count, the largest card
    number - are as before the line.  The value [loadFromFile] returns is
    the number of records it has put in the store, one for each line
    accepted; it is 0 when the file cannot be opened, and 0 when no line
    gives a record. *)
Theorem load_skips_bad_lines (c : ascii) (r : list ascii) (a : LoadAcc) :
  let buf := fst (fgets LINE_MAX (c :: r)) in
  (line_text buf = []
   \/ split_fields (line_text buf) = None
   \/ exists f, split_fields (line_text buf) = Some f /\ rejected_fields f) ->
  load_line buf a = (Continue, a)
  /\ load_loop (c :: r) a = load_loop (snd (fgets LINE_MAX (c :: r))) a
  /\ (forall d fp st,
        snd (loadFromFile d (Some fp) st)
        = Z.of_nat (length (head (fst (loadFromFile d (Some fp) st)))))
  /\ (forall d st, loadFromFile d None st = (st, 0))
  /\ (forall d fp st,
        head (fst (loadFromFile d (Some fp) st)) = [] ->
        snd (loadFromFile d (Some fp) st) = 0).
Proof.
  intros buf H. pose proof (load_line_skips buf a H) as E.
  assert (Hcount : forall d fp st,
             snd (loadFromFile d (Some fp) st)
             = Z.of_nat (length (head (fst (loadFromFile d (Some fp) st))))).
  { intros d fp st. unfold loadFromFile. fold (load_start st). cbn [fst snd].
    destruct (load_loop_inv fp st) as (Hl & _).
    rewrite syncAutoExpire_head, length_map. exact Hl. }
  split; [exact E|]. split; [|split; [exact Hcount|split]].
  - rewrite load_loop_cons. fold buf. rewrite E. reflexivity.
  - reflexivity.
  - intros d fp st Hnil. rewrite Hcount, Hnil. reflexivity.
Qed.

Lemma load_skips_bad_lines_witness :
  load_loop (cs "1003|Zhao|男|15|13666666666|2025-01-05|月卡|1|0" ++ LF :: fmt_node scenario2_node)
            (load_start empty_store)
  = load_loop (fmt_node scenario2_node) (load_start empty_store).
Proof.
  refine (proj1 (proj2 (load_skips_bad_lines "1"%char
     (cs "003|Zhao|男|15|13666666666|2025-01-05|月卡|1|0" ++ LF :: fmt_node scenario2_node)
     (load_start empty_store) _))).
  right. right. eexists. split; [vm_compute; reflexivity|].
  right. left. vm_compute. reflexivity.
Defined.

Example scenario5_under_age_line :
  map (fun p => card_id (data p))
      (head (fst (loadFromFile (cs "2025-01-15") (Some under_age_file)
                               empty_store))) = [1001; 1002]
  /\ snd (loadFromFile (cs "2025-01-15") (Some under_age_file) empty_store) = 2.
Proof. vm_compute. split; reflexivity. Qed.

(* ------------------------------------------------------------------ *)
(** ** Capacity *)

Lemma length_update_first id f l : length (update_first id f l) = length l.
Proof.
  induction l as [|x l IH]; cbn; [reflexivity|].
  destruct (has_id id x); cbn; congruence.
Qed.

Lemma store_inv_sync d st : store_inv st -> store_inv (syncAutoExpire d st).
Proof.
  unfold store_inv.
  rewrite syncAutoExpire_head, length_map, (proj1 (syncAutoExpire_counters d st)).
  auto.
Qed.

Lemma store_inv_set_head l st :
  length l = length (head st) -> store_inv st -> store_inv (set_head l st).
Proof. unfold store_inv. cbn. intros ->. auto. Qed.

Lemma store_inv_load d file st :
  store_inv st -> store_inv (fst (loadFromFile d file st)).
Proof.
  intros Hst. destruct file as [fp|]; [|exact Hst].
  unfold loadFromFile. fold (load_start st). cbn [fst].
  apply store_inv_sync.
  destruct (load_loop_inv fp st) as (_ & Hc & Hn & _).
  split; assumption.
Qed.

Lemma store_inv_init d st : store_inv (initTestData d st).
Proof.
  unfold initTestData. apply store_inv_sync. split; [reflexivity|cbn; lia].
Qed.

Lemma store_inv_startup d1 d2 file : store_inv (startup d1 d2 file).
Proof.
  unfold startup.
  pose proof (store_inv_load d1 file empty_store) as H.
  destruct (loadFromFile d1 file empty_store) as [st loaded]. cbn [fst] in H.
  destruct (loaded <=? 0); [apply store_inv_init|].
  apply H. split; [reflexivity|cbn; lia].
Qed.

Lemma store_inv_run c st : store_inv st -> store_inv (run c st).
Proof.
  intros Hst. destruct c as [d|d i|id ph|d id|d1 d2 id ch|id]; cbn [run].
  - now apply store_inv_sync.
  - unfold addMember.
    destruct (Z.geb_spec (member_count st) MAX_MEMBERS) as [|Hlt]; [exact Hst|].
    destruct Hst as [Hc Hn]. unfold MAX_MEMBERS in Hlt.
    unfold store_inv, appendNode. cbn. rewrite length_app. cbn [length].
    rewrite sint_id by (unfold int_range, INT_MAX; lia). lia.
  - unfold updateMemberPhone. destruct (findByCardID st id); [|exact Hst].
    cbn [fst]. apply store_inv_set_head; [apply length_update_first|exact Hst].
  - unfold deleteExpiredMember.
    pose proof (store_inv_sync d st Hst) as H1.
    destruct (findByCardID (syncAutoExpire d st) id) as [cur|] eqn:Hf;
      [|exact H1].
    destruct (is_active (data cur) =? 1); [exact H1|]. cbn [fst].
    unfold findByCardID in Hf.
    destruct (find_first_split id _ cur Hf) as (l1 & l2 & Hs & _ & _ & _ & Hd).
    destruct H1 as [Hc Hn]. rewrite Hs in Hc, Hn. rewrite length_app in Hc, Hn.
    cbn [length] in Hc, Hn.
    unfold store_inv. cbn [head member_count]. rewrite Hd, length_app.
    rewrite sint_id by (unfold int_range, INT_MAX; lia). lia.
  - unfold renewMember, renew_found.
    pose proof (store_inv_sync d1 st Hst) as H1.
    destruct (findByCardID (syncAutoExpire d1 st) id) as [p|]; [|exact H1].
    destruct (renew_node d2 ch p) as [p' r]. cbn [fst].
    apply store_inv_set_head; [apply length_update_first|exact H1].
  - unfold updateMemberStatus. destruct (findByCardID st id) as [p|]; [|exact Hst].
    destruct (is_active (data p) =? 0); [exact Hst|]. cbn [fst].
    apply store_inv_set_head; [apply length_update_first|exact Hst].
Qed.

Lemma reachable_store_inv st : reachable st -> store_inv st.
Proof.
  induction 1 as [d1 d2 file|c st _ IH _];
    [apply store_inv_startup|now apply store_inv_run].
Qed.

Lemma load_line_full buf a :
  100 <= member_count (l_store a) -> snd (load_line buf a) = a.
Proof.
  intros H. unfold load_line.
  destruct (trim_newline (c_str buf)) as [|c0 line]; [reflexivity|].
  destruct (split_fields (c0 :: line)) as [f|]; [|reflexivity].
  destruct (negb (fields_ok f)); [reflexivity|].
  destruct (Z.geb_spec (member_count (l_store a)) MAX_MEMBERS) as [|Hlt];
    [reflexivity|]. unfold MAX_MEMBERS in Hlt. lia.
Qed.

(** C10. A store the program can hold has at most 100 records, and its
    count is their number.  With 100 records an insertion is refused and
    changes nothing, the next card number included.  Once the loop of the
    load has 100 records, the rest of the file leaves its variables as they
    are, whatever the lines hold. *)
Theorem capacity_bound (st : Store) :
  reachable st ->
  ((length (head st) <= 100)%nat /\ member_count st = Z.of_nat (length (head st)))
  /\ (forall d i st0, 100 <= member_count st0 -> addMember d i st0 = (st0, AddFull))
  /\ (forall fp a, 100 <= member_count (l_store a) -> load_loop fp a = a).
Proof.
  intros Hr. destruct (reachable_store_inv st Hr) as [Hc Hn].
  split; [split; assumption|]. split.
  - intros d i st0 H. unfold addMember, MAX_MEMBERS.
    destruct (Z.geb_spec (member_count st0) 100); [reflexivity|lia].
  - intros fp a H.
    apply (load_loop_invariant (fun x => x = a)); [|reflexivity].
    intros buf a0 ->. now apply load_line_full.
Qed.

Lemma capacity_bound_witness :
  (length (head (run (CAdd (cs "2025-01-15")
                           (mkAddInput (cs "Sun") (cs "女") 40
                                       (cs "13555555555") Monthly))
                     (startup (cs "2025-01-15") (cs "2025-01-15")
                              (Some under_age_file)))) <= 100)%nat
  /\ addMember (cs "2025-01-15")
               (mkAddInput (cs "Sun") (cs "女") 40 (cs "13555555555") Monthly)
               full_store = (full_store, AddFull)
  /\ load_loop under_age_file
               {| l_store := full_store; l_loaded := 100; l_max_id := 1100 |}
     = {| l_store := full_store; l_loaded := 100; l_max_id := 1100 |}.
Proof.
  pose proof (capacity_bound _
    (reach_step (CAdd (cs "2025-01-15")
                      (mkAddInput (cs "Sun") (cs "女") 40 (cs "13555555555")
                                  Monthly))
                _ (reach_start (cs "2025-01-15") (cs "2025-01-15")
                               (Some under_age_file))
                eq_refl)) as [[Hn _] [Hadd Hload]].
  split; [exact Hn|]. split.
  - apply Hadd. vm_compute. discriminate.
  - apply Hload. vm_compute. discriminate.
Defined.

Example full_store_drops_valid_lines :
  fst (loadFromFile (cs "2025-01-15")
         (Some (concat (repeat (fmt_node scenario2_node) 100)
                ++ fmt_node scenario1_node))
         empty_store)
  = fst (loadFromFile (cs "2025-01-15")
           (Some (concat (repeat (fmt_node scenario2_node) 100)))
           empty_store)
  /\ snd (loadFromFile (cs "2025-01-15")
            (Some (concat (repeat (fmt_node scenario2_node) 100)
                   ++ fmt_node scenario1_node))
            empty_store) = 100.
Proof. vm_compute. split; reflexivity. Qed.

(* ------------------------------------------------------------------ *)
(** ** Printing and reading numbers *)

Lemma code_chr z : 0 <= z < 256 -> code (chr z) = z.
Proof.
  intros H. unfold code, chr. rewrite N_ascii_embedding by lia. lia.
Qed.

Lemma digit_chr_digit k :
  0 <= k <= 9 -> isdigit (digit_chr k) = true /\ digit_val (digit_chr k) = k.
Proof.
  intros H. unfold isdigit, digit_val, digit_chr. rewrite code_chr by lia.
  split; [|lia]. apply andb_true_iff. split; apply Z.leb_le; lia.
Qed.

Lemma read_digits_all l acc :
  Forall (fun c => isdigit c = true) l ->
  read_digits l acc
  = (fold_left (fun a c => a * 10 + digit_val c) l acc, []).
Proof.
  revert acc. induction l as [|c l IH]; intros acc H; cbn; [reflexivity|].
  inversion H as [|? ? Hc Hl]; subst. rewrite Hc. now apply IH.
Qed.

(** The digits printed for [n] are digits, at least one and at most [fuel],
    and read back as [n]. *)
Lemma dec_digits_spec fuel n :
  0 <= n < 10 ^ Z.of_nat fuel -> (0 < fuel)%nat ->
  Forall (fun c => isdigit c = true) (dec_digits fuel n)
  /\ dec_digits fuel n <> []
  /\ (length (dec_digits fuel n) <= fuel)%nat
  /\ fold_left (fun a c => a * 10 + digit_val c) (dec_digits fuel n) 0 = n.
Proof.
  revert n. induction fuel as [|f IH]; intros n Hn Hf; [lia|].
  cbn [dec_digits]. destruct (Z.ltb_spec n 10) as [Hlt|Hge].
  - destruct (digit_chr_digit n ltac:(lia)) as [Hd Hv].
    repeat split; cbn; [constructor; [exact Hd|constructor]|discriminate|lia|lia].
  - rewrite Nat2Z.inj_succ, Z.pow_succ_r in Hn by lia.
    assert (Hf' : (0 < f)%nat).
    { destruct f; [cbn in Hn; lia|lia]. }
    destruct (IH (n / 10) ltac:(lia) Hf') as (Ha & Hne & Hlen & Hval).
    destruct (digit_chr_digit (n mod 10) ltac:(lia)) as [Hd Hv].
    repeat split.
    + apply Forall_app. split; [exact Ha|constructor; [exact Hd|constructor]].
    + intros E. apply app_eq_nil in E. destruct E as [_ E]. discriminate E.
    + rewrite length_app. cbn. lia.
    + rewrite fold_left_app. cbn [fold_left]. rewrite Hval, Hv. lia.
Qed.

Lemma digit_not_special c :
  isdigit c = true ->
  isspace c = false /\ Ascii.eqb c "-" = false /\ Ascii.eqb c "+" = false
  /\ field_char c = true.
Proof.
  destruct c as [[] [] [] [] [] [] [] []]; vm_compute; intros H;
    first [discriminate H | repeat split].
Qed.

Lemma scan_int_digits l :
  Forall (fun c => isdigit c = true) l -> l <> [] ->
  scan_int l = Some (fold_left (fun a c => a * 10 + digit_val c) l 0, []).
Proof.
  intros Hl Hne. destruct l as [|c l]; [contradiction|].
  inversion Hl as [|? ? Hc Hr]; subst.
  destruct (digit_not_special c Hc) as (Hs & Hm & Hp & _).
  unfold scan_int. cbn [skip_space]. rewrite Hs, Hm, Hp, Hc.
  rewrite (read_digits_all (c :: l) 0 Hl). reflexivity.
Qed.

Lemma scan_int_fmt_d v :
  - 10 ^ 20 < v < 10 ^ 20 -> scan_int (fmt_d v) = Some (v, []).
Proof.
  intros Hv. unfold fmt_d. destruct (Z.ltb_spec v 0) as [Hneg|Hpos].
  - destruct (dec_digits_spec 20 (- v) ltac:(lia) ltac:(lia))
      as (Ha & Hne & _ & Hval).
    destruct (dec_digits 20 (- v)) as [|c l] eqn:E; [contradiction|].
    inversion Ha as [|? ? Hc Hr]; subst.
    unfold scan_int. cbn [skip_space].
    change (isspace "-") with false. cbn iota.
    change (Ascii.eqb "-" "-") with true. cbn iota. rewrite Hc.
    rewrite (read_digits_all (c :: l) 0 Ha), Hval. f_equal. f_equal. lia.
  - destruct (dec_digits_spec 20 v ltac:(lia) ltac:(lia))
      as (Ha & Hne & _ & Hval).
    rewrite (scan_int_digits _ Ha Hne), Hval. reflexivity.
Qed.

Lemma atoi_fmt_d v : int_range v -> atoi (fmt_d v) = v.
Proof.
  intros H. unfold atoi. rewrite scan_int_fmt_d.
  - now apply sint_id.
  - unfold int_range, INT_MAX in H. lia.
Qed.

Lemma atol_fmt_d v : long_range v -> atol (fmt_d v) = v.
Proof.
  intros H. unfold atol. rewrite scan_int_fmt_d.
  - now apply slong_id.
  - unfold long_range, LONG_MAX in H. lia.
Qed.

(** A printed number is a field: not empty, at most 21 bytes, no delimiter
    and no line break. *)
Lemma fmt_d_field v :
  - 10 ^ 20 < v < 10 ^ 20 ->
  fmt_d v <> [] /\ (length (fmt_d v) <= 21)%nat
  /\ Forall (fun c => field_char c = true) (fmt_d v).
Proof.
  intros Hv. unfold fmt_d. destruct (Z.ltb_spec v 0) as [Hneg|Hpos].
  - destruct (dec_digits_spec 20 (- v) ltac:(lia) ltac:(lia))
      as (Ha & _ & Hlen & _).
    repeat split; [discriminate|cbn [length]; lia|].
    constructor; [reflexivity|].
    eapply Forall_impl; [|exact Ha]. intros c Hc. now apply digit_not_special.
  - destruct (dec_digits_spec 20 v ltac:(lia) ltac:(lia))
      as (Ha & Hne & Hlen & _).
    repeat split; [exact Hne|lia|].
    eapply Forall_impl; [|exact Ha]. intros c Hc. now apply digit_not_special.
Qed.

Example fmt_d_examples :
  fmt_d 1001 = cs "1001" /\ fmt_d 0 = cs "0" /\ fmt_d (-42) = cs "-42"
  /\ fmt_d LONG_MAX = cs "9223372036854775807".
Proof. vm_compute. repeat split; reflexivity. Qed.

(* ------------------------------------------------------------------ *)
(** ** Reading back what was written *)

Lemma field_char_inv c :
  field_char c = true ->
  Ascii.eqb c bar = false /\ Ascii.eqb c CR = false
  /\ Ascii.eqb c LF = false /\ Ascii.eqb c NUL = false.
Proof.
  unfold field_char. rewrite negb_true_iff, !orb_false_iff. tauto.
Qed.

Lemma is_field_in_line t : is_field t -> in_line t.
Proof.
  intros H. eapply Forall_impl; [|exact H]. intros c Hc.
  apply field_char_inv in Hc. tauto.
Qed.

Lemma cut_token_app t r : is_field t -> cut_token (t ++ bar :: r) = (t, r).
Proof.
  induction 1 as [|c t Hc _ IH]; cbn [app cut_token].
  - rewrite Ascii.eqb_refl. reflexivity.
  - apply field_char_inv in Hc. destruct Hc as (Hb & _).
    rewrite Hb, IH. reflexivity.
Qed.

Lemma cut_token_end t : is_field t -> cut_token t = (t, []).
Proof.
  induction 1 as [|c t Hc _ IH]; cbn [cut_token]; [reflexivity|].
  apply field_char_inv in Hc. destruct Hc as (Hb & _).
  rewrite Hb, IH. reflexivity.
Qed.

Lemma strtok_app t r :
  t <> [] -> is_field t -> strtok (t ++ bar :: r) = Some (t, r).
Proof.
  intros Hne Hf. unfold strtok. destruct t as [|c t]; [contradiction|].
  pose proof (cut_token_app (c :: t) r Hf) as E.
  inversion Hf as [|? ? Hc _]; subst.
  apply field_char_inv in Hc. destruct Hc as (Hb & _).
  cbn [app skip_bars] in *. rewrite Hb. f_equal. exact E.
Qed.

Lemma strtok_end t : t <> [] -> is_field t -> strtok t = Some (t, []).
Proof.
  intros Hne Hf. unfold strtok. destruct t as [|c t]; [contradiction|].
  pose proof (cut_token_end (c :: t) Hf) as E.
  inversion Hf as [|? ? Hc _]; subst.
  apply field_char_inv in Hc. destruct Hc as (Hb & _).
  cbn [skip_bars] in *. rewrite Hb. f_equal. exact E.
Qed.

Lemma c_str_line body : in_line body -> c_str (body ++ [LF]) = body ++ [LF].
Proof.
  induction 1 as [|c t (_ & _ & Hn) _ IH]; cbn [app c_str]; [reflexivity|].
  rewrite Hn. f_equal. exact IH.
Qed.

Lemma trim_newline_line body : in_line body -> trim_newline (body ++ [LF]) = body.
Proof.
  induction 1 as [|c t (Hc & Hl & _) _ IH]; cbn [app trim_newline].
  - rewrite Ascii.eqb_refl, orb_true_r. reflexivity.
  - rewrite Hc, Hl. cbn [orb]. f_equal. exact IH.
Qed.

Lemma fgets_line n body rest :
  in_line body -> (length body < n)%nat ->
  fgets n (body ++ LF :: rest) = (body ++ [LF], rest).
Proof.
  intros H. revert n. induction H as [|c t (_ & Hl & _) _ IH]; intros n Hn.
  - destruct n as [|k]; [cbn in Hn; lia|]. cbn [app].
    rewrite fgets_cons, Ascii.eqb_refl. reflexivity.
  - destruct n as [|k]; [cbn in Hn; lia|]. cbn [app]. rewrite fgets_cons, Hl.
    rewrite IH by (cbn in Hn; lia). reflexivity.
Qed.

Lemma firstn_short {A} n (l : list A) : (length l <= n)%nat -> firstn n l = l.
Proof. intros H. now apply firstn_all2. Qed.

(** Nine fields joined by the delimiter come apart as the nine fields. *)
Lemma split_fields_joined t1 t2 t3 t4 t5 t6 t7 t8 t9 :
  (t1 <> [] /\ is_field t1) -> (t2 <> [] /\ is_field t2) ->
  (t3 <> [] /\ is_field t3) -> (t4 <> [] /\ is_field t4) ->
  (t5 <> [] /\ is_field t5) -> (t6 <> [] /\ is_field t6) ->
  (t7 <> [] /\ is_field t7) -> (t8 <> [] /\ is_field t8) ->
  (t9 <> [] /\ is_field t9) ->
  split_fields (t1 ++ bar :: t2 ++ bar :: t3 ++ bar :: t4 ++ bar :: t5 ++ bar ::
                t6 ++ bar :: t7 ++ bar :: t8 ++ bar :: t9)
  = Some {| f_card_id := atoi t1;
            f_name := strncpy_buf 30 t2;
            f_gender := strncpy_buf 10 t3;
            f_age := atoi t4;
            f_phone := strncpy_buf 15 t5;
            f_join_date := strncpy_buf 12 t6;
            f_mtype := strncpy_buf 10 t7;
            f_is_active := atoi t8;
            f_bonus_days := atol t9 |}.
Proof.
  intros [N1 F1] [N2 F2] [N3 F3] [N4 F4] [N5 F5] [N6 F6] [N7 F7] [N8 F8] [N9 F9].
  unfold split_fields.
  rewrite (strtok_app t1 _ N1 F1), (strtok_app t2 _ N2 F2),
          (strtok_app t3 _ N3 F3), (strtok_app t4 _ N4 F4),
          (strtok_app t5 _ N5 F5), (strtok_app t6 _ N6 F6),
          (strtok_app t7 _ N7 F7), (strtok_app t8 _ N8 F8),
          (strtok_end t9 N9 F9).
  reflexivity.
Qed.

Lemma gender_token g :
  strcmp_eq g (cs "男") || strcmp_eq g (cs "女") = true ->
  g <> [] /\ (length g <= 9)%nat /\ is_field g.
Proof.
  rewrite orb_true_iff, !strcmp_eq_iff.
  intros [-> | ->]; repeat split; try discriminate; try (cbn; lia);
    repeat constructor.
Qed.

Lemma type_token t :
  getDurationDays t <> 0 -> t <> [] /\ (length t <= 9)%nat /\ is_field t.
Proof.
  unfold getDurationDays.
  destruct (strcmp_eq t (cs "月卡")) eqn:E1;
    [|destruct (strcmp_eq t (cs "季卡")) eqn:E2;
      [|destruct (strcmp_eq t (cs "年卡")) eqn:E3; [|congruence]]];
    intros _;
    match goal with H : strcmp_eq _ _ = true |- _ => apply strcmp_eq_iff in H end;
    subst t; repeat split; try discriminate; try (cbn; lia);
    repeat constructor.
Qed.

Lemma phone_token ph :
  isValidPhone ph = true -> ph <> [] /\ (length ph <= 14)%nat /\ is_field ph.
Proof.
  intros H. apply isValidPhone_iff in H. destruct H as [Hl Hd].
  repeat split.
  - intros ->. discriminate Hl.
  - lia.
  - eapply Forall_impl; [|exact Hd]. intros c Hc. now apply digit_not_special.
Qed.

Lemma forallb_is_field t : forallb field_char t = true -> is_field t.
Proof. intros H. apply Forall_forall. now apply forallb_forall. Qed.

Lemma dateToDays_nil_zero t : dateToDays t <> 0 -> t <> [].
Proof. intros H ->. apply H. reflexivity. Qed.

(** What a storable record gives, field by field. *)
Lemma storable_fields p :
  storable p = true ->
  let m := data p in
  (0 < card_id m /\ int_range (card_id m))
  /\ (name m <> [] /\ (length (name m) <= 29)%nat /\ is_field (name m))
  /\ (strcmp_eq (gender m) (cs "男") || strcmp_eq (gender m) (cs "女") = true)
  /\ isValidAge (age m) = true
  /\ isValidPhone (phone m) = true
  /\ (join_date m <> [] /\ (length (join_date m) <= 11)%nat
      /\ is_field (join_date m) /\ dateToDays (join_date m) <> 0)
  /\ getDurationDays (membership_type m) <> 0
  /\ (is_active m = 0 \/ is_active m = 1)
  /\ long_range (bonus_days p).
Proof.
  unfold storable. cbn zeta. rewrite !andb_true_iff.
  intros ((((((((((((((H1 & H2) & H3) & H4) & H5) & H6) & H7) & H8) & H9)
                 & H10) & H11) & H12) & H13) & H14) & H15).
  apply Z.ltb_lt in H1. apply Z.leb_le in H2.
  apply negb_true_iff, Nat.eqb_neq in H3. apply Nat.leb_le in H4, H9.
  apply forallb_is_field in H5, H10.
  apply negb_true_iff, Z.eqb_neq in H11, H12.
  apply orb_true_iff in H13. rewrite !Z.eqb_eq in H13.
  apply Z.leb_le in H14, H15.
  repeat split; try assumption; try lia.
  - intros E. rewrite E in H3. now apply H3.
  - now apply dateToDays_nil_zero.
Qed.

Lemma isValidAge_range a : isValidAge a = true -> 18 <= a <= 80.
Proof.
  unfold isValidAge. rewrite andb_true_iff, !Z.leb_le. tauto.
Qed.

Lemma in_line_app a b : in_line a -> in_line b -> in_line (a ++ b).
Proof. intros Ha Hb. apply Forall_app. split; assumption. Qed.

Lemma in_line_bar t : in_line t -> in_line (bar :: t).
Proof. intros H. constructor; [repeat split|exact H]. Qed.

(** The line written for a storable record is read back as its fields. *)
Lemma fmt_line_reads p :
  storable p = true ->
  in_line (fmt_line p)
  /\ (0 < length (fmt_line p) < 200)%nat
  /\ split_fields (fmt_line p)
     = Some {| f_card_id := card_id (data p); f_name := name (data p);
               f_gender := gender (data p); f_age := age (data p);
               f_phone := phone (data p); f_join_date := join_date (data p);
               f_mtype := membership_type (data p);
               f_is_active := is_active (data p);
               f_bonus_days := bonus_days p |}.
Proof.
  intros Hs. destruct (storable_fields p Hs)
    as ((Hid0 & Hid) & (Nn & Ln & Fn) & Hg & Ha & Hp & (Nj & Lj & Fj & Hj)
        & Ht & Hact & Hb).
  cbn zeta in *.
  apply isValidAge_range in Ha.
  destruct (gender_token _ Hg) as (Ng & Lg & Fg).
  destruct (type_token _ Ht) as (Nt & Lt & Ft).
  destruct (phone_token _ Hp) as (Np & Lp & Fp).
  unfold int_range, INT_MAX in Hid. unfold long_range, LONG_MAX in Hb.
  destruct (fmt_d_field (card_id (data p)) ltac:(lia)) as (N1 & L1 & F1).
  destruct (fmt_d_field (age (data p)) ltac:(lia)) as (N4 & L4 & F4).
  destruct (fmt_d_field (is_active (data p)) ltac:(lia)) as (N8 & L8 & F8).
  destruct (fmt_d_field (bonus_days p) ltac:(lia)) as (N9 & L9 & F9).
  split; [|split].
  - unfold fmt_line. cbn zeta.
    repeat (first [ apply in_line_app | apply in_line_bar ]);
      now apply is_field_in_line.
  - unfold fmt_line. cbn zeta.
    rewrite !length_app. cbn [length]. rewrite !length_app. cbn [length].
    repeat rewrite length_app; cbn [length].
    destruct (fmt_d (card_id (data p))); [contradiction|]. cbn [length] in *.
    split; [lia|].
    repeat (rewrite ?length_app; cbn [length]). lia.
  - unfold fmt_line. cbn zeta.
    rewrite split_fields_joined by (split; assumption).
    unfold strncpy_buf.
    rewrite !firstn_short by (cbn; lia).
    rewrite !atoi_fmt_d, atol_fmt_d;
      try (unfold int_range, INT_MAX; lia);
      try (unfold long_range, LONG_MAX; lia).
    reflexivity.
Qed.

Lemma fields_ok_storable p :
  storable p = true ->
  fields_ok {| f_card_id := card_id (data p); f_name := name (data p);
               f_gender := gender (data p); f_age := age (data p);
               f_phone := phone (data p); f_join_date := join_date (data p);
               f_mtype := membership_type (data p);
               f_is_active := is_active (data p);
               f_bonus_days := bonus_days p |} = true.
Proof.
  intros Hs. destruct (storable_fields p Hs)
    as ((Hid0 & _) & _ & Hg & Ha & Hp & (_ & _ & _ & Hj) & Ht & Hact & _).
  cbn zeta in *. unfold fields_ok.
  cbn [f_card_id f_age f_phone f_gender f_mtype f_is_active f_join_date].
  destruct (Z.leb_spec (card_id (data p)) 0); [lia|].
  rewrite Ha, Hp, Hg. cbn [negb].
  destruct (Z.eqb_spec (getDurationDays (membership_type (data p))) 0);
    [contradiction|].
  destruct (Z.eqb_spec (dateToDays (join_date (data p))) 0); [contradiction|].
  destruct Hact as [-> | ->]; reflexivity.
Qed.

Lemma node_of_fields_eta p :
  node_of_fields
    {| f_card_id := card_id (data p); f_name := name (data p);
       f_gender := gender (data p); f_age := age (data p);
       f_phone := phone (data p); f_join_date := join_date (data p);
       f_mtype := membership_type (data p);
       f_is_active := is_active (data p);
       f_bonus_days := bonus_days p |} = p.
Proof. destruct p as [[] ?]. reflexivity. Qed.

(** The loop takes the line written for a storable record and appends that
    record. *)
Lemma load_line_fmt_node p a :
  storable p = true -> member_count (l_store a) < 100 ->
  exists a',
    load_line (fmt_node p) a = (Continue, a')
    /\ head (l_store a') = head (l_store a) ++ [p].
Proof.
  intros Hs Hc. destruct (fmt_line_reads p Hs) as (Hin & Hlen & Hsplit).
  unfold load_line, fmt_node.
  rewrite (c_str_line _ Hin), (trim_newline_line _ Hin).
  destruct (fmt_line p) as [|c0 line] eqn:E; [cbn in Hlen; lia|].
  rewrite Hsplit, (fields_ok_storable p Hs). cbn [negb].
  destruct (Z.geb_spec (member_count (l_store a)) MAX_MEMBERS) as [Hge|_];
    [unfold MAX_MEMBERS in Hge; lia|].
  eexists. split; [reflexivity|].
  cbn [l_store appendNode head]. now rewrite node_of_fields_eta.
Qed.

Lemma load_loop_image l a :
  Forall (fun p => storable p = true) l ->
  load_inv a ->
  (length (head (l_store a)) + length l <= 100)%nat ->
  head (l_store (load_loop (concat (map fmt_node l)) a))
  = head (l_store a) ++ l.
Proof.
  intros Hl. revert a. induction Hl as [|p l Hp _ IH]; intros a Hinv Hcap.
  - cbn. simp load_loop. now rewrite app_nil_r.
  - cbn [map concat]. cbn [length] in Hcap.
    destruct (fmt_line_reads p Hp) as (Hin & Hlen & _).
    destruct Hinv as (Hld & Hcnt & Hn & Hmx).
    destruct (load_line_fmt_node p a Hp ltac:(lia)) as (a' & Hline & Hhead).
    assert (Hinv' : load_inv a').
    { pose proof (load_line_inv (fmt_node p) a
                    (conj Hld (conj Hcnt (conj Hn Hmx)))) as H.
      now rewrite Hline in H. }
    unfold fmt_node at 1. rewrite <- app_assoc. cbn [app].
    assert (Hget : fgets LINE_MAX (fmt_line p ++ LF :: concat (map fmt_node l))
                   = (fmt_line p ++ [LF], concat (map fmt_node l))).
    { apply fgets_line; [exact Hin|unfold LINE_MAX; lia]. }
    destruct (fmt_line p) as [|c0 body] eqn:E; [cbn in Hlen; lia|].
    cbn [app]. rewrite load_loop_cons.
    cbn [app] in Hget. rewrite Hget. cbn [fst snd].
    unfold fmt_node in Hline. rewrite E in Hline. cbn [app] in Hline.
    rewrite Hline, IH.
    + rewrite Hhead, <- app_assoc. reflexivity.
    + exact Hinv'.
    + rewrite Hhead, length_app. cbn [length]. lia.
Qed.

Lemma save_success_image env filename st fs fs' :
  saveToFile env filename st fs = (fs', 1) ->
  fs' filename = Some (file_image st).
Proof.
  unfold saveToFile, c_rename, c_remove.
  destruct (fopen_ok env); cbn [negb]; [|discriminate].
  destruct (rename_ok env); [|discriminate].
  destruct (remove_dest_ok env).
  - destruct (String.eqb_spec TEMP_FILE filename) as [<-|Hne].
    + rewrite fs_del_same. discriminate.
    + rewrite fs_del_other, fs_put_same by exact Hne.
      intros [= <-]. now rewrite fs_put_same.
  - rewrite fs_put_same. intros [= <-]. now rewrite fs_put_same.
Qed.

Lemma expire_node_cases t p :
  expire_node t p = p
  \/ (is_active (data p) = 1 /\ expire_node t p = set_is_active 0 p).
Proof.
  unfold expire_node.
  destruct (Z.eqb_spec (is_active (data p)) 1) as [E|_]; [|auto].
  destruct (slong (calcExpireDays p - t) <? 0); auto.
Qed.

(** The operator adds a member whose name holds the delimiter; the store
    is saved and loaded back; the new record is missing. *)
Lemma round_trip_delimiter_counterexample :
  reachable barred_store
  /\ map (fun p => card_id (data p)) (head barred_store)
     = [1001; 1002; 1003; 1004; 1005]
  /\ snd (saveToFile all_ok DATA_FILE barred_store empty_disk) = 1
  /\ map (fun p => card_id (data p))
         (head (fst (loadFromFile (cs "2025-12-15")
                       (fst (saveToFile all_ok DATA_FILE barred_store empty_disk)
                            DATA_FILE)
                       empty_store)))
     = [1001; 1002; 1003; 1004].
Proof.
  split; [|vm_compute; repeat split; reflexivity].
  unfold barred_store. apply reach_step; [apply reach_start|reflexivity].
Qed.

(** A store of at most 100 records that meet the constraints of the file
    format is read back as it was written, but for the flags that the
    synchronizer at the end of the load clears. *)
Lemma round_trip_storable (env : SaveEnv) (filename : string)
    (fs fs' : FileSystem) (st st0 : Store) (d : cstring) :
  Forall (fun p => storable p = true) (head st) ->
  (length (head st) <= 100)%nat ->
  saveToFile env filename st fs = (fs', 1) ->
  let r := loadFromFile d (fs' filename) st0 in
  head (fst r) = map (expire_node (dateToDays d)) (head st)
  /\ (forall p, expire_node (dateToDays d) p = p
                \/ (is_active (data p) = 1
                    /\ expire_node (dateToDays d) p = set_is_active 0 p))
  /\ member_count (fst r) = Z.of_nat (length (head st))
  /\ next_card_id (fst r) = sint (max_card_id (head st) + 1)
  /\ snd r = Z.of_nat (length (head st)).
Proof.
  intros Hs Hn Hsave. rewrite (save_success_image _ _ _ _ _ Hsave).
  cbn zeta. unfold loadFromFile, file_image. fold (load_start st0).
  pose proof (load_loop_image (head st) (load_start st0) Hs
                (load_start_inv st0) ltac:(cbn; lia)) as Hh.
  destruct (load_loop_inv (concat (map fmt_node (head st))) st0)
    as (Hld & Hcnt & _ & Hmx).
  set (a := load_loop (concat (map fmt_node (head st))) (load_start st0)) in *.
  cbn [load_start l_store freeAllMembers head app] in Hh.
  cbn [fst snd].
  rewrite syncAutoExpire_head, (proj1 (syncAutoExpire_counters _ _)),
          (proj2 (syncAutoExpire_counters _ _)).
  cbn [head member_count next_card_id].
  rewrite Hld, Hcnt, Hmx, Hh.
  repeat split. apply expire_node_cases.
Qed.

(* ------------------------------------------------------------------ *)
(** ** The stores of the program meet the file format *)

Lemma storable_intro p :
  0 < card_id (data p) -> card_id (data p) <= INT_MAX ->
  name (data p) <> [] -> (length (name (data p)) <= 29)%nat ->
  is_field (name (data p)) ->
  strcmp_eq (gender (data p)) (cs "男")
  || strcmp_eq (gender (data p)) (cs "女") = true ->
  isValidAge (age (data p)) = true ->
  isValidPhone (phone (data p)) = true ->
  (length (join_date (data p)) <= 11)%nat -> is_field (join_date (data p)) ->
  dateToDays (join_date (data p)) <> 0 ->
  getDurationDays (membership_type (data p)) <> 0 ->
  is_active (data p) = 0 \/ is_active (data p) = 1 ->
  long_range (bonus_days p) ->
  storable p = true.
Proof.
  intros H1 H2 H3 H4 H5 H6 H7 H8 H9 H10 H11 H12 H13 [H14 H15].
  unfold storable. cbn zeta. rewrite H6, H7, H8.
  rewrite (proj2 (Z.ltb_lt _ _) H1), (proj2 (Z.leb_le _ _) H2).
  rewrite (proj2 (Nat.leb_le _ _) H4), (proj2 (Nat.leb_le _ _) H9).
  rewrite (proj2 (Z.leb_le _ _) H14), (proj2 (Z.leb_le _ _) H15).
  assert (E3 : (length (name (data p)) =? 0)%nat = false).
  { apply Nat.eqb_neq. destruct (name (data p)); [contradiction|discriminate]. }
  assert (E5 : forallb field_char (name (data p)) = true)
    by (apply forallb_forall, Forall_forall; exact H5).
  assert (E10 : forallb field_char (join_date (data p)) = true)
    by (apply forallb_forall, Forall_forall; exact H10).
  rewrite E3, E5, E10.
  rewrite (proj2 (Z.eqb_neq _ _) H11), (proj2 (Z.eqb_neq _ _) H12).
  destruct H13 as [-> | ->]; reflexivity.
Qed.

Lemma storable_set_is_active v p :
  v = 0 \/ v = 1 -> storable p = true -> storable (set_is_active v p) = true.
Proof.
  intros Hv Hs. destruct (storable_fields p Hs)
    as ((A1 & A2) & (B1 & B2 & B3) & C & D & E & (F1 & F2 & F3 & F4) & G & _ & I).
  cbn zeta in *. unfold int_range in A2.
  apply storable_intro; cbn; try assumption; lia.
Qed.

Lemma storable_expire t p : storable p = true -> storable (expire_node t p) = true.
Proof.
  intros Hs. destruct (expire_node_cases t p) as [-> | [_ ->]]; [exact Hs|].
  apply storable_set_is_active; auto.
Qed.

Lemma storable_set_phone ph p :
  isValidPhone ph = true -> storable p = true -> storable (set_phone ph p) = true.
Proof.
  intros Hv Hs. destruct (storable_fields p Hs)
    as ((A1 & A2) & (B1 & B2 & B3) & C & D & E & (F1 & F2 & F3 & F4) & G & H & I).
  cbn zeta in *. unfold int_range in A2.
  apply storable_intro; cbn; try assumption; lia.
Qed.

Lemma clock_ok_inv d :
  clock_ok d = true ->
  (length d <= 11)%nat /\ is_field d /\ dateToDays d <> 0.
Proof.
  unfold clock_ok. rewrite !andb_true_iff.
  intros [[H1 H2] H3]. apply Nat.leb_le in H1.
  apply forallb_is_field in H2. apply negb_true_iff, Z.eqb_neq in H3. auto.
Qed.

Lemma storable_renew_node d c p :
  clock_ok d = true -> storable p = true ->
  storable (fst (renew_node d c p)) = true.
Proof.
  intros Hd Hs. destruct (clock_ok_inv d Hd) as (D1 & D2 & D3).
  destruct (storable_fields p Hs)
    as ((A1 & A2) & (B1 & B2 & B3) & C & D & E & (F1 & F2 & F3 & F4) & G & H & I).
  cbn zeta in *. unfold int_range in A2. unfold renew_node.
  destruct ((is_active (data p) =? 0)
            || (calcExpireDays p <? dateToDays d)); cbn [fst].
  - apply storable_intro; cbn [data card_id name gender age phone join_date
                                membership_type is_active bonus_days];
      try assumption; try lia; try (unfold long_range, LONG_MAX; lia).
    rewrite newDuration_duration. destruct c; discriminate.
  - destruct (negb (strcmp_eq (newType c) (membership_type (data p))));
      cbn [fst]; [exact Hs|].
    apply storable_intro; cbn [set_is_active data card_id name gender age phone
                                join_date membership_type is_active bonus_days];
      try assumption; try lia.
    apply slong_range.
Qed.

Lemma scanf_word_inv w :
  scanf_word w = true -> w <> [] /\ (length w <= 29)%nat.
Proof.
  unfold scanf_word. rewrite !andb_true_iff. intros [[H1 H2] _].
  apply negb_true_iff, Nat.eqb_neq in H1. apply Nat.leb_le in H2.
  split; [intros ->; now apply H1|exact H2].
Qed.

Lemma storable_added d i st :
  input_ok (CAdd d i) = true -> clean_command (CAdd d i) st = true ->
  storable (added d i st) = true.
Proof.
  cbn [input_ok clean_command]. rewrite !andb_true_iff.
  intros [[[Hw Hg] Ha] Hp] [[[Hd Hn] H0] Hm].
  destruct (clock_ok_inv d Hd) as (D1 & D2 & D3).
  destruct (scanf_word_inv _ Hw) as [W1 W2].
  apply Z.ltb_lt in H0. apply Z.leb_le in Hm. apply forallb_is_field in Hn.
  apply storable_intro; cbn [added data card_id name gender age phone join_date
                              membership_type is_active bonus_days];
    try assumption; try lia; try (unfold long_range, LONG_MAX; lia).
  rewrite newDuration_duration. destruct (in_type i); discriminate.
Qed.

Lemma Forall_update_first (P : Node -> Prop) id f l :
  (forall p, P p -> P (f p)) -> Forall P l -> Forall P (update_first id f l).
Proof.
  intros Hf. induction 1 as [|x l Hx Hl IH]; cbn; [constructor|].
  destruct (has_id id x); constructor; auto.
Qed.

Lemma Forall_unlink_first (P : Node -> Prop) id l :
  Forall P l -> Forall P (unlink_first id l).
Proof.
  induction 1 as [|x l Hx Hl IH]; cbn; [constructor|].
  destruct (has_id id x); [exact Hl|constructor; assumption].
Qed.

Lemma storable_sync d st :
  Forall (fun p => storable p = true) (head st) ->
  Forall (fun p => storable p = true) (head (syncAutoExpire d st)).
Proof.
  intros H. rewrite syncAutoExpire_head. apply Forall_map.
  eapply Forall_impl; [|exact H]. intros p. apply storable_expire.
Qed.

(** What [strtok] returns is a piece of the text, not empty and without
    delimiter. *)
Lemma cut_token_pieces (P : ascii -> Prop) s :
  Forall P s ->
  Forall (fun c => P c /\ Ascii.eqb c bar = false) (fst (cut_token s))
  /\ Forall P (snd (cut_token s)).
Proof.
  induction 1 as [|c s Hc Hs [IH1 IH2]]; cbn [cut_token]; [split; constructor|].
  destruct (Ascii.eqb c bar) eqn:E; cbn [fst snd]; [split; [constructor|exact Hs]|].
  destruct (cut_token s) as [t r]. cbn [fst snd] in *.
  split; [constructor; [split; assumption|exact IH1]|exact IH2].
Qed.

Lemma skip_bars_pieces (P : ascii -> Prop) s :
  Forall P s ->
  Forall P (skip_bars s)
  /\ (forall c r, skip_bars s = c :: r -> Ascii.eqb c bar = false).
Proof.
  induction 1 as [|c s Hc Hs [IH1 IH2]]; cbn [skip_bars];
    [split; [constructor|discriminate]|].
  destruct (Ascii.eqb c bar) eqn:E; [split; assumption|].
  split; [constructor; assumption|]. intros c' r [= <- _]. exact E.
Qed.

Lemma strtok_pieces (P : ascii -> Prop) s t r :
  Forall P s -> strtok s = Some (t, r) ->
  t <> [] /\ Forall (fun c => P c /\ Ascii.eqb c bar = false) t /\ Forall P r.
Proof.
  intros Hs. unfold strtok.
  destruct (skip_bars_pieces P s Hs) as [H1 H2].
  destruct (skip_bars s) as [|c s'] eqn:E; [discriminate|].
  specialize (H2 c s' eq_refl).
  destruct (cut_token_pieces P (c :: s') H1) as [Ht Hr].
  intros Hsome.
  assert (Hcut : cut_token (c :: s') = (t, r)) by congruence.
  rewrite Hcut in Ht, Hr. cbn [fst snd] in Ht, Hr.
  split; [|split; assumption].
  cbn [cut_token] in Hcut. rewrite H2 in Hcut.
  destruct (cut_token s'). injection Hcut as <- _. discriminate.
Qed.

Lemma c_str_no_nul buf : Forall (fun c => Ascii.eqb c NUL = false) (c_str buf).
Proof.
  induction buf as [|c buf IH]; cbn [c_str]; [constructor|].
  destruct (Ascii.eqb c NUL) eqn:E; constructor; assumption.
Qed.

Lemma line_text_in_line buf : in_line (line_text buf).
Proof.
  unfold line_text. pose proof (c_str_no_nul buf) as H.
  induction H as [|c s Hc _ IH]; cbn [trim_newline]; [constructor|].
  destruct (Ascii.eqb c CR) eqn:E1; cbn [orb]; [constructor|].
  destruct (Ascii.eqb c LF) eqn:E2; constructor; auto.
Qed.

Lemma token_is_field t :
  Forall (fun c => (Ascii.eqb c CR = false /\ Ascii.eqb c LF = false
                    /\ Ascii.eqb c NUL = false)
                   /\ Ascii.eqb c bar = false) t ->
  is_field t.
Proof.
  intros H. eapply Forall_impl; [|exact H].
  intros c ((H1 & H2 & H3) & H4). unfold field_char.
  now rewrite H1, H2, H3, H4.
Qed.

Lemma atoi_int_range s : int_range (atoi s).
Proof.
  unfold atoi. destruct (scan_int s) as [[v r]|]; [apply sint_range|].
  unfold int_range, INT_MAX. lia.
Qed.

Lemma atol_long_range s : long_range (atol s).
Proof.
  unfold atol. destruct (scan_int s) as [[v r]|]; [apply slong_range|].
  unfold long_range, LONG_MAX. lia.
Qed.

Lemma is_field_firstn n t : is_field t -> is_field (firstn n t).
Proof.
  intros H. apply Forall_forall. intros c Hc.
  unfold is_field in H. rewrite Forall_forall in H.
  apply H. eapply In_nth_error in Hc. destruct Hc as [k Hk].
  apply nth_error_In with (n := k).
  rewrite nth_error_firstn in Hk.
  destruct (k <? n)%nat; [exact Hk|discriminate].
Qed.

(** A line that passes the checks gives a record that meets the format. *)
Lemma storable_loaded line f :
  in_line line -> split_fields line = Some f -> fields_ok f = true ->
  storable (node_of_fields f) = true.
Proof.
  intros Hl Hs Hok. unfold split_fields in Hs.
  destruct (strtok line) as [[t1 r1]|] eqn:E1; [|discriminate].
  destruct (strtok_pieces _ _ _ _ Hl E1) as (_ & _ & L1).
  destruct (strtok r1) as [[t2 r2]|] eqn:E2; [|discriminate].
  destruct (strtok_pieces _ _ _ _ L1 E2) as (N2 & F2 & L2).
  destruct (strtok r2) as [[t3 r3]|] eqn:E3; [|discriminate].
  destruct (strtok_pieces _ _ _ _ L2 E3) as (_ & _ & L3).
  destruct (strtok r3) as [[t4 r4]|] eqn:E4; [|discriminate].
  destruct (strtok_pieces _ _ _ _ L3 E4) as (_ & _ & L4).
  destruct (strtok r4) as [[t5 r5]|] eqn:E5; [|discriminate].
  destruct (strtok_pieces _ _ _ _ L4 E5) as (_ & _ & L5).
  destruct (strtok r5) as [[t6 r6]|] eqn:E6; [|discriminate].
  destruct (strtok_pieces _ _ _ _ L5 E6) as (N6 & F6 & L6).
  destruct (strtok r6) as [[t7 r7]|]; [|discriminate].
  destruct (strtok r7) as [[t8 r8]|]; [|discriminate].
  destruct (strtok r8) as [[t9 r9]|]; [|discriminate].
  injection Hs as <-.
  unfold fields_ok in Hok.
  cbn [f_card_id f_age f_phone f_gender f_mtype f_is_active f_join_date] in Hok.
  destruct (Z.leb_spec (atoi t1) 0) as [|Hid]; [discriminate|].
  destruct (isValidAge (atoi t4)) eqn:Ha; [|discriminate].
  destruct (isValidPhone (strncpy_buf 15 t5)) eqn:Hp; [|discriminate].
  destruct (strcmp_eq (strncpy_buf 10 t3) (cs "男")
            || strcmp_eq (strncpy_buf 10 t3) (cs "女")) eqn:Hg; [|discriminate].
  destruct (Z.eqb_spec (getDurationDays (strncpy_buf 10 t7)) 0) as [|Ht];
    [discriminate|].
  destruct ((atoi t8 =? 0) || (atoi t8 =? 1)) eqn:Hact; [|discriminate].
  destruct (Z.eqb_spec (dateToDays (strncpy_buf 12 t6)) 0) as [|Hd];
    [discriminate|].
  apply orb_true_iff in Hact. rewrite !Z.eqb_eq in Hact.
  pose proof (atoi_int_range t1) as Hr. unfold int_range in Hr.
  apply storable_intro;
    cbn [node_of_fields data card_id name gender age phone join_date
         membership_type is_active bonus_days f_card_id f_name f_gender f_age
         f_phone f_join_date f_mtype f_is_active f_bonus_days];
    try assumption; try lia.
  - unfold strncpy_buf. destruct t2; [contradiction|discriminate].
  - unfold strncpy_buf. apply firstn_le_length.
  - apply is_field_firstn, token_is_field. exact F2.
  - unfold strncpy_buf. apply firstn_le_length.
  - apply is_field_firstn, token_is_field. exact F6.
  - apply atol_long_range.
Qed.

Lemma load_line_storable buf a :
  Forall (fun p => storable p = true) (head (l_store a)) ->
  Forall (fun p => storable p = true) (head (l_store (snd (load_line buf a)))).
Proof.
  intros H. unfold load_line.
  pose proof (line_text_in_line buf) as Hl. unfold line_text in Hl.
  destruct (trim_newline (c_str buf)) as [|c0 line]; [exact H|].
  destruct (split_fields (c0 :: line)) as [f|] eqn:Hs; [|exact H].
  destruct (fields_ok f) eqn:Hok; cbn [negb]; [|exact H].
  destruct (member_count (l_store a) >=? MAX_MEMBERS); [exact H|].
  cbn [snd l_store appendNode head]. apply Forall_app. split; [exact H|].
  constructor; [|constructor]. exact (storable_loaded _ f Hl Hs Hok).
Qed.

Lemma storable_load d file st :
  Forall (fun p => storable p = true) (head st) ->
  Forall (fun p => storable p = true) (head (fst (loadFromFile d file st))).
Proof.
  intros H. destruct file as [fp|]; [|exact H].
  unfold loadFromFile. cbn [fst]. apply storable_sync. cbn [head].
  apply (load_loop_invariant
           (fun a => Forall (fun p => storable p = true) (head (l_store a)))).
  - apply load_line_storable.
  - constructor.
Qed.

Lemma storable_startup d1 d2 file :
  Forall (fun p => storable p = true) (head (startup d1 d2 file)).
Proof.
  unfold startup.
  pose proof (storable_load d1 file empty_store (Forall_nil _)) as H.
  destruct (loadFromFile d1 file empty_store) as [st loaded]. cbn [fst] in H.
  destruct (loaded <=? 0); [|exact H].
  unfold initTestData. apply storable_sync. repeat constructor.
Qed.

Lemma storable_run c st :
  input_ok c = true -> clean_command c st = true ->
  Forall (fun p => storable p = true) (head st) ->
  Forall (fun p => storable p = true) (head (run c st)).
Proof.
  intros Hi Hc Hst. destruct c as [d|d i|id ph|d id|d1 d2 id ch|id]; cbn [run].
  - now apply storable_sync.
  - pose proof (storable_added d i st Hi Hc) as Hnew.
    unfold addMember. destruct (member_count st >=? MAX_MEMBERS); [exact Hst|].
    cbn [fst appendNode head]. apply Forall_app. split; [exact Hst|].
    constructor; [exact Hnew|constructor].
  - unfold updateMemberPhone. destruct (findByCardID st id); [|exact Hst].
    cbn [fst set_head head]. apply Forall_update_first; [|exact Hst].
    intros p. apply storable_set_phone. exact Hi.
  - unfold deleteExpiredMember.
    pose proof (storable_sync d st Hst) as H1.
    destruct (findByCardID (syncAutoExpire d st) id); [|exact H1].
    destruct (is_active (data n) =? 1); [exact H1|].
    cbn [fst head]. now apply Forall_unlink_first.
  - unfold renewMember, renew_found.
    pose proof (storable_sync d1 st Hst) as H1.
    destruct (findByCardID (syncAutoExpire d1 st) id) as [p|] eqn:Hf;
      [|exact H1].
    pose proof (storable_renew_node d2 ch p Hc) as Hp.
    destruct (renew_node d2 ch p) as [p' r]. cbn [fst set_head head] in *.
    apply Forall_update_first; [|exact H1]. intros _ _. apply Hp.
    unfold findByCardID in Hf. apply find_some_in in Hf.
    rewrite Forall_forall in H1. now apply H1.
  - unfold updateMemberStatus. destruct (findByCardID st id) as [p|]; [|exact Hst].
    destruct (is_active (data p) =? 0); [exact Hst|].
    cbn [fst set_head head]. apply Forall_update_first; [|exact Hst].
    intros q. apply storable_set_is_active. auto.
Qed.

Lemma reachable_clean_reachable st : reachable_clean st -> reachable st.
Proof.
  induction 1 as [d1 d2 file|c st _ IH Hi _];
    [apply reach_start|now apply reach_step].
Qed.

Lemma reachable_clean_storable st :
  reachable_clean st -> Forall (fun p => storable p = true) (head st).
Proof.
  induction 1 as [d1 d2 file|c st _ IH Hi Hc];
    [apply storable_startup|now apply storable_run].
Qed.

(** C6 (amended). Take a store the program reaches through commands that
    keep to the file format: the names typed for new members hold no
    delimiter and no line break, the clock gives dates that [dateToDays]
    accepts, and the card counter is within [int].  When it is saved and the
    file is loaded back, the store holds the same records, in the same order
    and with the same fields, bonus days included, but for the flag of the
    records that the synchronizer at the end of the load finds expired.  The
    count is their number, as is the value returned. *)
Theorem save_load_round_trip (env : SaveEnv) (filename : string)
    (fs fs' : FileSystem) (st st0 : Store) (d : cstring) :
  reachable_clean st ->
  saveToFile env filename st fs = (fs', 1) ->
  let r := loadFromFile d (fs' filename) st0 in
  head (fst r) = map (expire_node (dateToDays d)) (head st)
  /\ (forall p, expire_node (dateToDays d) p = p
                \/ (is_active (data p) = 1
                    /\ expire_node (dateToDays d) p = set_is_active 0 p))
  /\ member_count (fst r) = Z.of_nat (length (head st))
  /\ next_card_id (fst r) = sint (max_card_id (head st) + 1)
  /\ snd r = Z.of_nat (length (head st)).
Proof.
  intros Hr Hsave.
  apply (round_trip_storable env filename fs fs' st st0 d).
  - now apply reachable_clean_storable.
  - apply reachable_clean_reachable, reachable_store_inv in Hr.
    destruct Hr as [_ Hn]. exact Hn.
  - exact Hsave.
Qed.

Lemma save_load_round_trip_witness :
  head (fst (loadFromFile (cs "2025-12-20")
               (fst (saveToFile all_ok DATA_FILE clean_store old_disk)
                    DATA_FILE)
               empty_store))
  = map (expire_node (dateToDays (cs "2025-12-20"))) (head clean_store).
Proof.
  refine (proj1 (save_load_round_trip all_ok DATA_FILE old_disk _
                   clean_store empty_store (cs "2025-12-20") _ _)).
  - unfold clean_store. apply clean_step; [apply clean_start| |]; reflexivity.
  - reflexivity.
Defined.

Example round_trip_keeps_bonus_days :
  let st := fst (renew_found (cs "2025-01-20") 1001 Monthly scenario2_store) in
  head (fst (loadFromFile (cs "2025-01-20")
               (fst (saveToFile all_ok DATA_FILE st empty_disk) DATA_FILE)
               empty_store))
  = head st.
Proof. vm_compute. reflexivity. Qed.

(* ================================================================== *)
(** * Further properties of the program *)

(* ------------------------------------------------------------------ *)
(** ** The clock *)

Lemma dec_digits_fuel f g n :
  0 <= n < 10 ^ Z.of_nat f -> (0 < f <= g)%nat ->
  dec_digits g n = dec_digits f n.
Proof.
  revert g n. induction f as [|f IH]; intros g n Hn Hg; [lia|].
  destruct g as [|g]; [lia|]. cbn [dec_digits].
  destruct (Z.ltb_spec n 10); [reflexivity|].
  rewrite Nat2Z.inj_succ, Z.pow_succ_r in Hn by lia.
  destruct f as [|f]; [change (10 ^ Z.of_nat 0) with 1 in Hn; lia|].
  rewrite (IH g (n / 10)) by lia. reflexivity.
Qed.

Lemma dec_digits_length k n :
  0 <= n < 10 ^ Z.of_nat k -> (0 < k <= 20)%nat ->
  (0 < length (dec_digits 20 n) <= k)%nat.
Proof.
  intros Hn Hk. rewrite (dec_digits_fuel k 20 n Hn) by lia.
  destruct (dec_digits_spec k n Hn ltac:(lia)) as (_ & Hne & Hlen & _).
  destruct (dec_digits k n); [contradiction|cbn [length] in *; lia].
Qed.

Lemma read_digits_app l r acc :
  Forall (fun c => isdigit c = true) l ->
  read_digits (l ++ r) acc
  = read_digits r (fold_left (fun a c => a * 10 + digit_val c) l acc).
Proof.
  intros H. revert acc. induction H as [|c l Hc _ IH]; intros acc; cbn [app].
  - reflexivity.
  - cbn [read_digits fold_left]. rewrite Hc. apply IH.
Qed.

Lemma read_digits_stop c r acc :
  isdigit c = false -> read_digits (c :: r) acc = (acc, c :: r).
Proof. intros H. cbn [read_digits]. now rewrite H. Qed.

Lemma zeros_value k :
  fold_left (fun a c => a * 10 + digit_val c) (repeat "0"%char k) 0 = 0.
Proof. induction k as [|k IH]; cbn [repeat fold_left]; [reflexivity|exact IH]. Qed.

Lemma zeros_digits k : Forall (fun c => isdigit c = true) (repeat "0"%char k).
Proof. induction k; cbn [repeat]; constructor; auto. Qed.

(** A number printed with leading zeros, then a byte that is no digit, is
    read back as the number, and the reading stops at that byte. *)
Lemma scan_int_fmt_0d w v c r :
  0 <= v < 10 ^ 20 -> isdigit c = false ->
  scan_int (fmt_0d w v ++ c :: r) = Some (v, c :: r).
Proof.
  intros Hv Hc. unfold fmt_0d. destruct (Z.ltb_spec v 0); [lia|].
  destruct (dec_digits_spec 20 v ltac:(lia) ltac:(lia)) as (Ha & Hne & _ & Hval).
  set (z := repeat "0"%char (w - length (dec_digits 20 v))).
  assert (Hall : Forall (fun x => isdigit x = true) (z ++ dec_digits 20 v))
    by (apply Forall_app; split; [apply zeros_digits|exact Ha]).
  assert (Hval' : fold_left (fun a x => a * 10 + digit_val x)
                            (z ++ dec_digits 20 v) 0 = v)
    by (rewrite fold_left_app; unfold z; rewrite zeros_value; exact Hval).
  destruct (z ++ dec_digits 20 v) as [|x l] eqn:E.
  - apply app_eq_nil in E. destruct E as [_ E]. contradiction.
  - pose proof (Forall_inv Hall) as Hx. cbn beta in Hx.
    destruct (digit_not_special x Hx) as (Hs & Hm & Hp & _).
    unfold scan_int. cbn [app skip_space]. rewrite Hs, Hm, Hp, Hx.
    change (x :: l ++ c :: r) with ((x :: l) ++ c :: r).
    rewrite (read_digits_app (x :: l) (c :: r) 0 Hall), Hval'.
    rewrite (read_digits_stop c r v Hc). reflexivity.
Qed.

Lemma scan_int_fmt_0d_end w v :
  0 <= v < 10 ^ 20 -> scan_int (fmt_0d w v) = Some (v, []).
Proof.
  intros Hv. unfold fmt_0d. destruct (Z.ltb_spec v 0); [lia|].
  destruct (dec_digits_spec 20 v ltac:(lia) ltac:(lia)) as (Ha & Hne & _ & Hval).
  rewrite scan_int_digits.
  - rewrite fold_left_app, zeros_value, Hval. reflexivity.
  - apply Forall_app. split; [apply zeros_digits|exact Ha].
  - intros E. apply app_eq_nil in E. destruct E as [_ E]. contradiction.
Qed.

Lemma fmt_0d_field w k v :
  0 <= v < 10 ^ Z.of_nat k -> (0 < k <= w)%nat -> (w <= 20)%nat ->
  length (fmt_0d w v) = w /\ is_field (fmt_0d w v).
Proof.
  intros Hv Hk Hw. unfold fmt_0d. destruct (Z.ltb_spec v 0); [lia|].
  destruct (dec_digits_length k v Hv ltac:(lia)) as [L1 L2].
  assert (Hv20 : 0 <= v < 10 ^ Z.of_nat 20).
  { split; [lia|]. apply Z.lt_le_trans with (10 ^ Z.of_nat k); [lia|].
    apply Z.pow_le_mono_r; lia. }
  destruct (dec_digits_spec 20 v Hv20 ltac:(lia)) as (Ha & _).
  split.
  - rewrite length_app, repeat_length. lia.
  - apply Forall_app. split.
    + eapply Forall_impl; [|apply zeros_digits].
      intros c Hc. now apply digit_not_special.
    + eapply Forall_impl; [|exact Ha]. intros c Hc. now apply digit_not_special.
Qed.

Lemma month_length_le_31 y m d : d <= month_length y m -> d <= 31.
Proof. pose proof (month_length_bounds y m). lia. Qed.

(** X1. Whatever date the clock gives between the years 1 and 9999, the
    text [getSystemDate] writes has ten bytes (it fits the twelve of the
    callers' buffers), is read back by [dateToDays] as the same year, month
    and day, and gets the ordinal of that date: the clock is never taken
    for the sentinel. *)
Theorem clock_text_is_accepted (t : tm) :
  1 <= tm_year t + 1900 <= 9999 ->
  calendar_date (tm_year t + 1900) (tm_mon t + 1) (tm_mday t) ->
  length (getSystemDate t) = 10%nat
  /\ sscanf_date (getSystemDate t)
     = Some (tm_year t + 1900, tm_mon t + 1, tm_mday t)
  /\ dateToDays (getSystemDate t)
     = ordinal (tm_year t + 1900, tm_mon t + 1, tm_mday t)
  /\ 0 < dateToDays (getSystemDate t)
  /\ clock_ok (getSystemDate t) = true.
Proof.
  intros Hy Hc. pose proof Hc as (_ & Hm & Hd).
  pose proof (month_length_le_31 _ _ _ (proj2 Hd)) as Hd31.
  unfold getSystemDate.
  rewrite (sint_id (tm_year t + 1900)), (sint_id (tm_mon t + 1))
    by (unfold int_range, INT_MAX; lia).
  set (y := tm_year t + 1900) in *. set (m := tm_mon t + 1) in *.
  set (d := tm_mday t) in *.
  destruct (fmt_0d_field 4 4 y ltac:(cbn; lia) ltac:(lia) ltac:(lia)) as [Ly Fy].
  destruct (fmt_0d_field 2 2 m ltac:(cbn; lia) ltac:(lia) ltac:(lia)) as [Lm Fm].
  destruct (fmt_0d_field 2 2 d ltac:(cbn; lia) ltac:(lia) ltac:(lia)) as [Ld Fd].
  assert (Hlen : length (fmt_0d 4 y ++ "-"%char :: fmt_0d 2 m
                         ++ "-"%char :: fmt_0d 2 d) = 10%nat).
  { rewrite length_app. cbn [length]. rewrite length_app. cbn [length]. lia. }
  assert (Hscan : sscanf_date (fmt_0d 4 y ++ "-"%char :: fmt_0d 2 m
                               ++ "-"%char :: fmt_0d 2 d) = Some (y, m, d)).
  { unfold sscanf_date.
    rewrite (scan_int_fmt_0d 4 y "-"%char _ ltac:(lia) eq_refl).
    change (Ascii.eqb "-" "-") with true. cbn iota.
    rewrite (scan_int_fmt_0d 2 m "-"%char _ ltac:(lia) eq_refl).
    change (Ascii.eqb "-" "-") with true. cbn iota.
    rewrite (scan_int_fmt_0d_end 2 d ltac:(lia)).
    rewrite !sint_id by (unfold int_range, INT_MAX; lia). reflexivity. }
  pose proof (dateToDays_ordinal _ y m d Hscan Hc) as Hord.
  pose proof (ordinal_positive y m d Hc) as Hpos.
  split; [exact Hlen|]. split; [exact Hscan|]. split; [exact Hord|].
  split; [lia|].
  unfold clock_ok. rewrite Hlen. cbn [Nat.leb andb].
  assert (F : forallb field_char (fmt_0d 4 y ++ "-"%char :: fmt_0d 2 m
                                  ++ "-"%char :: fmt_0d 2 d) = true).
  { apply forallb_forall, Forall_forall.
    apply Forall_app. split; [exact Fy|]. constructor; [reflexivity|].
    apply Forall_app. split; [exact Fm|]. constructor; [reflexivity|exact Fd]. }
  rewrite F. cbn [andb]. apply negb_true_iff, Z.eqb_neq. lia.
Qed.

Lemma clock_text_is_accepted_witness :
  dateToDays (getSystemDate {| tm_year := 124; tm_mon := 1; tm_mday := 29 |})
  = ordinal (124 + 1900, 1 + 1, 29).
Proof.
  refine (proj1 (proj2 (proj2 (clock_text_is_accepted
            {| tm_year := 124; tm_mon := 1; tm_mday := 29 |} _ _)))).
  - cbn. lia.
  - vm_compute. repeat split; discriminate.
Defined.

Example getSystemDate_pads :
  getSystemDate {| tm_year := 125; tm_mon := 0; tm_mday := 5 |}
  = cs "2025-01-05".
Proof. vm_compute. reflexivity. Qed.

(* ------------------------------------------------------------------ *)
(** ** Loading, again *)

Lemma load_returns_length d fp st :
  snd (loadFromFile d (Some fp) st)
  = Z.of_nat (length (head (fst (loadFromFile d (Some fp) st))))
  /\ member_count (fst (loadFromFile d (Some fp) st))
     = Z.of_nat (length (head (fst (loadFromFile d (Some fp) st))))
  /\ (length (head (fst (loadFromFile d (Some fp) st))) <= 100)%nat.
Proof.
  unfold loadFromFile. fold (load_start st). cbn [fst snd].
  destruct (load_loop_inv fp st) as (Hl & Hc & Hn & _).
  rewrite syncAutoExpire_head, length_map,
          (proj1 (syncAutoExpire_counters _ _)).
  cbn [head member_count]. auto.
Qed.

Lemma initTestData_records d st :
  initTestData d st
  = {| head := map (expire_node (dateToDays d)) demo_records;
       member_count := 4; next_card_id := 1005 |}.
Proof.
  unfold initTestData. cbv zeta.
  apply store_ext.
  - now rewrite syncAutoExpire_head.
  - now rewrite (proj1 (syncAutoExpire_counters _ _)).
  - now rewrite (proj2 (syncAutoExpire_counters _ _)).
Qed.

(** X2. However the data file looks - absent, empty, all lines bad - the
    program starts with a store that is not empty, with a count between 1
    and 100.  When the load gives nothing, and so when there is no file,
    the store holds the four demo records that [initTestData] declares, in
    their order and as the synchronizer leaves them on that day, the count
    is 4 and the next card number 1005. *)
Theorem startup_store_not_empty (load_date init_date : cstring)
    (file : option (list ascii)) :
  head (startup load_date init_date file) <> []
  /\ 1 <= member_count (startup load_date init_date file) <= 100
  /\ (file = None \/ snd (loadFromFile load_date file empty_store) <= 0 ->
      startup load_date init_date file
      = {| head := map (expire_node (dateToDays init_date)) demo_records;
           member_count := 4; next_card_id := 1005 |})
  /\ (0 < snd (loadFromFile load_date file empty_store) ->
      startup load_date init_date file
      = fst (loadFromFile load_date file empty_store)).
Proof.
  unfold startup.
  destruct file as [fp|].
  - pose proof (load_returns_length load_date fp empty_store) as (Hl & Hc & Hn).
    destruct (loadFromFile load_date (Some fp) empty_store) as [st loaded].
    cbn [fst snd] in *.
    destruct (Z.leb_spec loaded 0) as [H0|H0].
    + rewrite initTestData_records. cbn [head member_count].
      split; [discriminate|]. split; [lia|]. split; [reflexivity|lia].
    + split; [intros E; rewrite E in Hl; cbn in Hl; lia|].
      split; [lia|]. split; [|reflexivity].
      intros [H|H]; [discriminate H|lia].
  - cbn [loadFromFile]. cbn [Z.leb Z.compare].
    rewrite initTestData_records. cbn [head member_count snd].
    split; [discriminate|]. split; [lia|]. split; [reflexivity|lia].
Qed.

Example demo_records_at_start :
  map (fun p => (card_id (data p), is_active (data p)))
      (head (startup (cs "2025-12-15") (cs "2025-12-15") None))
  = [(1001, 1); (1002, 0); (1003, 1); (1004, 1)].
Proof. vm_compute. reflexivity. Qed.

(** Two states of the loop that differ in nothing but the card counter of
    the store. *)
Lemma load_line_counter_blind buf a b :
  head (l_store a) = head (l_store b) ->
  member_count (l_store a) = member_count (l_store b) ->
  l_loaded a = l_loaded b -> l_max_id a = l_max_id b ->
  fst (load_line buf a) = fst (load_line buf b)
  /\ head (l_store (snd (load_line buf a)))
     = head (l_store (snd (load_line buf b)))
  /\ member_count (l_store (snd (load_line buf a)))
     = member_count (l_store (snd (load_line buf b)))
  /\ l_loaded (snd (load_line buf a)) = l_loaded (snd (load_line buf b))
  /\ l_max_id (snd (load_line buf a)) = l_max_id (snd (load_line buf b)).
Proof.
  intros Hh Hc Hl Hm. unfold load_line.
  destruct (trim_newline (c_str buf)) as [|c0 line]; [cbn; auto|].
  destruct (split_fields (c0 :: line)) as [f|]; [|cbn; auto].
  destruct (negb (fields_ok f)); [cbn; auto|].
  rewrite <- Hc.
  destruct (member_count (l_store a) >=? MAX_MEMBERS); [cbn; auto|].
  cbn [fst snd l_store l_loaded l_max_id appendNode head member_count].
  rewrite Hh, Hl, Hm, Hc. auto.
Qed.

Lemma load_loop_counter_blind fp :
  forall a b,
    head (l_store a) = head (l_store b) ->
    member_count (l_store a) = member_count (l_store b) ->
    l_loaded a = l_loaded b -> l_max_id a = l_max_id b ->
    head (l_store (load_loop fp a)) = head (l_store (load_loop fp b))
    /\ member_count (l_store (load_loop fp a))
       = member_count (l_store (load_loop fp b))
    /\ l_loaded (load_loop fp a) = l_loaded (load_loop fp b)
    /\ l_max_id (load_loop fp a) = l_max_id (load_loop fp b).
Proof.
  induction fp as [fp IH] using (induction_ltof1 _ (@length ascii)).
  unfold ltof in IH. intros a b Hh Hc Hl Hm.
  destruct fp as [|c r]; [simp load_loop; auto|].
  rewrite !load_loop_cons.
  destruct (load_line_counter_blind (fst (fgets LINE_MAX (c :: r))) a b
              Hh Hc Hl Hm) as (E & Hh' & Hc' & Hl' & Hm').
  destruct (load_line _ a) as [ca a'], (load_line _ b) as [cb b'].
  cbn [fst snd] in *. subst cb.
  destruct ca; [|auto]. apply IH; [apply fgets_rest_lt|assumption..].
Qed.

(** X3. A load that opens its file starts from nothing: the store it
    leaves, and the value it returns, do not depend on the records, the
    count or the card counter the store had before. *)
Theorem load_forgets_previous_store (d : cstring) (fp : list ascii)
    (st st' : Store) :
  loadFromFile d (Some fp) st = loadFromFile d (Some fp) st'.
Proof.
  unfold loadFromFile.
  destruct (load_loop_counter_blind fp
              {| l_store := freeAllMembers st; l_loaded := 0; l_max_id := 1000 |}
              {| l_store := freeAllMembers st'; l_loaded := 0; l_max_id := 1000 |}
              eq_refl eq_refl eq_refl eq_refl) as (Hh & Hc & Hl & Hm).
  rewrite Hh, Hc, Hl, Hm. reflexivity.
Qed.

(** X4. Every record that a load puts in the store meets the constraints
    of the file format: a card number from 1 to [INT_MAX], a name of 1 to
    29 bytes without delimiter or line break, one of the two genders, an
    age from 18 to 80, a phone of 11 digits, a join date that [dateToDays]
    accepts, one of the three types, a flag 0 or 1. *)
Theorem load_accepts_only_valid_records (d : cstring) (fp : list ascii)
    (st : Store) :
  Forall (fun p => storable p = true)
         (head (fst (loadFromFile d (Some fp) st))).
Proof.
  unfold loadFromFile. cbn [fst]. apply storable_sync. cbn [head].
  apply (load_loop_invariant
           (fun a => Forall (fun p => storable p = true) (head (l_store a)))).
  - apply load_line_storable.
  - constructor.
Qed.

Lemma c_str_app body t : in_line body -> c_str (body ++ t) = body ++ c_str t.
Proof.
  induction 1 as [|c s (_ & _ & Hn) _ IH]; cbn [app c_str]; [reflexivity|].
  rewrite Hn, IH. reflexivity.
Qed.

Lemma trim_newline_app body t :
  in_line body -> trim_newline (body ++ t) = body ++ trim_newline t.
Proof.
  induction 1 as [|c s (Hc & Hl & _) _ IH]; cbn [app trim_newline]; [reflexivity|].
  rewrite Hc, Hl, IH. reflexivity.
Qed.

Lemma line_text_crlf body :
  in_line body ->
  line_text (body ++ [CR; LF]) = body /\ line_text (body ++ [LF]) = body.
Proof.
  intros H. unfold line_text. rewrite !(c_str_app body _ H).
  change (c_str [CR; LF]) with [CR; LF]. change (c_str [LF]) with [LF].
  rewrite !(trim_newline_app body _ H).
  change (trim_newline [CR; LF]) with (@nil ascii).
  change (trim_newline [LF]) with (@nil ascii).
  now rewrite app_nil_r.
Qed.

(** A turn of the loop looks at the text of the line only. *)
Lemma load_line_text buf buf' a :
  line_text buf = line_text buf' -> load_line buf a = load_line buf' a.
Proof. unfold load_line, line_text. intros ->. reflexivity. Qed.

Lemma fgets_upto_lf n body rest :
  Forall (fun c => Ascii.eqb c LF = false) body -> (length body < n)%nat ->
  fgets n (body ++ LF :: rest) = (body ++ [LF], rest).
Proof.
  intros H. revert n. induction H as [|c t Hl _ IH]; intros n Hn.
  - destruct n as [|k]; [cbn in Hn; lia|]. cbn [app].
    rewrite fgets_cons, Ascii.eqb_refl. reflexivity.
  - destruct n as [|k]; [cbn in Hn; lia|]. cbn [app]. rewrite fgets_cons, Hl.
    rewrite IH by (cbn in Hn; lia). reflexivity.
Qed.

Lemma load_loop_crlf l a :
  Forall (fun p => storable p = true) l ->
  load_inv a ->
  (length (head (l_store a)) + length l <= 100)%nat ->
  load_loop (concat (map (fun p => fmt_line p ++ [CR; LF]) l)) a
  = load_loop (concat (map fmt_node l)) a.
Proof.
  intros Hl. revert a. induction Hl as [|p l Hp _ IH]; intros a Hinv Hcap.
  - reflexivity.
  - cbn [map concat]. cbn [length] in Hcap.
    destruct (fmt_line_reads p Hp) as (Hin & Hlen & _).
    pose proof Hinv as (Hld & Hcnt & Hn & Hmx).
    destruct (load_line_fmt_node p a Hp ltac:(lia)) as (a' & Hline & Hhead).
    assert (Hinv' : load_inv a').
    { pose proof (load_line_inv (fmt_node p) a Hinv) as H.
      now rewrite Hline in H. }
    assert (Hnolf : Forall (fun c => Ascii.eqb c LF = false) (fmt_line p))
      by (eapply Forall_impl; [|exact Hin]; cbn; tauto).
    assert (G1 : fgets LINE_MAX
                   ((fmt_line p ++ [CR]) ++ LF ::
                    concat (map (fun q => fmt_line q ++ [CR; LF]) l))
                 = ((fmt_line p ++ [CR]) ++ [LF],
                    concat (map (fun q => fmt_line q ++ [CR; LF]) l))).
    { apply fgets_upto_lf.
      - apply Forall_app. split; [exact Hnolf|constructor; [reflexivity|constructor]].
      - rewrite length_app. cbn [length]. unfold LINE_MAX. lia. }
    assert (G2 : fgets LINE_MAX (fmt_line p ++ LF :: concat (map fmt_node l))
                 = (fmt_line p ++ [LF], concat (map fmt_node l)))
      by (apply fgets_upto_lf; [exact Hnolf|unfold LINE_MAX; lia]).
    rewrite <- !app_assoc in G1. cbn [app] in G1.
    unfold fmt_node at 1. rewrite <- !app_assoc. cbn [app].
    destruct (line_text_crlf (fmt_line p) Hin) as [T1 T2].
    assert (Hline' : load_line (fmt_line p ++ [CR; LF]) a = (Continue, a')).
    { rewrite (load_line_text _ (fmt_line p ++ [LF]) a) by congruence.
      exact Hline. }
    unfold fmt_node in Hline.
    destruct (fmt_line p) as [|c0 body] eqn:E; [cbn in Hlen; lia|].
    cbn [app] in *. rewrite !load_loop_cons, G1, G2. cbn [fst snd].
    rewrite Hline, Hline'. apply IH; [exact Hinv'|].
    rewrite Hhead, length_app. cbn [length]. lia.
Qed.

(** X5. A data file whose lines end in carriage return and line feed is
    loaded as the same file with plain line feeds: for a store of at most
    100 records that meet the file format, both give the same store and the
    same count. *)
Theorem load_accepts_crlf_lines (d : cstring) (st st0 : Store) :
  Forall (fun p => storable p = true) (head st) ->
  (length (head st) <= 100)%nat ->
  loadFromFile d (Some (crlf_image st)) st0
  = loadFromFile d (Some (file_image st)) st0.
Proof.
  intros Hs Hn. unfold loadFromFile, crlf_image, file_image.
  fold (load_start st0).
  rewrite (load_loop_crlf (head st) (load_start st0) Hs (load_start_inv st0))
    by (cbn; lia).
  reflexivity.
Qed.

Lemma load_accepts_crlf_lines_witness :
  loadFromFile (cs "2025-01-20") (Some (crlf_image scenario2_store)) empty_store
  = loadFromFile (cs "2025-01-20") (Some (file_image scenario2_store))
                 empty_store.
Proof.
  apply load_accepts_crlf_lines.
  - repeat constructor.
  - cbn. lia.
Defined.

(* ------------------------------------------------------------------ *)
(** ** Card numbers *)

Lemma ids_sync d st : ids (head (syncAutoExpire d st)) = ids (head st).
Proof.
  unfold ids. rewrite syncAutoExpire_head, map_map.
  apply map_ext. intros p. apply expire_node_card_id.
Qed.

Lemma ids_update_first id f l :
  (forall p, has_id id p = true -> card_id (data (f p)) = id) ->
  ids (update_first id f l) = ids l.
Proof.
  intros Hf. unfold ids. induction l as [|x l IH]; cbn [update_first map];
    [reflexivity|].
  destruct (has_id id x) eqn:E; cbn [map].
  - rewrite (Hf x E). unfold has_id in E. apply Z.eqb_eq in E. now rewrite E.
  - now rewrite IH.
Qed.

Lemma ids_unlink_first id l :
  NoDup (ids l) -> NoDup (ids (unlink_first id l))
  /\ (forall x, In x (ids (unlink_first id l)) -> In x (ids l))
  /\ (find (has_id id) l <> None -> ~ In id (ids (unlink_first id l))).
Proof.
  unfold ids. induction l as [|x l IH]; cbn [unlink_first map find]; intros Hnd.
  - repeat split; [constructor|auto|congruence].
  - inversion Hnd as [|? ? Hx Hl]; subst. destruct (IH Hl) as (I1 & I2 & I3).
    destruct (has_id id x) eqn:E.
    + unfold has_id in E. apply Z.eqb_eq in E. subst id.
      repeat split; [exact Hl|cbn; auto|intros _; exact Hx].
    + cbn [map]. repeat split.
      * constructor; [|exact I1]. intros H. apply Hx. now apply I2.
      * intros y [<-|Hy]; cbn; auto.
      * intros Hf [Heq|Hin]; [|now apply I3].
        unfold has_id in E. apply Z.eqb_neq in E. congruence.
Qed.

Lemma renew_node_card_id d c p :
  card_id (data (fst (renew_node d c p))) = card_id (data p).
Proof.
  unfold renew_node.
  destruct ((is_active (data p) =? 0) || (calcExpireDays p <? dateToDays d));
    [reflexivity|].
  destruct (negb (strcmp_eq (newType c) (membership_type (data p))));
    reflexivity.
Qed.

Lemma find_has_id id l p : find (has_id id) l = Some p -> card_id (data p) = id.
Proof.
  intros H. apply find_some in H. destruct H as [_ H].
  unfold has_id in H. now apply Z.eqb_eq.
Qed.

Lemma ids_run_not_add c st :
  (forall d i, c <> CAdd d i) ->
  (exists id, ids (head (run c st)) = ids (unlink_first id (head st))
              /\ find (has_id id) (head st) <> None)
  \/ ids (head (run c st)) = ids (head st).
Proof.
  intros Hc. destruct c as [d|d i|id ph|d id|d1 d2 id ch|id]; cbn [run].
  - right. apply ids_sync.
  - exfalso. now apply (Hc d i).
  - right. unfold updateMemberPhone. destruct (findByCardID st id); [|reflexivity].
    cbn [fst set_head head]. apply ids_update_first.
    intros p E. cbn. unfold has_id in E. now apply Z.eqb_eq.
  - unfold deleteExpiredMember.
    destruct (findByCardID (syncAutoExpire d st) id) as [cur|] eqn:Hf;
      [|right; apply ids_sync].
    destruct (is_active (data cur) =? 1); [right; apply ids_sync|].
    left. exists id. cbn [fst head]. rewrite syncAutoExpire_head.
    rewrite findByCardID_sync in Hf. unfold findByCardID in Hf.
    split.
    + unfold ids. clear Hf. induction (head st) as [|x l IH];
        cbn [map unlink_first]; [reflexivity|].
      assert (E : has_id id (expire_node (dateToDays d) x) = has_id id x)
        by (unfold has_id; now rewrite expire_node_card_id).
      rewrite E. destruct (has_id id x); cbn [map].
      * rewrite map_map. apply map_ext. intros q. apply expire_node_card_id.
      * now rewrite expire_node_card_id, IH.
    + destruct (find (has_id id) (head st)); [discriminate|discriminate Hf].
  - right. unfold renewMember, renew_found.
    destruct (findByCardID (syncAutoExpire d1 st) id) as [p|] eqn:Hf;
      [|apply ids_sync].
    pose proof (renew_node_card_id d2 ch p) as Hid.
    destruct (renew_node d2 ch p) as [p' r]. cbn [fst set_head head] in *.
    rewrite ids_update_first; [apply ids_sync|].
    intros _ _. rewrite Hid. unfold findByCardID in Hf.
    now apply find_has_id in Hf.
  - right. unfold updateMemberStatus. destruct (findByCardID st id) as [p|];
      [|reflexivity].
    destruct (is_active (data p) =? 0); [reflexivity|].
    cbn [fst set_head head]. apply ids_update_first.
    intros q E. cbn. unfold has_id in E. now apply Z.eqb_eq.
Qed.

Lemma next_card_id_run_not_add c st :
  (forall d i, c <> CAdd d i) -> next_card_id (run c st) = next_card_id st.
Proof.
  intros Hc. destruct c as [d|d i|id ph|d id|d1 d2 id ch|id]; cbn [run].
  - apply syncAutoExpire_counters.
  - exfalso. now apply (Hc d i).
  - unfold updateMemberPhone. destruct (findByCardID st id); reflexivity.
  - unfold deleteExpiredMember.
    destruct (findByCardID (syncAutoExpire d st) id) as [cur|];
      [destruct (is_active (data cur) =? 1)|]; cbn [fst next_card_id];
      apply syncAutoExpire_counters.
  - unfold renewMember, renew_found.
    destruct (findByCardID (syncAutoExpire d1 st) id) as [p|];
      [destruct (renew_node d2 ch p)|]; cbn [fst set_head next_card_id];
      apply syncAutoExpire_counters.
  - unfold updateMemberStatus. destruct (findByCardID st id) as [p|];
      [destruct (is_active (data p) =? 0)|]; reflexivity.
Qed.

(** X6. When the card numbers of the store are distinct and below the card
    counter, they are so after every command of the menu, provided an
    insertion does not take the counter over [INT_MAX]: an insertion gives a
    number that no record has, and the other commands create no number. *)
Theorem card_numbers_stay_distinct (c : command) (st : Store) :
  ids_fresh st -> counter_safe c st -> ids_fresh (run c st).
Proof.
  intros [Hnd Hlt] Hsafe. fold (ids (head st)) in Hnd, Hlt.
  unfold ids_fresh. fold (ids (head (run c st))).
  assert (Hadd : (exists d i, c = CAdd d i) \/ (forall d i, c <> CAdd d i)).
  { destruct c; try (right; intros; discriminate). left. eauto. }
  destruct Hadd as [(d & i & ->)|Hc].
  - cbn [run counter_safe] in *. unfold addMember.
    destruct (member_count st >=? MAX_MEMBERS); cbn [fst]; [split; assumption|].
    unfold ids. cbn [appendNode head next_card_id createNode].
    rewrite map_app. cbn [map data card_id].
    rewrite sint_id by (unfold int_range; lia). split.
    + apply NoDup_app; [exact Hnd|repeat constructor; intros []|].
      intros x Hx [<-|[]]. rewrite Forall_forall in Hlt.
      specialize (Hlt _ Hx). cbn in Hlt. lia.
    + apply Forall_app. split.
      * eapply Forall_impl; [|exact Hlt]. cbn. intros; lia.
      * constructor; [cbn; lia|constructor].
  - rewrite (next_card_id_run_not_add c st Hc).
    destruct (ids_run_not_add c st Hc) as [(id & E & _)|E]; rewrite E.
    + destruct (ids_unlink_first id (head st) Hnd) as (I1 & I2 & _).
      split; [exact I1|]. apply Forall_forall. intros x Hx.
      rewrite Forall_forall in Hlt. apply Hlt. now apply I2.
    + split; assumption.
Qed.

Lemma card_numbers_stay_distinct_witness :
  ids_fresh (run (CAdd (cs "2025-12-15") lapsed_input)
                 (startup (cs "2025-12-15") (cs "2025-12-15") None)).
Proof.
  apply card_numbers_stay_distinct.
  - unfold ids_fresh. vm_compute. split.
    + repeat (constructor;
              [let H := fresh in
               intros H; repeat (destruct H as [H|H]; [discriminate H|]);
               exact H|]).
      constructor.
    + repeat constructor.
  - vm_compute. split; [discriminate|reflexivity].
Defined.

(* ------------------------------------------------------------------ *)
(** ** Lookup after an operation *)

Lemma find_app_fresh id l q :
  find (has_id id) (l ++ [q])
  = match find (has_id id) l with
    | Some p => Some p
    | None => if has_id id q then Some q else None
    end.
Proof.
  induction l as [|x l IH]; cbn [app find]; [reflexivity|].
  destruct (has_id id x); [reflexivity|exact IH].
Qed.

Lemma find_none_iff id l : find (has_id id) l = None <-> ~ In id (ids l).
Proof.
  unfold ids. induction l as [|x l IH]; cbn [find map In]; [tauto|].
  destruct (has_id id x) eqn:E; unfold has_id in E.
  - apply Z.eqb_eq in E. split; [discriminate|]. intros H. exfalso. auto.
  - apply Z.eqb_neq in E. rewrite IH. split; [intros H [?|?]; auto|tauto].
Qed.

(** X7. An insertion into a store with room, whose records do not carry
    the next card number: the new record is appended with that number, the
    count goes up by one, a search for the number finds the new record, and
    a search for any other number gives what it gave before. *)
Theorem add_then_find (d : cstring) (i : AddInput) (st : Store) :
  0 <= member_count st < 100 ->
  ~ In (next_card_id st) (ids (head st)) ->
  snd (addMember d i st) = AddDone
  /\ head (fst (addMember d i st)) = head st ++ [added d i st]
  /\ member_count (fst (addMember d i st)) = member_count st + 1
  /\ findByCardID (fst (addMember d i st)) (next_card_id st)
     = Some (added d i st)
  /\ (forall id, id <> next_card_id st ->
        findByCardID (fst (addMember d i st)) id = findByCardID st id).
Proof.
  intros Hc Hfresh. unfold addMember, MAX_MEMBERS.
  destruct (Z.geb_spec (member_count st) 100); [lia|].
  cbn [fst snd appendNode head member_count].
  rewrite sint_id by (unfold int_range, INT_MAX; lia).
  split; [reflexivity|]. split; [reflexivity|]. split; [reflexivity|].
  unfold findByCardID, appendNode. cbn [head].
  change (createNode _) with (added d i st).
  split.
  - rewrite find_app_fresh.
    rewrite (proj2 (find_none_iff _ _) Hfresh).
    unfold has_id. cbn. now rewrite Z.eqb_refl.
  - intros id Hid. rewrite find_app_fresh.
    destruct (find (has_id id) (head st)); [reflexivity|].
    unfold has_id. cbn. destruct (Z.eqb_spec (next_card_id st) id);
      [congruence|reflexivity].
Qed.

Lemma add_then_find_witness :
  findByCardID (fst (addMember (cs "2025-01-20") lapsed_input restart_store))
               1003
  = Some (added (cs "2025-01-20") lapsed_input restart_store).
Proof.
  refine (proj1 (proj2 (proj2 (proj2
            (add_then_find (cs "2025-01-20") lapsed_input restart_store
                           _ _))))).
  - vm_compute. split; [discriminate|reflexivity].
  - vm_compute. intros [H|[H|[]]]; discriminate H.
Defined.

Lemma find_update_first id id' f l :
  (forall q, has_id id q = true -> card_id (data (f q)) = id) ->
  find (has_id id') (update_first id f l)
  = if id' =? id then option_map f (find (has_id id) l)
    else find (has_id id') l.
Proof.
  intros Hf. induction l as [|x l IH]; cbn [update_first find option_map].
  - destruct (id' =? id); reflexivity.
  - destruct (has_id id x) eqn:E.
    + cbn [find]. pose proof (Hf x E) as Hx.
      unfold has_id in *. apply Z.eqb_eq in E. rewrite Hx, E.
      rewrite (Z.eqb_sym id id').
      destruct (Z.eqb_spec id' id); reflexivity.
    + cbn [find]. unfold has_id in E |- *. apply Z.eqb_neq in E.
      destruct (Z.eqb_spec (card_id (data x)) id') as [E'|E'].
      * destruct (Z.eqb_spec id' id); [congruence|reflexivity].
      * exact IH.
Qed.

(** X8. A phone update for a card number the store holds: the search for
    that number now gives the same record with the new phone, the search
    for any other number gives what it gave before, the records keep their
    places and the counters their values.  For a number the store does not
    hold, nothing changes. *)
Theorem phone_update_then_find (id : Z) (newPhone : cstring) (st : Store)
    (p : Node) :
  findByCardID st id = Some p ->
  let st' := fst (updateMemberPhone id newPhone st) in
  snd (updateMemberPhone id newPhone st) = PhoneDone
  /\ findByCardID st' id = Some (set_phone newPhone p)
  /\ (forall id', id' <> id -> findByCardID st' id' = findByCardID st id')
  /\ (exists l1 l2, head st = l1 ++ p :: l2
                    /\ head st' = l1 ++ set_phone newPhone p :: l2)
  /\ member_count st' = member_count st
  /\ next_card_id st' = next_card_id st
  /\ (forall id0, findByCardID st id0 = None ->
        updateMemberPhone id0 newPhone st = (st, PhoneNotFound)).
Proof.
  intros Hf. cbn zeta. unfold updateMemberPhone at 1 2 3 4 5 6. rewrite Hf.
  cbn [fst snd set_head head member_count next_card_id].
  assert (Hid : forall q, has_id id q = true ->
                          card_id (data (set_phone newPhone q)) = id).
  { intros q E. unfold has_id in E. cbn. now apply Z.eqb_eq. }
  split; [reflexivity|]. split; [|split; [|split; [|split; [|split]]]].
  - unfold findByCardID, set_head in *. cbn [head].
    rewrite (find_update_first id id _ _ Hid), Z.eqb_refl, Hf. reflexivity.
  - intros id' Hne. unfold findByCardID, set_head. cbn [head].
    rewrite (find_update_first id id' _ _ Hid).
    destruct (Z.eqb_spec id' id); [contradiction|reflexivity].
  - unfold findByCardID in Hf.
    destruct (find_first_split id (head st) p Hf)
      as (l1 & l2 & Hs & _ & _ & Hu & _).
    exists l1, l2. split; [exact Hs|apply Hu].
  - reflexivity.
  - reflexivity.
  - intros id0 Hn. unfold updateMemberPhone. now rewrite Hn.
Qed.

Lemma phone_update_then_find_witness :
  findByCardID (fst (updateMemberPhone 1002 (cs "13511112222") scenario2_store))
               1002
  = Some (set_phone (cs "13511112222") scenario2_node).
Proof.
  refine (proj1 (proj2 (phone_update_then_find 1002 (cs "13511112222")
                          scenario2_store scenario2_node _))).
  vm_compute. reflexivity.
Defined.

Lemma unlink_update_first id f l :
  (forall q, has_id id q = true -> has_id id (f q) = true) ->
  unlink_first id (update_first id f l) = unlink_first id l.
Proof.
  intros Hf. induction l as [|x l IH]; cbn [update_first unlink_first];
    [reflexivity|].
  destruct (has_id id x) eqn:E; cbn [unlink_first].
  - now rewrite (Hf x E).
  - now rewrite E, IH.
Qed.

Lemma expire_node_inactive t p :
  is_active (data p) = 0 -> expire_node t p = p.
Proof. intros H. unfold expire_node. now rewrite H. Qed.

(** X9. A member that has been deactivated by hand can be deleted, on any
    date: after [updateMemberStatus] the deletion of the same card number
    succeeds and leaves the other records, synchronized, in their order;
    and a second deactivation reports that the member is inactive
    already. *)
Theorem deactivate_then_delete (d : cstring) (id : Z) (st : Store) (p : Node) :
  findByCardID st id = Some p ->
  int_range (member_count st - 1) ->
  let st1 := fst (updateMemberStatus id st) in
  findByCardID st1 id = Some (set_is_active 0 p)
  /\ snd (updateMemberStatus id st1) = StatusAlreadyInactive
  /\ deleteExpiredMember d id st1
     = ({| head := map (expire_node (dateToDays d)) (unlink_first id (head st));
           member_count := member_count st - 1;
           next_card_id := next_card_id st |}, DeleteDone).
Proof.
  intros Hf Hc. cbn zeta.
  assert (Hid : forall q, has_id id q = true ->
                          card_id (data (set_is_active 0 q)) = id).
  { intros q E. unfold has_id in E. cbn. now apply Z.eqb_eq. }
  assert (H1 : findByCardID (fst (updateMemberStatus id st)) id
               = Some (set_is_active 0 p)
               /\ head (fst (updateMemberStatus id st))
                  = update_first id (set_is_active 0) (head st)
               /\ member_count (fst (updateMemberStatus id st)) = member_count st
               /\ next_card_id (fst (updateMemberStatus id st)) = next_card_id st).
  { unfold updateMemberStatus. rewrite Hf.
    destruct (Z.eqb_spec (is_active (data p)) 0) as [E|E]; cbn [fst].
    - rewrite (set_is_active_same 0 p E). split; [exact Hf|].
      split; [|split; reflexivity].
      unfold findByCardID in Hf.
      destruct (find_first_split id (head st) p Hf)
        as (l1 & l2 & Hs & _ & _ & Hu & _).
      rewrite Hu, (set_is_active_same 0 p E). exact Hs.
    - unfold findByCardID, set_head in *. cbn [head member_count next_card_id].
      rewrite (find_update_first id id _ _ Hid), Z.eqb_refl, Hf.
      repeat split. }
  destruct H1 as (F1 & Hh & Hm & Hn).
  split; [exact F1|]. split.
  - unfold updateMemberStatus at 1. rewrite F1. reflexivity.
  - unfold deleteExpiredMember.
    rewrite findByCardID_sync, F1. cbn [option_map].
    rewrite (expire_node_inactive _ (set_is_active 0 p) eq_refl).
    cbn [set_is_active data is_active Z.eqb].
    rewrite syncAutoExpire_head, (proj1 (syncAutoExpire_counters _ _)),
            (proj2 (syncAutoExpire_counters _ _)), Hh, Hm, Hn.
    rewrite unlink_map_expire, unlink_update_first, (sint_id _ Hc).
    + reflexivity.
    + intros q E. unfold has_id in *. exact E.
Qed.

Lemma deactivate_then_delete_witness :
  snd (deleteExpiredMember (cs "2025-01-20") 1001
         (fst (updateMemberStatus 1001 scenario2_store))) = DeleteDone.
Proof.
  pose proof (deactivate_then_delete (cs "2025-01-20") 1001
                scenario2_store scenario1_node
                ltac:(vm_compute; reflexivity)
                ltac:(vm_compute; split; discriminate)) as H.
  cbn zeta in H. destruct H as (_ & _ & H). rewrite H. reflexivity.
Defined.

(* ------------------------------------------------------------------ *)
(** ** The arithmetic of dates and days left *)

Lemma fold_slong_sum_signed (f : nat -> Z) l acc :
  Forall (fun i => 0 <= f i <= 31) l ->
  - 2 ^ 62 <= acc -> acc + 31 * Z.of_nat (length l) <= 2 ^ 62 ->
  fold_left (fun a i => slong (a + f i)) l acc
  = acc + fold_right Z.add 0 (map f l).
Proof.
  revert acc. induction l as [|i l IH]; intros acc Hf H0 Hb;
    cbn [fold_left map fold_right].
  - lia.
  - inversion Hf as [|? ? Hi Hl]; subst. cbn [length] in Hb.
    rewrite slong_id by (unfold long_range, LONG_MAX; lia).
    rewrite IH; [lia|exact Hl|lia|lia].
Qed.

Lemma add_months_exact y m days :
  1 <= m <= 12 -> - 2 ^ 61 <= days <= 2 ^ 61 ->
  add_months y m days = days + days_before_month y m.
Proof.
  intros Hm Hd. unfold add_months, days_before_month.
  rewrite fold_slong_sum_signed.
  - f_equal. f_equal. apply map_ext_in. intros i Hi. apply in_seq in Hi.
    apply daysInMonth_month_length. lia.
  - apply Forall_forall. intros i Hi. apply in_seq in Hi.
    rewrite daysInMonth_month_length by lia.
    pose proof (month_length_bounds y (Z.of_nat i)). lia.
  - lia.
  - rewrite length_seq. lia.
Qed.

(** X10. For every year an [int] can hold (but the least), the sums of
    [dateToDays] stay within [long]: for a month and a day in range the
    result is exactly 365 y + ((y-1)/4 - (y-1)/100 + (y-1)/400) + the days
    of the months before + d, with the truncating division of C, and it is
    below 2^40 in absolute value. *)
Theorem date_days_no_overflow (y m d : Z) :
  - INT_MAX - 1 < y <= INT_MAX ->
  month_day_ok y m d ->
  date_days y m d
  = 365 * y + (Z.quot (y - 1) 4 - Z.quot (y - 1) 100 + Z.quot (y - 1) 400)
    + days_before_month y m + d
  /\ Z.abs (date_days y m d) < 2 ^ 40.
Proof.
  intros Hy [Hm Hd]. unfold INT_MAX in Hy.
  assert (E : date_days y m d
              = 365 * y
                + (Z.quot (y - 1) 4 - Z.quot (y - 1) 100 + Z.quot (y - 1) 400)
                + days_before_month y m + d).
  { unfold date_days.
    destruct (Z.ltb_spec m 1); [lia|]. destruct (Z.gtb_spec m 12); [lia|].
    destruct (Z.ltb_spec d 1); [lia|].
    destruct (Z.gtb_spec d (daysInMonth y m)); [lia|]. cbn [orb].
    rewrite (daysInMonth_month_length y m Hm) in Hd.
    pose proof (month_length_bounds y m) as Hb.
    rewrite (sint_id (y - 1)) by (unfold int_range, INT_MAX; lia).
    assert (Q4 : Z.abs (Z.quot (y - 1) 4) <= 2 ^ 31) by lia.
    assert (Q100 : Z.abs (Z.quot (y - 1) 100) <= 2 ^ 31) by lia.
    assert (Q400 : Z.abs (Z.quot (y - 1) 400) <= 2 ^ 31) by lia.
    set (q4 := Z.quot (y - 1) 4) in *. set (q100 := Z.quot (y - 1) 100) in *.
    set (q400 := Z.quot (y - 1) 400) in *.
    rewrite (slong_id (q4 - q100)) by (unfold long_range, LONG_MAX; lia).
    rewrite (slong_id (q4 - q100 + q400)) by (unfold long_range, LONG_MAX; lia).
    rewrite (slong_id (y * 365)) by (unfold long_range, LONG_MAX; lia).
    rewrite (slong_id (y * 365 + _)) by (unfold long_range, LONG_MAX; lia).
    rewrite Z.add_0_l.
    rewrite (slong_id (y * 365 + _)) by (unfold long_range, LONG_MAX; lia).
    rewrite add_months_exact by lia.
    pose proof (days_before_month_mono y m 12 ltac:(lia) ltac:(lia) ltac:(lia)).
    pose proof (days_before_month_last y).
    rewrite slong_id
      by (unfold long_range, LONG_MAX; destruct (gregorian_leap y); lia).
    lia. }
  split; [exact E|]. rewrite E.
  rewrite (daysInMonth_month_length y m Hm) in Hd.
  pose proof (month_length_bounds y m) as Hb.
  pose proof (days_before_month_mono y m 12 ltac:(lia) ltac:(lia) ltac:(lia)).
  pose proof (days_before_month_last y).
  assert (Q4 : Z.abs (Z.quot (y - 1) 4) <= 2 ^ 31) by lia.
  assert (Q100 : Z.abs (Z.quot (y - 1) 100) <= 2 ^ 31) by lia.
  assert (Q400 : Z.abs (Z.quot (y - 1) 400) <= 2 ^ 31) by lia.
  destruct (gregorian_leap y); lia.
Qed.

Lemma date_days_no_overflow_witness :
  date_days (-44) 3 15
  = 365 * (-44) + (Z.quot (-44 - 1) 4 - Z.quot (-44 - 1) 100
                   + Z.quot (-44 - 1) 400)
    + days_before_month (-44) 3 + 15.
Proof.
  refine (proj1 (date_days_no_overflow (-44) 3 15 _ _)).
  - vm_compute. split; [reflexivity|discriminate].
  - vm_compute. repeat split; discriminate.
Defined.

Lemma small_long z : small z -> long_range z.
Proof. unfold small, long_range, LONG_MAX. lia. Qed.

Lemma days_left_fresh_plan d c (m : Member) :
  small (dateToDays d) ->
  days_left (dateToDays d)
    {| data := {| card_id := card_id m; name := name m; gender := gender m;
                  age := age m; phone := phone m; join_date := d;
                  membership_type := newType c; is_active := 1 |};
       bonus_days := 0 |}
  = newDuration c.
Proof.
  intros Hd. unfold days_left, calcExpireDays. cbn [data join_date
    membership_type bonus_days]. rewrite newDuration_duration.
  unfold small in Hd.
  assert (0 <= newDuration c <= 365) by (destruct c; cbn; lia).
  rewrite (slong_id (dateToDays d + newDuration c))
    by (unfold long_range, LONG_MAX; lia).
  rewrite Z.add_0_r.
  rewrite (slong_id (dateToDays d + newDuration c))
    by (unfold long_range, LONG_MAX; lia).
  rewrite slong_id by (unfold long_range, LONG_MAX; lia). lia.
Qed.

Lemma expire_node_still_active t p :
  is_active (data (expire_node t p)) <> 0 -> expire_node t p = p.
Proof.
  unfold expire_node. destruct (is_active (data p) =? 1); [|reflexivity].
  destruct (slong (calcExpireDays p - t) <? 0); [|reflexivity].
  cbn. intros H. now contradiction H.
Qed.

Lemma days_left_expire today t p :
  days_left today (expire_node t p) = days_left today p.
Proof. unfold days_left. now rewrite calcExpireDays_expire. Qed.

(** The three branches of the renewal. *)
Lemma renew_node_cases d c p :
  ((is_active (data p) =? 0) || (calcExpireDays p <? dateToDays d) = true
   /\ renew_node d c p = (restarted d c p, RenewRestarted))
  \/ (is_active (data p) <> 0 /\ dateToDays d <= calcExpireDays p
      /\ newType c <> membership_type (data p)
      /\ renew_node d c p = (p, RenewRejected))
  \/ (is_active (data p) <> 0 /\ dateToDays d <= calcExpireDays p
      /\ newType c = membership_type (data p)
      /\ renew_node d c p
         = (set_is_active 1
              {| data := data p;
                 bonus_days := slong (bonus_days p + newDuration c) |},
            RenewExtended)).
Proof.
  destruct ((is_active (data p) =? 0)
            || (calcExpireDays p <? dateToDays d)) eqn:Hc.
  - left. split; [reflexivity|]. now apply renew_node_restart.
  - right. apply orb_false_iff in Hc. destruct Hc as [Ha Hl].
    apply Z.eqb_neq in Ha. apply Z.ltb_ge in Hl.
    unfold renew_node. cbv zeta.
    rewrite (proj2 (Z.eqb_neq _ _) Ha), (proj2 (Z.ltb_ge _ _) Hl).
    cbn [orb].
    destruct (strcmp_eq (newType c) (membership_type (data p))) eqn:Et;
      cbn [negb].
    + right. apply strcmp_eq_iff in Et. now repeat split.
    + left. repeat split; try assumption.
      intros E. apply strcmp_eq_iff in E. congruence.
Qed.

(** The days left of the record that the renewal writes. *)
Lemma days_left_renew_node d c p :
  small (dateToDays d) -> small (expire_day p) -> small (bonus_days p) ->
  let today := dateToDays d in
  let p' := fst (renew_node d c p) in
  snd (renew_node d c p) <> RenewNotFound
  /\ (snd (renew_node d c p) = RenewRestarted ->
      days_left today p' = newDuration c /\ is_active (data p') = 1)
  /\ (snd (renew_node d c p) = RenewExtended ->
      days_left today p' = days_left today p + newDuration c
      /\ 0 <= days_left today p /\ is_active (data p') = 1
      /\ is_active (data p) <> 0)
  /\ (snd (renew_node d c p) = RenewRejected ->
      p' = p /\ 0 <= days_left today p /\ is_active (data p) <> 0).
Proof.
  intros Hd He Hb. cbn zeta.
  assert (Hdur : 0 <= newDuration c <= 365) by (destruct c; cbn; lia).
  pose proof (calcExpireDays_exact p (small_long _ He)) as Hx.
  assert (Hleft : dateToDays d <= calcExpireDays p ->
                  0 <= days_left (dateToDays d) p).
  { intros H. unfold days_left. rewrite Hx in *. unfold small in *.
    rewrite slong_id by (unfold long_range, LONG_MAX; lia). lia. }
  destruct (renew_node_cases d c p)
    as [[_ ->]|[(Ha & Hl & _ & ->)|(Ha & Hl & _ & ->)]]; cbn [fst snd].
  - split; [discriminate|]. split; [|split; discriminate]. intros _.
    split; [|reflexivity]. apply (days_left_fresh_plan d c (data p) Hd).
  - split; [discriminate|]. split; [discriminate|].
    split; [discriminate|]. intros _. split; [reflexivity|].
    now split; [apply Hleft|].
  - split; [discriminate|]. split; [discriminate|]. split; [|discriminate].
    intros _. split; [|split; [now apply Hleft|split; [reflexivity|exact Ha]]].
    unfold days_left.
    assert (E : calcExpireDays
                (set_is_active 1
                   {| data := data p;
                      bonus_days := slong (bonus_days p + newDuration c) |})
              = expire_day p + newDuration c).
    { unfold small in *. unfold calcExpireDays, expire_day.
      cbn [set_is_active data bonus_days join_date membership_type].
      rewrite (slong_id (bonus_days p + newDuration c))
        by (unfold long_range, LONG_MAX; lia).
      rewrite slong_add_l. unfold expire_day in He.
      rewrite slong_id by (unfold long_range, LONG_MAX; lia). lia. }
    rewrite E, Hx. unfold small in *.
    rewrite !slong_id by (unfold long_range, LONG_MAX; lia). lia.
Qed.

(** X11. The days left that the listings show, after [renewMember] on the
    date [d] (sums within [long]): the record found is written back under
    its card number; a renewal that starts the membership again leaves
    exactly the duration of the chosen plan; a renewal that extends adds
    exactly that duration to the days that were left, which were not
    negative; a rejected renewal leaves the record as it was.  A member
    that [addMember] has just appended has the duration of the plan
    chosen. *)
Theorem days_left_after_renewal (sync_date d : cstring) (id : Z)
    (c : type_choice) (st : Store) (p : Node) :
  findByCardID st id = Some p ->
  small (dateToDays d) -> small (expire_day p) -> small (bonus_days p) ->
  let today := dateToDays d in
  let r := renewMember sync_date d id c st in
  (exists p',
     findByCardID (fst r) id = Some p'
     /\ snd r <> RenewNotFound
     /\ (snd r = RenewRestarted ->
         days_left today p' = newDuration c /\ is_active (data p') = 1)
     /\ (snd r = RenewExtended ->
         days_left today p' = days_left today p + newDuration c
         /\ 0 <= days_left today p /\ is_active (data p') = 1)
     /\ (snd r = RenewRejected -> p' = p /\ 0 <= days_left today p))
  /\ (forall i st0,
        snd (addMember d i st0) = AddDone ->
        head (fst (addMember d i st0)) = head st0 ++ [added d i st0]
        /\ days_left today (added d i st0) = newDuration (in_type i)
        /\ is_active (data (added d i st0)) = 1).
Proof.
  intros Hf Hd He Hb. cbn zeta. split.
  - destruct (sync_found_split sync_date st id p Hf)
      as (l1 & l2 & _ & _ & Hf1 & _ & _).
    set (p1 := expire_node (dateToDays sync_date) p) in *.
    assert (He1 : small (expire_day p1)).
    { unfold p1, expire_node. destruct (is_active (data p) =? 1); [|exact He].
      destruct (slong (calcExpireDays p - dateToDays sync_date) <? 0);
        exact He. }
    assert (Hb1 : small (bonus_days p1)).
    { unfold p1, expire_node. destruct (is_active (data p) =? 1); [|exact Hb].
      destruct (slong (calcExpireDays p - dateToDays sync_date) <? 0);
        exact Hb. }
    pose proof (days_left_renew_node d c p1 Hd He1 Hb1) as H.
    cbn zeta in H. destruct H as (Hnf & Hres & Hext & Hrej).
    pose proof (renew_node_card_id d c p1) as Hid.
    unfold renewMember, renew_found. rewrite Hf1.
    destruct (renew_node d c p1) as [p' r]. cbn [fst snd] in *.
    exists p'. split.
    { unfold findByCardID in *. unfold set_head. cbn [head].
      rewrite (find_update_first id id (fun _ => p')).
      - now rewrite Z.eqb_refl, Hf1.
      - intros _ _. rewrite Hid. now apply find_has_id in Hf1. }
    split; [exact Hnf|]. split; [exact Hres|]. split.
    + intros Hr. destruct (Hext Hr) as (H1 & H2 & H3 & H4).
      unfold p1 in H1, H2. rewrite days_left_expire in H1, H2.
      now repeat split.
    + intros Hr. destruct (Hrej Hr) as (H1 & H2 & H3).
      unfold p1 in H2. rewrite days_left_expire in H2.
      split; [|exact H2]. rewrite H1. now apply expire_node_still_active.
  - intros i st0. unfold addMember.
    destruct (member_count st0 >=? MAX_MEMBERS); cbn [fst snd];
      [discriminate|]. intros _. split; [reflexivity|].
    split; [|reflexivity]. unfold added.
    exact (days_left_fresh_plan d (in_type i)
             {| card_id := next_card_id st0; name := in_name i;
                gender := in_gender i; age := in_age i; phone := in_phone i;
                join_date := d; membership_type := newType (in_type i);
                is_active := 1 |} Hd).
Qed.

Lemma days_left_after_renewal_witness :
  exists p',
    findByCardID (fst (renewMember (cs "2025-01-20") (cs "2025-01-20") 1001
                                   Monthly scenario2_store)) 1001 = Some p'
    /\ days_left (dateToDays (cs "2025-01-20")) p'
       = days_left (dateToDays (cs "2025-01-20")) scenario1_node
         + newDuration Monthly.
Proof.
  pose proof (days_left_after_renewal (cs "2025-01-20") (cs "2025-01-20")
                1001 Monthly scenario2_store scenario1_node
                ltac:(vm_compute; reflexivity)
                ltac:(vm_compute; discriminate)
                ltac:(vm_compute; discriminate)
                ltac:(vm_compute; discriminate)) as H.
  cbn zeta in H. destruct H as [(p' & Hf & _ & _ & He & _) _].
  exists p'. split; [exact Hf|]. apply He. vm_compute. reflexivity.
Defined.

Example scenario2_days_left :
  days_left (dateToDays (cs "2025-01-20")) scenario1_node = 11
  /\ option_map (days_left (dateToDays (cs "2025-01-20")))
       (findByCardID (fst (renewMember (cs "2025-01-20") (cs "2025-01-20")
                                       1001 Monthly scenario2_store)) 1001)
     = Some 41.
Proof. vm_compute. split; reflexivity. Qed.

(* ------------------------------------------------------------------ *)
(** ** The listings and the statistics *)

Lemma remain_after_pass today q :
  match remain_column today (expire_node today q) with
  | Some k => is_active (data (expire_node today q)) = 1 /\ 0 <= k
  | None => is_active (data (expire_node today q)) <> 1
  end.
Proof.
  unfold remain_column, expire_node, days_left.
  destruct (Z.eqb_spec (is_active (data q)) 1) as [Ha|Ha].
  - destruct (Z.ltb_spec (slong (calcExpireDays q - today)) 0) as [Hl|Hl].
    + cbn. discriminate.
    + rewrite (proj2 (Z.eqb_eq _ _) Ha). split; [exact Ha|exact Hl].
  - rewrite (proj2 (Z.eqb_neq _ _) Ha). exact Ha.
Qed.

(** X12. The list of all members and the search by card number never show
    a negative number of days left: with one date from the clock, every
    row is a record of the store as the synchronizer pass leaves it, a row
    with a number of days belongs to an active member and the number is at
    least 0, and a row with dashes belongs to a member that is not active.
    The list has one row for each record, in the order of the store. *)
Theorem listings_show_no_negative_days (d : cstring) (id : Z) (st : Store) :
  (forall p n, In (p, n) (snd (showAllMembers d d st)) ->
     In p (head (syncAutoExpire d st))
     /\ match n with
        | Some k => is_active (data p) = 1 /\ 0 <= k
        | None => is_active (data p) <> 1
        end)
  /\ (member_count st <> 0 ->
      map fst (snd (showAllMembers d d st)) = head (syncAutoExpire d st))
  /\ (forall p n, snd (searchByCardID d d id st) = Some (p, n) ->
     findByCardID (syncAutoExpire d st) id = Some p
     /\ match n with
        | Some k => is_active (data p) = 1 /\ 0 <= k
        | None => is_active (data p) <> 1
        end).
Proof.
  split; [|split].
  - intros p n. unfold showAllMembers.
    destruct (member_count (syncAutoExpire d st) =? 0); cbn [snd];
      [intros []|].
    rewrite in_map_iff. intros (q & E & Hq). inversion E; subst; clear E.
    split; [exact Hq|].
    rewrite syncAutoExpire_head, in_map_iff in Hq.
    destruct Hq as (q0 & <- & _). apply remain_after_pass.
  - intros Hc. unfold showAllMembers.
    rewrite (proj1 (syncAutoExpire_counters d st)).
    rewrite (proj2 (Z.eqb_neq _ _) Hc). cbn [snd].
    rewrite map_map. cbn [fst]. apply map_id.
  - intros p n. unfold searchByCardID.
    destruct (findByCardID (syncAutoExpire d st) id) as [q|] eqn:Hf;
      cbn [snd]; [|discriminate].
    intros E. inversion E; subst; clear E. split; [reflexivity|].
    rewrite findByCardID_sync in Hf.
    destruct (findByCardID st id) as [q0|]; [|discriminate].
    cbn in Hf. inversion Hf; subst. apply remain_after_pass.
Qed.

Lemma listings_show_no_negative_days_witness :
  findByCardID (syncAutoExpire (cs "2025-01-20") scenario2_store) 1001
  = Some scenario1_node
  /\ (is_active (data scenario1_node) = 1 /\ 0 <= 11).
Proof.
  apply (proj2 (proj2 (listings_show_no_negative_days
                         (cs "2025-01-20") 1001 scenario2_store))
           scenario1_node (Some 11)).
  vm_compute. reflexivity.
Defined.

Lemma count_types_snoc l p :
  count_types (l ++ [p])
  = (let '(a, m, s, y) := count_types l in
     if is_active (data p) =? 1 then
       let a' := sint (a + 1) in
       if strcmp_eq (membership_type (data p)) (cs "月卡")
       then (a', sint (m + 1), s, y)
       else if strcmp_eq (membership_type (data p)) (cs "季卡")
       then (a', m, sint (s + 1), y)
       else if strcmp_eq (membership_type (data p)) (cs "年卡")
       then (a', m, s, sint (y + 1))
       else (a', m, s, y)
     else (a, m, s, y)).
Proof.
  unfold count_types. rewrite fold_left_app. cbn [fold_left].
  destruct (fold_left _ l (0, 0, 0, 0)) as [[[a m] s] y]. reflexivity.
Qed.

Lemma count_if_snoc f l p :
  count_if f (l ++ [p]) = count_if f l + (if f p then 1 else 0).
Proof.
  unfold count_if. rewrite filter_app, length_app. cbn [filter].
  destruct (f p); cbn [length]; lia.
Qed.

Lemma count_if_le f l : 0 <= count_if f l <= Z.of_nat (length l).
Proof.
  unfold count_if. pose proof (filter_length_le f l). lia.
Qed.

Lemma active_of_type_eq t p :
  active_of_type t p
  = (is_active (data p) =? 1) && strcmp_eq (membership_type (data p)) t.
Proof. reflexivity. Qed.

Lemma count_types_counts l :
  Z.of_nat (length l) <= INT_MAX ->
  count_types l
  = (count_if (fun p => is_active (data p) =? 1) l,
     count_if (active_of_type (cs "月卡")) l,
     count_if (active_of_type (cs "季卡")) l,
     count_if (active_of_type (cs "年卡")) l).
Proof.
  induction l as [|p l IH] using rev_ind; [reflexivity|].
  rewrite length_app. cbn [length]. intros Hlen.
  rewrite count_types_snoc, IH by lia.
  rewrite !count_if_snoc. rewrite !(active_of_type_eq _ p).
  pose proof (count_if_le (fun p => is_active (data p) =? 1) l).
  pose proof (count_if_le (active_of_type (cs "月卡")) l).
  pose proof (count_if_le (active_of_type (cs "季卡")) l).
  pose proof (count_if_le (active_of_type (cs "年卡")) l).
  assert (R : forall z, 0 <= z <= Z.of_nat (length l) -> sint (z + 1) = z + 1).
  { intros z Hz. apply sint_id. unfold int_range. unfold INT_MAX in *. lia. }
  destruct (is_active (data p) =? 1); cbn [andb]; [|now rewrite !Z.add_0_r].
  destruct (strcmp_eq (membership_type (data p)) (cs "月卡")) eqn:E1.
  { apply strcmp_eq_iff in E1. rewrite E1.
    change (strcmp_eq (cs "月卡") (cs "季卡")) with false.
    change (strcmp_eq (cs "月卡") (cs "年卡")) with false.
    rewrite !R, !Z.add_0_r by assumption. reflexivity. }
  destruct (strcmp_eq (membership_type (data p)) (cs "季卡")) eqn:E2.
  { apply strcmp_eq_iff in E2. rewrite E2.
    change (strcmp_eq (cs "季卡") (cs "年卡")) with false.
    rewrite !R, !Z.add_0_r by assumption. reflexivity. }
  destruct (strcmp_eq (membership_type (data p)) (cs "年卡")) eqn:E3;
    rewrite !R, !Z.add_0_r by assumption; reflexivity.
Qed.

Lemma count_types_sum l :
  Forall (fun p => getDurationDays (membership_type (data p)) <> 0) l ->
  count_if (active_of_type (cs "月卡")) l
  + count_if (active_of_type (cs "季卡")) l
  + count_if (active_of_type (cs "年卡")) l
  = count_if (fun p => is_active (data p) =? 1) l.
Proof.
  induction l as [|p l IH] using rev_ind; [reflexivity|].
  rewrite Forall_app. intros [Hl Hp]. apply Forall_inv in Hp.
  rewrite !count_if_snoc. specialize (IH Hl).
  rewrite !(active_of_type_eq _ p). unfold getDurationDays in Hp.
  destruct (is_active (data p) =? 1); cbn [andb]; [|lia].
  destruct (strcmp_eq (membership_type (data p)) (cs "月卡")) eqn:E1.
  { apply strcmp_eq_iff in E1. rewrite E1.
    change (strcmp_eq (cs "月卡") (cs "季卡")) with false.
    change (strcmp_eq (cs "月卡") (cs "年卡")) with false. cbv iota. lia. }
  destruct (strcmp_eq (membership_type (data p)) (cs "季卡")) eqn:E2.
  { apply strcmp_eq_iff in E2. rewrite E2.
    change (strcmp_eq (cs "季卡") (cs "年卡")) with false. cbv iota. lia. }
  destruct (strcmp_eq (membership_type (data p)) (cs "年卡")) eqn:E3;
    [lia|contradiction].
Qed.

Lemma expiring_soon_snoc today l p :
  expiring_soon today (l ++ [p])
  = expiring_soon today l
    ++ (if (is_active (data p) =? 1)
           && ((days_left today p >=? 0) && (days_left today p <=? 30))
        then [(p, days_left today p)] else []).
Proof.
  unfold expiring_soon. rewrite fold_left_app.
  match goal with |- fold_left _ _ ?a = _ => generalize a end. intros acc.
  cbn [fold_left]. cbv zeta.
  generalize (days_left today p). intros k.
  destruct (is_active (data p) =? 1); cbn [andb]; [|now rewrite app_nil_r].
  destruct ((k >=? 0) && (k <=? 30)); [reflexivity|now rewrite app_nil_r].
Qed.

Lemma expiring_soon_filter today l :
  expiring_soon today l
  = map (fun p => (p, days_left today p))
        (filter (fun p => (is_active (data p) =? 1)
                          && ((days_left today p >=? 0)
                              && (days_left today p <=? 30))) l).
Proof.
  induction l as [|p l IH] using rev_ind; [reflexivity|].
  rewrite expiring_soon_snoc, IH, filter_app, map_app. cbn [filter].
  destruct ((is_active (data p) =? 1)
            && ((days_left today p >=? 0) && (days_left today p <=? 30)));
    reflexivity.
Qed.

Lemma count_loop_length {A : Type} (w : list A) :
  Z.of_nat (length w) <= INT_MAX ->
  fold_left (fun n _ => sint (n + 1)) w 0 = Z.of_nat (length w).
Proof.
  induction w as [|x w IH] using rev_ind; [reflexivity|].
  rewrite length_app. cbn [length]. intros Hlen.
  rewrite fold_left_app. cbn [fold_left]. rewrite IH by lia.
  rewrite sint_id by (unfold int_range; unfold INT_MAX in *; lia). lia.
Qed.

Lemma active_after_pass today q :
  is_active (data (expire_node today q)) = 1 ->
  0 <= days_left today (expire_node today q).
Proof.
  unfold expire_node, days_left.
  destruct (Z.eqb_spec (is_active (data q)) 1) as [Ha|Ha].
  - destruct (Z.ltb_spec (slong (calcExpireDays q - today)) 0) as [Hl|Hl].
    + cbn [set_is_active data is_active]. discriminate.
    + intros _. exact Hl.
  - intros H. contradiction.
Qed.

(** X13. The report of [showStatistics], with one date from the clock and a
    list no longer than [INT_MAX]: the total is the number of active
    records of the store as the synchronizer pass leaves it, each of the
    three counts is the number of active records of that type, and the
    three add up to the total when every record has one of the three
    types.  The members warned about are exactly the active ones with at
    most 30 days left, in the order of the store, each with its number of
    days, which is between 0 and 30. *)
Theorem statistics_count_the_active (d : cstring) (st : Store) (s : Stats) :
  Z.of_nat (length (head st)) <= INT_MAX ->
  snd (showStatistics d d st) = Some s ->
  let l := head (syncAutoExpire d st) in
  let today := dateToDays d in
  active_count s = count_if (fun p => is_active (data p) =? 1) l
  /\ type_month s = count_if (active_of_type (cs "月卡")) l
  /\ type_season s = count_if (active_of_type (cs "季卡")) l
  /\ type_year s = count_if (active_of_type (cs "年卡")) l
  /\ (Forall (fun p => getDurationDays (membership_type (data p)) <> 0) l ->
      type_month s + type_season s + type_year s = active_count s)
  /\ warnings s
     = map (fun p => (p, days_left today p))
           (filter (fun p => (is_active (data p) =? 1)
                             && (days_left today p <=? 30)) l)
  /\ Forall (fun w => 0 <= snd w <= 30) (warnings s)
  /\ warning_count s = Z.of_nat (length (warnings s)).
Proof.
  intros Hlen Hs. cbn zeta. unfold showStatistics in Hs.
  destruct (member_count (syncAutoExpire d st) =? 0); [discriminate|].
  assert (Hlen' : Z.of_nat (length (head (syncAutoExpire d st))) <= INT_MAX)
    by (now rewrite syncAutoExpire_head, length_map).
  rewrite (count_types_counts _ Hlen') in Hs. cbn [snd] in Hs.
  inversion Hs; subst s; clear Hs.
  cbn [active_count type_month type_season type_year warnings warning_count].
  assert (Hw : expiring_soon (dateToDays d) (head (syncAutoExpire d st))
               = map (fun p => (p, days_left (dateToDays d) p))
                   (filter (fun p => (is_active (data p) =? 1)
                                     && (days_left (dateToDays d) p <=? 30))
                      (head (syncAutoExpire d st)))).
  { rewrite expiring_soon_filter. f_equal. apply filter_ext_in.
    intros p Hp. rewrite syncAutoExpire_head, in_map_iff in Hp.
    destruct Hp as (q & <- & _).
    pose proof (active_after_pass (dateToDays d) q) as Hr. revert Hr.
    generalize (days_left (dateToDays d) (expire_node (dateToDays d) q)).
    intros k Hr.
    destruct (Z.eqb_spec (is_active (data (expire_node (dateToDays d) q))) 1)
      as [E|E]; cbn [andb]; [|reflexivity].
    specialize (Hr E). apply Z.geb_le in Hr. rewrite Hr. reflexivity. }
  repeat split; try reflexivity.
  - intros Hf. now apply count_types_sum.
  - exact Hw.
  - rewrite expiring_soon_filter, Forall_map, Forall_forall.
    intros p Hp. apply filter_In in Hp. destruct Hp as [_ Hp]. cbn [snd].
    apply andb_true_iff in Hp. destruct Hp as [_ Hp].
    apply andb_true_iff in Hp. destruct Hp as [H0 H30].
    apply Z.geb_le in H0. apply Z.leb_le in H30. lia.
  - apply count_loop_length.
    pose proof (filter_length_le
                  (fun p => (is_active (data p) =? 1)
                            && ((days_left (dateToDays d) p >=? 0)
                                && (days_left (dateToDays d) p <=? 30)))
                  (head (syncAutoExpire d st))).
    rewrite expiring_soon_filter, length_map. lia.
Qed.

Lemma statistics_count_the_active_witness :
  exists s, snd (showStatistics (cs "2025-01-20") (cs "2025-01-20")
                                 scenario2_store) = Some s
            /\ active_count s
               = count_if (fun p => is_active (data p) =? 1)
                   (head (syncAutoExpire (cs "2025-01-20") scenario2_store))
            /\ active_count s = 2 /\ map snd (warnings s) = [11].
Proof.
  eexists. split; [vm_compute; reflexivity|]. split.
  - apply (statistics_count_the_active (cs "2025-01-20") scenario2_store).
    + vm_compute. discriminate.
    + vm_compute. reflexivity.
  - vm_compute. split; reflexivity.
Defined.

(* ------------------------------------------------------------------ *)
(** ** A save that succeeds *)

(** X14. For a destination other than the staging file, [saveToFile]
    returns 1 exactly when the staging file could be opened and the rename
    succeeded, and 0 otherwise.  When it returns 1 the destination holds
    the text of the store, a line for each record in order, the staging
    file is gone and every other file is as before, whether or not the
    host let the old destination be removed. *)
Theorem save_success_exact (env : SaveEnv) (filename : string) (st : Store)
    (fs : FileSystem) :
  filename <> TEMP_FILE ->
  let r := saveToFile env filename st fs in
  (snd r = 1 <-> fopen_ok env = true /\ rename_ok env = true)
  /\ (snd r <> 1 -> snd r = 0)
  /\ (snd r = 1 ->
      fst r filename = Some (file_image st)
      /\ fst r TEMP_FILE = None
      /\ forall g, g <> filename -> g <> TEMP_FILE -> fst r g = fs g).
Proof.
  intros Hne. cbn zeta. unfold saveToFile.
  destruct (fopen_ok env); cbn [negb fst snd].
  2:{ split; [split; [discriminate|intros [? _]; discriminate]|].
      split; [reflexivity|discriminate]. }
  assert (Htf : String.eqb TEMP_FILE filename = false)
    by (apply String.eqb_neq; congruence).
  assert (Hft : String.eqb filename TEMP_FILE = false)
    by (apply String.eqb_neq; congruence).
  assert (Htmp : c_remove (remove_dest_ok env) filename
                   (fs_put TEMP_FILE (file_image st) fs) TEMP_FILE
                 = Some (file_image st)).
  { unfold c_remove, fs_del, fs_put.
    destruct (remove_dest_ok env); rewrite ?Htf, String.eqb_refl; reflexivity. }
  unfold c_rename. rewrite Htmp.
  destruct (rename_ok env); cbn [fst snd].
  2:{ split; [split; [discriminate|intros [_ ?]; discriminate]|].
      split; [reflexivity|discriminate]. }
  split; [split; [now split|reflexivity]|].
  split; [intros H; now contradiction H|]. intros _.
  split; [|split].
  - unfold fs_put at 1. now rewrite String.eqb_refl.
  - unfold fs_put at 1, fs_del at 1. now rewrite Htf, String.eqb_refl.
  - intros g Hg Hg'. apply String.eqb_neq in Hg, Hg'.
    unfold c_remove, fs_del, fs_put.
    destruct (remove_dest_ok env); now rewrite ?Hg, ?Hg'.
Qed.

Lemma save_success_exact_witness :
  fst (saveToFile all_ok DATA_FILE scenario2_store old_disk) DATA_FILE
  = Some (file_image scenario2_store).
Proof.
  apply (save_success_exact all_ok DATA_FILE scenario2_store old_disk).
  - discriminate.
  - vm_compute. reflexivity.
Defined.

(* ------------------------------------------------------------------ *)
(** ** The search by name *)

Lemma starts_with_iff k s :
  starts_with k s = true <-> exists post, s = k ++ post.
Proof.
  revert s. induction k as [|x k IH]; intros s.
  - split; [intros _; now exists s|reflexivity].
  - destruct s as [|y s]; cbn [starts_with].
    + split; [discriminate|intros [post H]; discriminate].
    + rewrite andb_true_iff, Ascii.eqb_eq, IH. split.
      * intros [-> [post ->]]. now exists post.
      * intros [post H]. inversion H; subst. split; [reflexivity|now exists post].
Qed.

Lemma strstr_found_iff s k : strstr_found s k = true <-> occurs_in k s.
Proof.
  unfold occurs_in. induction s as [|y s IH].
  - cbn [strstr_found]. rewrite orb_false_r, starts_with_iff. split.
    + intros [post H]. now exists [], post.
    + intros (pre & post & H). destruct pre; [now exists post|discriminate].
  - cbn [strstr_found]. rewrite orb_true_iff, starts_with_iff, IH. split.
    + intros [[post H]|(pre & post & H)].
      * now exists [], post.
      * exists (y :: pre), post. now rewrite H.
    + intros (pre & post & H). destruct pre as [|z pre].
      * left. now exists post.
      * right. inversion H; subst. now exists pre, post.
Qed.

(** X15. The search by name lists exactly the records whose name holds the
    key as a run of consecutive bytes, among the records of the store as
    the synchronizer pass leaves it (the pass changes no name); it reports
    that nothing was found exactly when there is no such record. *)
Theorem search_by_name_lists_matches (d key : cstring) (st : Store) :
  let st1 := fst (fst (searchByName d key st)) in
  let rows := snd (fst (searchByName d key st)) in
  let found := snd (searchByName d key st) in
  st1 = syncAutoExpire d st
  /\ (forall p, In p rows <-> In p (head st1) /\ occurs_in key (name (data p)))
  /\ (forall p, In p rows ->
        exists q, In q (head st) /\ card_id (data q) = card_id (data p)
                  /\ name (data q) = name (data p))
  /\ (found = false <->
      forall q, In q (head st) -> ~ occurs_in key (name (data q))).
Proof.
  cbn zeta. unfold searchByName. cbn [fst snd].
  assert (Hname : forall t q, name (data (expire_node t q)) = name (data q)).
  { intros t q. unfold expire_node.
    destruct (is_active (data q) =? 1); [|reflexivity].
    destruct (slong (calcExpireDays q - t) <? 0); reflexivity. }
  split; [reflexivity|]. split; [|split].
  - intros p. now rewrite filter_In, strstr_found_iff.
  - intros p Hp. apply filter_In in Hp. destruct Hp as [Hp _].
    rewrite syncAutoExpire_head, in_map_iff in Hp.
    destruct Hp as (q & <- & Hq). exists q.
    now rewrite expire_node_card_id, Hname.
  - rewrite syncAutoExpire_head. split.
    + intros Hf q Hq Hocc.
      assert (Hin : In (expire_node (dateToDays d) q)
                       (filter (fun p => strstr_found (name (data p)) key)
                          (map (expire_node (dateToDays d)) (head st)))).
      { apply filter_In. split; [now apply in_map|].
        rewrite Hname. now apply strstr_found_iff. }
      destruct (filter _ _); [destruct Hin|discriminate].
    + intros Hno.
      destruct (filter (fun p => strstr_found (name (data p)) key)
                  (map (expire_node (dateToDays d)) (head st)))
        as [|p r] eqn:E; [reflexivity|].
      assert (Hin : In p (p :: r)) by now left.
      rewrite <- E in Hin. apply filter_In in Hin. destruct Hin as [Hin Hs].
      apply in_map_iff in Hin. destruct Hin as (q & <- & Hq).
      rewrite Hname in Hs. apply strstr_found_iff in Hs.
      now destruct (Hno q Hq).
Qed.

(* ------------------------------------------------------------------ *)
(** ** Cells of a fixed width *)

Lemma char_width_range u : 0 <= char_width u <= 2.
Proof.
  unfold char_width. destruct (u =? 0); [lia|].
  destruct (is_cjk_wide u); lia.
Qed.

Lemma utf8_decode_app ch rest u b :
  utf8_decode ch = Some (u, b) -> utf8_decode (ch ++ rest) = Some (u, b).
Proof.
  destruct ch as [|c0 [|c1 [|c2 [|c3 ch]]]]; unfold utf8_decode;
    cbn [app]; try discriminate;
    destruct (code c0 <? 128); try (intros H; exact H);
    destruct (Z.land (code c0) 224 =? 192); try (intros H; exact H);
      try discriminate;
    destruct (Z.land (code c0) 240 =? 224); try (intros H; exact H);
      try discriminate;
    destruct (Z.land (code c0) 248 =? 240); try (intros H; exact H);
      try discriminate.
Qed.

Lemma utf8_decode_bytes s u b : utf8_decode s = Some (u, b) -> 1 <= b <= 4.
Proof.
  destruct s as [|c0 r]; unfold utf8_decode; [discriminate|].
  destruct (code c0 <? 128); [intros H; inversion H; lia|].
  destruct (Z.land (code c0) 224 =? 192).
  { destruct r; [discriminate|intros H; inversion H; lia]. }
  destruct (Z.land (code c0) 240 =? 224).
  { destruct r as [|? [|? ?]]; try discriminate. intros H; inversion H; lia. }
  destruct (Z.land (code c0) 248 =? 240).
  { destruct r as [|? [|? [|? ?]]]; try discriminate.
    intros H; inversion H; lia. }
  intros H; inversion H; lia.
Qed.

Lemma utf8_char_inv ch :
  utf8_char ch = true ->
  exists c r u, ch = c :: r /\ Ascii.eqb c NUL = false
                /\ utf8_decode ch = Some (u, Z.of_nat (length ch))
                /\ width_of ch = char_width u.
Proof.
  unfold utf8_char, width_of. intros H. apply andb_true_iff in H.
  destruct H as [Hn Hd].
  destruct (utf8_decode ch) as [[u b]|] eqn:E; [|discriminate].
  apply Z.eqb_eq in Hd. subst b.
  destruct ch as [|c r]; [discriminate|].
  exists c, r, u. cbn [forallb] in Hn. apply andb_true_iff in Hn.
  destruct Hn as [Hc _]. apply negb_true_iff in Hc. now repeat split.
Qed.

Lemma text_width_nonneg chars : 0 <= text_width chars.
Proof.
  unfold text_width. induction chars as [|ch chars IH]; cbn; [lia|].
  unfold width_of at 1. destruct (utf8_decode ch) as [[u b]|]; [|lia].
  pose proof (char_width_range u). lia.
Qed.

Lemma pad_loop_char c r u tail used w :
  Ascii.eqb c NUL = false ->
  utf8_decode (c :: r) = Some (u, Z.of_nat (length (c :: r))) ->
  pad_loop ((c :: r) ++ tail) used w
  = if sint (used + char_width u) >? w then Some ([], used)
    else match pad_loop tail (sint (used + char_width u)) w with
         | None => None
         | Some (out, used') => Some ((c :: r) ++ out, used')
         end.
Proof.
  intros Hnul Hdec. pose proof (utf8_decode_bytes _ _ _ Hdec) as Hb.
  cbn [app]. rewrite pad_loop_equation_2, Hnul.
  change (c :: r ++ tail) with ((c :: r) ++ tail).
  rewrite (utf8_decode_app _ tail _ _ Hdec). cbv zeta.
  destruct (Z.leb_spec (Z.of_nat (length (c :: r))) 0) as [H0|_]; [lia|].
  rewrite Nat2Z.id.
  destruct (sint (used + char_width u) >? w); [reflexivity|].
  unfold fwrite_bytes. rewrite length_app.
  rewrite (proj2 (Nat.leb_le _ _)) by lia.
  rewrite firstn_app, Nat.sub_diag, firstn_all, firstn_O, app_nil_r.
  rewrite skipn_app, Nat.sub_diag, skipn_all, skipn_O. reflexivity.
Qed.

Lemma pad_loop_text chars rest w :
  forallb utf8_char chars = true ->
  w <= INT_MAX - 2 ->
  forall used, 0 <= used <= w ->
  exists k,
    (k <= length chars)%nat
    /\ pad_loop (concat chars ++ NUL :: rest) used w
       = Some (concat (firstn k chars), used + text_width (firstn k chars))
    /\ used + text_width (firstn k chars) <= w
    /\ ((k < length chars)%nat ->
        w < used + text_width (firstn (S k) chars)).
Proof.
  intros Hc Hw. induction chars as [|ch chars IH]; intros used Hu.
  - exists 0%nat. cbn [concat app firstn length].
    rewrite pad_loop_equation_2. rewrite Ascii.eqb_refl.
    unfold text_width. cbn. repeat split; try lia. now rewrite Z.add_0_r.
  - cbn [forallb] in Hc. apply andb_true_iff in Hc. destruct Hc as [Hch Hcs].
    destruct (utf8_char_inv ch Hch) as (c & r & u & -> & Hnul & Hdec & Hwd).
    pose proof (char_width_range u) as Hcw.
    pose proof (utf8_decode_bytes _ _ _ Hdec) as Hb.
    match goal with |- context [pad_loop ?m used w] =>
      assert (Hstep : pad_loop m used w
                    = if sint (used + char_width u) >? w then Some ([], used)
                      else match pad_loop (concat chars ++ NUL :: rest)
                                     (sint (used + char_width u)) w with
                           | None => None
                           | Some (out, used') => Some ((c :: r) ++ out, used')
                           end)
    end.
    { cbn [concat]. rewrite <- app_assoc.
      now apply pad_loop_char. }
    rewrite sint_id in Hstep
      by (unfold int_range; unfold INT_MAX in *; lia).
    destruct (Z.gtb_spec (used + char_width u) w) as [Hgt|Hle].
    + exists 0%nat. rewrite Hstep. cbn [firstn concat length].
      unfold text_width. cbn [map fold_right]. rewrite Hwd.
      repeat split; try lia. now rewrite Z.add_0_r.
    + destruct (IH Hcs (used + char_width u) ltac:(lia))
        as (k & Hk & Hrun & Hfit & Hcut).
      exists (S k). rewrite Hstep, Hrun. cbn [firstn concat length].
      assert (Hsum : forall l, text_width ((c :: r) :: l)
                               = char_width u + text_width l).
      { intros l. unfold text_width. cbn [map fold_right]. now rewrite Hwd. }
      rewrite !Hsum. repeat split; try lia.
      * f_equal. f_equal. lia.
      * intros Hlt. specialize (Hcut ltac:(lia)).
        change (w < used + (char_width u + text_width (firstn (S k) chars))).
        lia.
Qed.

(** X16. A cell of [printWithPad] takes exactly [target_width] columns: for
    a text of whole UTF-8 characters followed by its terminator, the
    function writes the longest run of leading characters that fits in the
    width, never a part of a character, and then spaces up to the width.
    It reads nothing after the terminator: the bytes that follow it have no
    influence.  A text that fits is written in full. *)
Theorem printWithPad_fills_the_cell (chars : list cstring)
    (rest : list ascii) (w : Z) :
  forallb utf8_char chars = true ->
  0 <= w <= INT_MAX - 2 ->
  exists k,
    (k <= length chars)%nat
    /\ printWithPad (concat chars ++ NUL :: rest) w
       = Some (concat (firstn k chars)
               ++ repeat " "%char (Z.to_nat (w - text_width (firstn k chars))))
    /\ text_width (firstn k chars)
       + Z.of_nat (Z.to_nat (w - text_width (firstn k chars))) = w
    /\ ((k < length chars)%nat -> w < text_width (firstn (S k) chars))
    /\ (text_width chars <= w -> k = length chars).
Proof.
  intros Hc Hw.
  destruct (pad_loop_text chars rest w Hc ltac:(lia) 0 ltac:(lia))
    as (k & Hk & Hrun & Hfit & Hcut).
  rewrite !Z.add_0_l in *.
  exists k. unfold printWithPad. rewrite Hrun. unfold pad_spaces.
  pose proof (text_width_nonneg (firstn k chars)).
  repeat split; try lia.
  intros Hall. destruct (Nat.eq_dec k (length chars)) as [|Hne]; [easy|].
  specialize (Hcut ltac:(lia)).
  assert (Hmono : forall n, text_width (firstn n chars) <= text_width chars).
  { clear. intros n. revert n.
    induction chars as [|ch chars IH]; intros [|n]; cbn [firstn]; try lia.
    - apply text_width_nonneg.
    - specialize (IH n). unfold text_width in *. cbn [map fold_right]. lia. }
  specialize (Hmono (S k)). lia.
Qed.

Lemma printWithPad_fills_the_cell_witness :
  exists k,
    (k <= 2)%nat
    /\ printWithPad (cs "月卡" ++ NUL :: cs "xyz") 8
       = Some (concat (firstn k [firstn 3 (cs "月卡"); skipn 3 (cs "月卡")])
               ++ repeat " "%char
                    (Z.to_nat (8 - text_width
                                     (firstn k [firstn 3 (cs "月卡");
                                                skipn 3 (cs "月卡")])))).
Proof.
  destruct (printWithPad_fills_the_cell
              [firstn 3 (cs "月卡"); skipn 3 (cs "月卡")] (cs "xyz") 8
              ltac:(vm_compute; reflexivity)
              ltac:(vm_compute; split; discriminate))
    as (k & Hk & Hrun & _).
  exists k. split; [exact Hk|exact Hrun].
Defined.

Example type_cell :
  printWithPad (cs "月卡" ++ [NUL]) 8 = Some (cs "月卡" ++ cs "    ")
  /\ text_width [firstn 3 (cs "月卡"); skipn 3 (cs "月卡")] = 4.
Proof. split; vm_compute; reflexivity. Qed.

Lemma pad_loop_prefix chars tail w :
  forallb utf8_char chars = true ->
  w <= INT_MAX - 2 ->
  forall used, 0 <= used -> used + text_width chars <= w ->
  pad_loop (concat chars ++ tail) used w
  = match pad_loop tail (used + text_width chars) w with
    | None => None
    | Some (out, used') => Some (concat chars ++ out, used')
    end.
Proof.
  intros Hc Hw. induction chars as [|ch chars IH]; intros used Hu Hfit.
  - unfold text_width. cbn [concat app map fold_right]. rewrite Z.add_0_r.
    now destruct (pad_loop tail used w) as [[out used']|].
  - cbn [forallb] in Hc. apply andb_true_iff in Hc. destruct Hc as [Hch Hcs].
    destruct (utf8_char_inv ch Hch) as (c & r & u & -> & Hnul & Hdec & Hwd).
    pose proof (char_width_range u) as Hcw.
    pose proof (text_width_nonneg chars) as Hnn.
    match goal with |- context [text_width ?l] =>
      assert (Hsum : text_width l = char_width u + text_width chars)
    end.
    { unfold text_width. cbn [map fold_right]. now rewrite Hwd. }
    rewrite Hsum in Hfit |- *.
    cbn [concat]. rewrite <- !app_assoc.
    rewrite (pad_loop_char c r u _ used w Hnul Hdec).
    rewrite sint_id by (unfold int_range; unfold INT_MAX in *; lia).
    destruct (Z.gtb_spec (used + char_width u) w) as [Hgt|_]; [lia|].
    rewrite (IH Hcs (used + char_width u)) by lia.
    rewrite Z.add_assoc.
    destruct (pad_loop tail (used + char_width u + text_width chars) w)
      as [[out used']|]; [|reflexivity].
    now rewrite <- app_assoc.
Qed.

(** X17. A text that ends inside a character: when the terminator lies
    among the bytes that [utf8_decode] takes for one character, and the
    cell still has room for it, [printWithPad] writes these bytes with the
    terminator and goes on with the memory after the terminator as if it
    were text. *)
Theorem printWithPad_runs_past_a_cut_character (chars : list cstring)
    (c : ascii) (r : list ascii) (u : Z) (rest : list ascii) (w : Z) :
  forallb utf8_char chars = true ->
  Ascii.eqb c NUL = false -> In NUL r ->
  utf8_decode (c :: r) = Some (u, Z.of_nat (length (c :: r))) ->
  0 <= w <= INT_MAX - 2 ->
  text_width chars + char_width u <= w ->
  c_str (concat chars ++ (c :: r) ++ rest)
  = concat chars ++ c_str (c :: r)
  /\ (length (c_str (c :: r)) < length (c :: r))%nat
  /\ printWithPad (concat chars ++ (c :: r) ++ rest) w
     = match pad_loop rest (text_width chars + char_width u) w with
       | None => None
       | Some (out, used) =>
           Some (concat chars ++ (c :: r) ++ out ++ pad_spaces used w)
       end.
Proof.
  intros Hc Hnul Hin Hdec Hw Hfit.
  pose proof (char_width_range u) as Hcw.
  pose proof (text_width_nonneg chars) as Hnn.
  assert (Hcut : forall l tail, In NUL l -> c_str (l ++ tail) = c_str l
                                /\ (length (c_str l) < length l)%nat).
  { induction l as [|x l IH]; intros tail []; cbn [app c_str length].
    - subst x. rewrite Ascii.eqb_refl. cbn [length]. split; [reflexivity|lia].
    - destruct (Ascii.eqb x NUL); cbn [length]; [split; [reflexivity|lia]|].
      destruct (IH tail H) as [E L]. rewrite E. split; [reflexivity|lia]. }
  assert (Hpre : forall l tail,
             forallb utf8_char l = true ->
             c_str (concat l ++ tail) = concat l ++ c_str tail).
  { induction l as [|ch l IH]; intros tail Hl; [reflexivity|].
    cbn [forallb] in Hl. apply andb_true_iff in Hl. destruct Hl as [Hch Hl].
    cbn [concat]. rewrite <- !app_assoc. rewrite <- (IH tail Hl).
    unfold utf8_char in Hch. apply andb_true_iff in Hch.
    destruct Hch as [Hch _]. generalize (concat l ++ tail). intros t.
    induction ch as [|x ch IHc]; [reflexivity|].
    cbn [forallb] in Hch. apply andb_true_iff in Hch.
    destruct Hch as [Hx Hch]. apply negb_true_iff in Hx.
    cbn [app c_str]. rewrite Hx. now rewrite (IHc Hch). }
  split; [|split].
  - rewrite (Hpre chars _ Hc). f_equal.
    apply (Hcut (c :: r) rest). now right.
  - apply (Hcut (c :: r) rest). now right.
  - unfold printWithPad.
    rewrite (pad_loop_prefix chars _ w Hc ltac:(lia) 0 ltac:(lia) ltac:(lia)).
    rewrite Z.add_0_l.
    rewrite (pad_loop_char c r u rest _ w Hnul Hdec).
    rewrite sint_id by (unfold int_range; unfold INT_MAX in *; lia).
    destruct (Z.gtb_spec (text_width chars + char_width u) w) as [Hgt|_];
      [lia|].
    destruct (pad_loop rest (text_width chars + char_width u) w)
      as [[out used']|]; [|reflexivity].
    now rewrite <- !app_assoc.
Qed.

Lemma printWithPad_runs_past_a_cut_character_witness :
  printWithPad (chr 224 :: chr 184 :: NUL :: cs "M" ++ [NUL]) 14
  = Some (chr 224 :: chr 184 :: NUL :: cs "M" ++ repeat " "%char 12).
Proof.
  pose proof (printWithPad_runs_past_a_cut_character
                [] (chr 224) [chr 184; NUL] _ (cs "M" ++ [NUL]) 14
                ltac:(reflexivity) ltac:(reflexivity)
                ltac:(right; left; reflexivity)
                ltac:(vm_compute; reflexivity)
                ltac:(vm_compute; split; discriminate)
                ltac:(vm_compute; discriminate)) as (_ & _ & H).
  etransitivity; [exact H|vm_compute; reflexivity].
Defined.
